(** * git-commit-guide: the interactive commit helper, in its two versions

    The repository holds two versions of one Go program: [src/main.go]
    (module [MainGo] below) and a later revision with colours, the fixed
    work-item prefix [bcds], an ordered catalog and an optional message body
    (module [Part000]).

    Go strings are byte sequences, so a string is a [list ascii] here.  The
    parts of Go's standard library the program calls ([strings], [strconv],
    [regexp], [fmt], [bufio]) are modelled first, then a small monad that
    records what a run prints, reads and executes, then the two programs,
    then what the specification says about them and the proofs.

    Standard input is a terminal: every [scanner.Scan()] gets the next line
    the operator enters, so the input of a run is a list of lines. *)

From Stdlib Require Import DecimalString Ascii String.
From Stdlib Require Import ZArith Lia Bool List Permutation.
Import ListNotations.

Local Open Scope char_scope.
Local Open Scope list_scope.

(** ** Strings *)

Definition gostring := list ascii.

(** A string literal of the source, as its bytes (UTF-8 for the Chinese
    messages). *)
Definition str (s : string) : gostring := list_ascii_of_string s.

Definition byteN (c : ascii) : N := N_of_ascii c.

Fixpoint eqs (a b : gostring) : bool :=
  match a, b with
  | [], [] => true
  | x :: a', y :: b' => (x =? y) && eqs a' b'
  | _, _ => false
  end.

(** [strings.HasPrefix]. *)
Fixpoint HasPrefix (s prefix : gostring) : bool :=
  match prefix, s with
  | [], _ => true
  | p :: prefix', c :: s' => (c =? p) && HasPrefix s' prefix'
  | _ :: _, [] => false
  end.

(** [strings.Join]. *)
Fixpoint Join (elems : list gostring) (sep : gostring) : gostring :=
  match elems with
  | [] => []
  | [e] => e
  | e :: rest => e ++ sep ++ Join rest sep
  end.

(** *** [strings.TrimSpace]

    White space is what [unicode.IsSpace] accepts: the six ASCII characters
    of the fast path, U+0085 and U+00A0 (two bytes in UTF-8), and U+1680,
    U+2000..U+200A, U+2028, U+2029, U+202F, U+205F, U+3000 (three bytes). *)

Definition asciiSpace (c : ascii) : bool :=
  (c =? "009") || (c =? "010") || (c =? "011") || (c =? "012")
  || (c =? "013") || (c =? " ").

Definition space2 (c1 c2 : ascii) : bool :=
  (c1 =? "194") && ((c2 =? "133") || (c2 =? "160")).

Definition space3 (c1 c2 c3 : ascii) : bool :=
  ((c1 =? "225") && (c2 =? "154") && (c3 =? "128"))
  || ((c1 =? "226") && (c2 =? "128")
      && (((128 <=? byteN c3) && (byteN c3 <=? 138))%N
          || (c3 =? "168") || (c3 =? "169") || (c3 =? "175")))
  || ((c1 =? "226") && (c2 =? "129") && (c3 =? "159"))
  || ((c1 =? "227") && (c2 =? "128") && (c3 =? "128")).

(** Drop the white-space characters at the front. *)
Fixpoint trimLeft (s : gostring) : gostring :=
  match s with
  | [] => []
  | c1 :: t1 =>
      if asciiSpace c1 then trimLeft t1
      else match t1 with
           | [] => s
           | c2 :: t2 =>
               if space2 c1 c2 then trimLeft t2
               else match t2 with
                    | [] => s
                    | c3 :: t3 => if space3 c1 c2 c3 then trimLeft t3 else s
                    end
           end
  end.

(** The same from the back, on the reversed string: the last byte comes
    first. *)
Fixpoint trimLeftRev (s : gostring) : gostring :=
  match s with
  | [] => []
  | c1 :: t1 =>
      if asciiSpace c1 then trimLeftRev t1
      else match t1 with
           | [] => s
           | c2 :: t2 =>
               if space2 c2 c1 then trimLeftRev t2
               else match t2 with
                    | [] => s
                    | c3 :: t3 => if space3 c3 c2 c1 then trimLeftRev t3 else s
                    end
           end
  end.

Definition trimRight (s : gostring) : gostring := rev (trimLeftRev (rev s)).

Definition TrimSpace (s : gostring) : gostring := trimRight (trimLeft s).

(** *** [strings.ToLower] and [strings.ToUpper]

    Both have an ASCII path, written out here, and hand every string with a
    byte above 127 to [strings.Map] with Go's Unicode case tables.  Those
    tables are not part of the repository: they are a parameter. *)

Class UnicodeCase := {
  MapToLower : gostring -> gostring;
  MapToUpper : gostring -> gostring
}.

Definition isASCIIbyte (c : ascii) : bool := (byteN c <? 128)%N.
Definition isASCII (s : gostring) : bool := forallb isASCIIbyte s.

Definition isUpper (c : ascii) : bool := ("A" <=? c) && (c <=? "Z").
Definition isLower (c : ascii) : bool := ("a" <=? c) && (c <=? "z").
Definition isDigit (c : ascii) : bool := ("0" <=? c) && (c <=? "9").

Definition lowerByte (c : ascii) : ascii :=
  if isUpper c then ascii_of_N (byteN c + 32) else c.
Definition upperByte (c : ascii) : ascii :=
  if isLower c then ascii_of_N (byteN c - 32) else c.

Definition ToLower `{UnicodeCase} (s : gostring) : gostring :=
  if isASCII s then map lowerByte s else MapToLower s.
Definition ToUpper `{UnicodeCase} (s : gostring) : gostring :=
  if isASCII s then map upperByte s else MapToUpper s.

(** *** [strconv.Atoi] and the [%d] verb

    [Atoi] takes an optional sign and at least one decimal digit, nothing
    else, and fails when the value does not fit [int] (64 bits). *)

Definition digitVal (c : ascii) : Z := Z.of_N (byteN c) - 48.

Fixpoint parseDigits (acc : Z) (s : gostring) : option Z :=
  match s with
  | [] => Some acc
  | c :: t => if isDigit c then parseDigits (acc * 10 + digitVal c) t else None
  end.

Definition minInt : Z := - 2 ^ 63.
Definition maxInt : Z := 2 ^ 63 - 1.

Definition Atoi (s : gostring) : option Z :=
  let '(neg, ds) :=
    match s with
    | c :: t => if c =? "-" then (true, t)
                else if c =? "+" then (false, t) else (false, s)
    | [] => (false, s)
    end in
  match ds with
  | [] => None
  | _ :: _ =>
      match parseDigits 0 ds with
      | Some n =>
          let v := if neg then (- n)%Z else n in
          if ((minInt <=? v) && (v <=? maxInt))%Z then Some v else None
      | None => None
      end
  end.

(** [fmt.Sprintf("%d", n)]. *)
Definition Itoa (n : Z) : gostring := str (NilZero.string_of_int (Z.to_int n)).

(** [%-8s]: left-justified in a field of eight. *)
Definition padRight (width : nat) (s : gostring) : gostring :=
  s ++ repeat " " (width - length s).

(** *** [regexp]

    The fragment the program uses: literals, character classes with ranges,
    concatenation, [?], [+], [*] and groups.  Every pattern of the program is
    anchored at both ends ([^...$], no flags), so [MatchString] decides
    whether the whole string is in the language.  A byte above 127 is part of
    a rune that no ASCII class contains, which is what membership by byte
    gives as well. *)

Inductive item : Type :=
| Range (lo hi : ascii)
| Char (c : ascii).

Definition item_mem (c : ascii) (i : item) : bool :=
  match i with
  | Range lo hi => (lo <=? c) && (c <=? hi)
  | Char d => c =? d
  end.

Definition class_mem (cl : list item) (c : ascii) : bool :=
  existsb (item_mem c) cl.

Inductive regex : Type :=
| Void
| Eps
| Class (cl : list item)
| Cat (r1 r2 : regex)
| Alt (r1 r2 : regex)
| Star (r : regex).

Definition Plus (r : regex) : regex := Cat r (Star r).
Definition Opt (r : regex) : regex := Alt r Eps.
Fixpoint Lit (s : gostring) : regex :=
  match s with
  | [] => Eps
  | c :: t => Cat (Class [Char c]) (Lit t)
  end.

Fixpoint nullable (r : regex) : bool :=
  match r with
  | Void => false
  | Eps => true
  | Class _ => false
  | Cat r1 r2 => nullable r1 && nullable r2
  | Alt r1 r2 => nullable r1 || nullable r2
  | Star _ => true
  end.

Fixpoint deriv (c : ascii) (r : regex) : regex :=
  match r with
  | Void => Void
  | Eps => Void
  | Class cl => if class_mem cl c then Eps else Void
  | Cat r1 r2 =>
      if nullable r1 then Alt (Cat (deriv c r1) r2) (deriv c r2)
      else Cat (deriv c r1) r2
  | Alt r1 r2 => Alt (deriv c r1) (deriv c r2)
  | Star r1 => Cat (deriv c r1) (Star r1)
  end.

Fixpoint MatchString (re : regex) (s : gostring) : bool :=
  match s with
  | [] => nullable re
  | c :: t => MatchString (deriv c re) t
  end.

(** The language of a pattern, to state what [MatchString] decides. *)
Inductive Lang : regex -> gostring -> Prop :=
| LEps : Lang Eps []
| LClass cl c : class_mem cl c = true -> Lang (Class cl) [c]
| LCat r1 r2 s1 s2 : Lang r1 s1 -> Lang r2 s2 -> Lang (Cat r1 r2) (s1 ++ s2)
| LAltL r1 r2 s : Lang r1 s -> Lang (Alt r1 r2) s
| LAltR r1 r2 s : Lang r2 s -> Lang (Alt r1 r2) s
| LStarNil r : Lang (Star r) []
| LStarApp r s1 s2 : Lang r s1 -> Lang (Star r) s2 -> Lang (Star r) (s1 ++ s2).

(** ** Runs

    A run prints to standard output, asks standard input for lines and
    executes git.  After the last line of the input the scanner reports end
    of input and [Text()] is the empty string. *)

Inductive event : Type :=
| Print (text : gostring)      (* bytes written to standard output *)
| Scan                         (* [scanner.Scan()]: one line is requested *)
| Git (args : list gostring).  (* [exec.Command("git", args...)] is run *)

(** [Exited n] is [os.Exit(n)].  [Hung]: a retry loop reached the end of the
    input with an answer it rejects; it reads the same empty answer again
    and never leaves the loop. *)
Inductive status : Type :=
| Exited (code : Z)
| Hung.

(** [Value a rest]: the action returned [a] and left the lines [rest]
    unread.  When [main] returns, the process ends with exit status 0. *)
Inductive result (A : Type) : Type :=
| Value (a : A) (stdin : list gostring)
| Stop (st : status).
Arguments Value {A} a stdin.
Arguments Stop {A} st.

Definition io (A : Type) : Type := list gostring -> list event * result A.

Definition ret {A} (a : A) : io A := fun stdin => ([], Value a stdin).

Definition bind {A B} (m : io A) (k : A -> io B) : io B := fun stdin =>
  match m stdin with
  | (t, Value a rest) => let '(t', r) := k a rest in (t ++ t', r)
  | (t, Stop st) => (t, Stop st)
  end.

Declare Scope io_scope.
Delimit Scope io_scope with io.
Notation "x <- m ;; k" := (bind m (fun x => k))
  (at level 61, m at next level, right associativity) : io_scope.
Notation "m ;; k" := (bind m (fun _ => k))
  (at level 61, right associativity) : io_scope.
Local Open Scope io_scope.

Definition LF : ascii := "010".
Definition ESC : ascii := "027".

Definition emit (text : gostring) : io unit := fun stdin => ([Print text], Value tt stdin).
Definition Println (text : gostring) : io unit := emit (text ++ [LF]).
Definition exit {A} (code : Z) : io A := fun _ => ([], Stop (Exited code)).

(** [scanner.Scan(); scanner.Text()]. *)
Definition scanText : io gostring := fun stdin =>
  match stdin with
  | [] => ([Scan], Value [] [])
  | line :: rest => ([Scan], Value line rest)
  end.

(** The git executable is outside the program: a function from the
    arguments to the combined output and whether [err] is non-nil.  A run
    calls it at most twice, with different arguments. *)
Definition gitworld : Type := list gostring -> gostring * bool.

Definition runGitCommand (git : gitworld) (args : list gostring) : io (gostring * bool) :=
  fun stdin => ([Git args], Value (git args) stdin).

(** [readLine] of the later revision and [readInput] of [main.go] are the
    same function. *)
Definition readLine (prompt : gostring) : io gostring :=
  emit prompt ;; line <- scanText ;; ret (TrimSpace line).

(** The three retry loops have one shape:
    [for { x = readLine(prompt); if accepted { break }; complain }].
    Each turn takes one line, so the loop is written by recursion on the
    input (lemma [untilValid_turn] unfolds one turn into this body).  At the
    end of the input every turn reads the empty answer: if that is rejected
    the loop never ends, and the trace stops where the repetition begins. *)
Fixpoint untilValid {A} (prompt : gostring) (accept : gostring -> option A)
    (complaint : gostring) (stdin : list gostring) : list event * result A :=
  match stdin with
  | [] =>
      match accept (TrimSpace []) with
      | Some a => ([Print prompt; Scan], Value a [])
      | None => ([], Stop Hung)
      end
  | line :: rest =>
      match accept (TrimSpace line) with
      | Some a => ([Print prompt; Scan], Value a rest)
      | None =>
          let '(t, r) := untilValid prompt accept complaint rest in
          (Print prompt :: Scan :: Print complaint :: t, r)
      end
  end.

(** ** The later revision ([src/unnamed/part_000]) *)

Module Part000.

Definition ColorReset : gostring := ESC :: str "[0m".
Definition ColorRed : gostring := ESC :: str "[31m".
Definition ColorGreen : gostring := ESC :: str "[32m".
Definition ColorYellow : gostring := ESC :: str "[33m".
Definition ColorCyan : gostring := ESC :: str "[36m".

(** [^bcds-\d+(-[a-z0-9]+)*$] *)
Definition workItemRe : regex :=
  Cat (Lit (str "bcds-"))
    (Cat (Plus (Class [Range "0" "9"]))
       (Star (Cat (Lit (str "-")) (Plus (Class [Range "a" "z"; Range "0" "9"]))))).

Definition validateWorkItem (workItem : gostring) : bool :=
  MatchString workItemRe workItem.

Record CommitType : Type := { code : gostring; description : gostring }.

Definition getCommitTypes : list CommitType :=
  [ {| code := str "feat"; description := str "新功能 (A new feature)" |};
    {| code := str "fix"; description := str "Bug修复 (A bug fix)" |};
    {| code := str "docs"; description := str "文档更新 (Documentation only changes)" |};
    {| code := str "style"; description := str "代码格式 (Changes that do not affect code meaning)" |};
    {| code := str "refactor"; description := str "代码重构 (Neither fixes bug nor adds feature)" |};
    {| code := str "perf"; description := str "性能优化 (A code change that improves performance)" |};
    {| code := str "test"; description := str "测试相关 (Adding or correcting tests)" |};
    {| code := str "build"; description := str "构建相关 (Affect build system or dependencies)" |};
    {| code := str "ci"; description := str "CI配置 (Changes to CI configuration files)" |};
    {| code := str "chore"; description := str "其他杂项 (Other changes)" |} ].

(** The class of the pattern as the file has it:
    [^[A-Za-z0-9 ,.!?\-$begin:math:text$$end:math:text$]+$].  After the
    escaped hyphen come the characters of [$begin:math:text$$end:math:text$],
    each a member of the class; there is no parenthesis. *)
Definition descClass : list item :=
  [Range "A" "Z"; Range "a" "z"; Range "0" "9"]
  ++ map Char (str " ,.!?-$begin:math:text$$end:math:text$").

Definition descRe : regex := Plus (Class descClass).

Definition validateEnglishDescription (desc : gostring) : bool :=
  if (length desc =? 0)%nat || (72 <? length desc)%nat then false
  else MatchString descRe desc.

(** The loop of [readMultiline]: lines are kept as entered until one that
    is empty once trimmed. *)
Fixpoint collectLines (stdin : list gostring)
    : list event * list gostring * list gostring :=
  match stdin with
  | [] => ([Scan], [], [])
  | line :: rest =>
      if eqs (TrimSpace line) [] then ([Scan], [], rest)
      else let '(t, lines, rest') := collectLines rest in
           (Scan :: t, line :: lines, rest')
  end.

Definition readMultiline (prompt : gostring) : io gostring := fun stdin =>
  let '(t, lines, rest) := collectLines stdin in
  (Print (prompt ++ str " (直接回车结束):" ++ [LF]) :: t, Value (Join lines [LF]) rest).

(** [fmt.Printf("   %d. %-8s %s\n", i+1, ct.code, ct.description)] *)
Definition menuLine (number : Z) (ct : CommitType) : gostring :=
  str "   " ++ Itoa number ++ str ". " ++ padRight 8 (code ct) ++ str " "
  ++ description ct ++ [LF].

(** [for i, ct := range commitTypes], from index [i]. *)
Fixpoint printMenu (i : Z) (commitTypes : list CommitType) : list event :=
  match commitTypes with
  | [] => []
  | ct :: rest => Print (menuLine (i + 1) ct) :: printMenu (i + 1) rest
  end.

(** The message, lines 149 to 152 of [main]. *)
Definition commitMessage (commitType workItem description body : gostring) : gostring :=
  let commitMessage := commitType ++ str "(" ++ workItem ++ str "): " ++ description in
  if negb (eqs body []) then commitMessage ++ [LF; LF] ++ body else commitMessage.

Section Program.
Context `{UnicodeCase}.
Variable git : gitworld.

(** Lines 107 to 114: the work item is the lowered answer. *)
Definition acceptWorkItem (line : gostring) : option gostring :=
  let workItem := ToLower line in
  if validateWorkItem workItem then Some workItem else None.

Definition askWorkItem : io gostring :=
  untilValid
    (ColorYellow ++ str "1. 请输入工单号 (格式: bcds-<数字> 或 bcds-<数字>-xxx): " ++ ColorReset)
    acceptWorkItem
    (ColorRed ++ str "工单号格式无效，请重新输入。" ++ ColorReset ++ [LF]).

(** Lines 123 to 132: [Atoi], the range test, the entry at [choice-1]. *)
Definition acceptType (commitTypes : list CommitType) (input : gostring) : option gostring :=
  match Atoi input with
  | Some choice =>
      if ((1 <=? choice) && (choice <=? Z.of_nat (length commitTypes)))%Z
      then option_map code (nth_error commitTypes (Z.to_nat (choice - 1)))
      else None
  | None => None
  end.

Definition askCommitType (commitTypes : list CommitType) : io gostring :=
  untilValid
    (str "   请输入编号 (1-" ++ Itoa (Z.of_nat (length commitTypes)) ++ str "): ")
    (acceptType commitTypes)
    (ColorRed ++ str "请输入有效的数字 (1-" ++ Itoa (Z.of_nat (length commitTypes))
     ++ str ")" ++ [LF] ++ ColorReset).

(** Lines 136 to 143. *)
Definition acceptDescription (line : gostring) : option gostring :=
  if validateEnglishDescription line then Some line else None.

Definition askDescription : io gostring :=
  untilValid (str "   描述: ") acceptDescription
    (ColorRed ++ str "描述不符合规范，请确保使用英文、首字母大写且不超过72个字符。"
     ++ ColorReset ++ [LF]).

(** The test of line 161, on the answer that line 160 has already lowered. *)
Definition cancelled (confirm : gostring) : bool :=
  negb (eqs (ToLower confirm) (str "y")) && negb (eqs (ToLower confirm) (str "yes")).

(** Lines 154 to 176: show the message, confirm, commit. *)
Definition confirmAndCommit (commitMessage : gostring) : io unit :=
  Println ([LF] ++ ColorGreen ++ str "生成的提交信息:" ++ ColorReset) ;;
  Println (str "--------------------------------------------------") ;;
  Println commitMessage ;;
  Println (str "--------------------------------------------------") ;;
  answer <- readLine (str "是否确认提交? (Y/N): ") ;;
  let confirm := ToLower answer in
  (if cancelled confirm
   then Println (ColorRed ++ str "提交已取消。" ++ ColorReset) ;; exit 0
   else ret tt) ;;
  r <- runGitCommand git [str "commit"; str "-m"; commitMessage] ;;
  let '(output, err) := r in
  (if err
   then emit (ColorRed ++ str "提交失败: " ++ output ++ [LF] ++ ColorReset) ;; exit 1
   else ret tt) ;;
  Println ([LF] ++ ColorGreen ++ str "=== 提交成功 ===" ++ ColorReset) ;;
  emit (str "提交内容:" ++ [LF] ++ commitMessage ++ [LF]) ;;
  Println (str "可以使用 'git push' 推送更改。").

(** Lines 106 to 152: the four inputs and the message built from them. *)
Definition gather : io gostring :=
  workItem <- askWorkItem ;;
  let commitTypes := getCommitTypes in
  Println ([LF] ++ ColorYellow ++ str "2. 请选择提交类型:" ++ ColorReset) ;;
  (fun stdin => (printMenu 0 commitTypes, Value tt stdin)) ;;
  commitType <- askCommitType commitTypes ;;
  Println ([LF] ++ ColorYellow
           ++ str "3. 请输入简短描述（英文，首字母大写，不超过72个字符）:" ++ ColorReset) ;;
  description <- askDescription ;;
  body <- readMultiline ([LF] ++ ColorYellow
                         ++ str "4. 输入详细描述（可选，多行，支持中文）" ++ ColorReset) ;;
  ret (commitMessage commitType workItem description body).

Definition main : io unit :=
  r <- runGitCommand git [str "diff"; str "--cached"; str "--quiet"] ;;
  let '(_, err) := r in
  (if negb err
   then Println (ColorRed ++ str "错误：没有暂存的更改，请先使用 'git add' 添加文件。" ++ ColorReset) ;;
        exit 1
   else ret tt) ;;
  Println (ColorCyan ++ str "=== Git 提交助手 (Custom Commit CLI) ===" ++ ColorReset) ;;
  commitMessage <- gather ;;
  confirmAndCommit commitMessage.

End Program.
End Part000.

(** ** The first version ([src/main.go]) *)

Module MainGo.

(** [^([A-Za-z]+-)?\d+$] *)
Definition workItemRe : regex :=
  Cat (Opt (Cat (Plus (Class [Range "A" "Z"; Range "a" "z"])) (Lit (str "-"))))
    (Plus (Class [Range "0" "9"])).

Definition validateWorkItem (workItem : gostring) : bool :=
  MatchString workItemRe workItem.

Record CommitType : Type := { code : gostring; description : gostring }.

(** A Go map literal: the keys with their values.  [lookup] is indexing
    with the comma-ok form. *)
Definition getCommitTypes : list (Z * CommitType) :=
  [ (1, {| code := str "feat"; description := str "新功能 (A new feature)" |});
    (2, {| code := str "fix"; description := str "Bug修复 (A bug fix)" |});
    (3, {| code := str "docs"; description := str "文档更新 (Documentation only changes)" |});
    (4, {| code := str "style"; description := str "代码格式 (Changes that do not affect code meaning)" |});
    (5, {| code := str "refactor"; description := str "代码重构 (Neither fixes bug nor adds feature)" |});
    (6, {| code := str "perf"; description := str "性能优化 (A code change that improves performance)" |});
    (7, {| code := str "test"; description := str "测试相关 (Adding or correcting tests)" |});
    (8, {| code := str "build"; description := str "构建相关 (Affect build system or dependencies)" |});
    (9, {| code := str "ci"; description := str "CI配置 (Changes to CI configuration files)" |});
    (10, {| code := str "chore"; description := str "其他杂项 (Other changes)" |}) ]%Z.

Fixpoint lookup (m : list (Z * CommitType)) (key : Z) : option CommitType :=
  match m with
  | [] => None
  | (k, v) :: rest => if (k =? key)%Z then Some v else lookup rest key
  end.

(** [^[A-Za-z0-9 ,.!?\-\(\)]+$] *)
Definition descClass : list item :=
  [Range "A" "Z"; Range "a" "z"; Range "0" "9"] ++ map Char (str " ,.!?-()").

Definition descRe : regex := Plus (Class descClass).

(** [fmt.Printf("   %d. %-8s %s\n", i, ct.code, ct.description)] *)
Definition menuLine (number : Z) (ct : CommitType) : gostring :=
  str "   " ++ Itoa number ++ str ". " ++ padRight 8 (code ct) ++ str " "
  ++ description ct ++ [LF].

(** [for i, ct := range commitTypes] over a map: the runtime chooses the
    order in which the entries come, [iteration] is that sequence. *)
Definition printMenu (iteration : list (Z * CommitType)) : list event :=
  map (fun '(i, ct) => Print (menuLine i ct)) iteration.

(** Line 126. *)
Definition commitMessage (commitType workItem description : gostring) : gostring :=
  commitType ++ str "(" ++ workItem ++ str "): " ++ description.

Section Program.
Context `{UnicodeCase}.
Variable git : gitworld.
Variable iteration : list (Z * CommitType).

Definition validateEnglishDescription (desc : gostring) : bool :=
  if (length desc =? 0)%nat then false
  else if (72 <? length desc)%nat then false
  else if (0 <? length desc)%nat
          && negb (HasPrefix (ToUpper (firstn 1 desc)) (firstn 1 desc))
  then false
  else MatchString descRe desc.

Definition readInput : gostring -> io gostring := readLine.

(** Lines 85 to 92: the work item is the answer as trimmed. *)
Definition acceptWorkItem (workItem : gostring) : option gostring :=
  if validateWorkItem workItem then Some workItem else None.

Definition askWorkItem : io gostring :=
  untilValid (str "1. 请输入工单号 (例如 PROJ-1234): ") acceptWorkItem
    (str "工单号格式无效，请重新输入。" ++ [LF]).

(** Lines 101 to 112: [Atoi], then the map entry at [choice] if there is
    one. *)
Definition acceptType (commitTypes : list (Z * CommitType)) (input : gostring)
    : option gostring :=
  match Atoi input with
  | Some choice => option_map code (lookup commitTypes choice)
  | None => None
  end.

Definition askCommitType (commitTypes : list (Z * CommitType)) : io gostring :=
  untilValid
    (str "   请输入编号 (1-" ++ Itoa (Z.of_nat (length commitTypes)) ++ str "): ")
    (acceptType commitTypes)
    (str "请输入有效的数字 (1-" ++ Itoa (Z.of_nat (length commitTypes)) ++ str ")" ++ [LF]).

(** Lines 116 to 123. *)
Definition acceptDescription (line : gostring) : option gostring :=
  if validateEnglishDescription line then Some line else None.

Definition askDescription : io gostring :=
  untilValid (str "   描述: ") acceptDescription
    (str "描述不符合规范，请确保使用英文、首字母大写且不超过72个字符。" ++ [LF]).

(** The test of line 131. *)
Definition cancelled (confirm : gostring) : bool :=
  negb (eqs (ToLower confirm) (str "y")) && negb (eqs (ToLower confirm) (str "yes")).

(** Lines 127 to 146. *)
Definition confirmAndCommit (commitMessage : gostring) : io unit :=
  emit ([LF] ++ str "生成的提交信息:" ++ [LF] ++ commitMessage ++ [LF]) ;;
  confirm <- readInput (str "是否确认提交? (y/n): ") ;;
  (if cancelled confirm then Println (str "提交已取消。") ;; exit 0 else ret tt) ;;
  r <- runGitCommand git [str "commit"; str "-m"; commitMessage] ;;
  let '(output, err) := r in
  (if err then emit (str "提交失败: " ++ output ++ [LF]) ;; exit 1 else ret tt) ;;
  Println ([LF] ++ str "=== 提交成功 ===") ;;
  emit (str "提交内容: " ++ commitMessage ++ [LF]) ;;
  Println (str "可以使用 'git push' 推送更改。").

(** Lines 84 to 126. *)
Definition gather : io gostring :=
  workItem <- askWorkItem ;;
  let commitTypes := getCommitTypes in
  Println ([LF] ++ str "2. 请选择提交类型:") ;;
  (fun stdin => (printMenu iteration, Value tt stdin)) ;;
  commitType <- askCommitType commitTypes ;;
  Println ([LF] ++ str "3. 请输入修改内容（英文，首字母大写，不超过72个字符）:") ;;
  description <- askDescription ;;
  ret (commitMessage commitType workItem description).

Definition main : io unit :=
  r <- runGitCommand git [str "diff"; str "--cached"; str "--quiet"] ;;
  let '(_, err) := r in
  (if negb err
   then Println (str "错误：没有暂存的更改，请先使用 'git add' 添加文件。") ;; exit 1
   else ret tt) ;;
  Println (str "=== 自定义提交流程 ===") ;;
  commitMessage <- gather ;;
  confirmAndCommit commitMessage.

End Program.
End MainGo.

(** ** What the specification says, in its own words *)

(** The allowed characters of a short description: Latin letters, digits,
    space, comma, period, exclamation mark, question mark, hyphen and the
    two parentheses. *)
Definition allowedChar (c : ascii) : bool :=
  isUpper c || isLower c || isDigit c
  || (c =? " ") || (c =? ",") || (c =? ".") || (c =? "!") || (c =? "?")
  || (c =? "-") || (c =? "(") || (c =? ")").

(** Non-empty, at most 72 characters, allowed characters only. *)
Definition descriptionRule (d : gostring) : bool :=
  (1 <=? length d)%nat && (length d <=? 72)%nat && forallb allowedChar d.

(** "Starts with an uppercase letter". *)
Definition startsUpper (d : gostring) : bool :=
  match d with
  | c :: _ => isUpper c
  | [] => false
  end.

(** Equality of two strings up to the case of ASCII letters. *)
Definition equalFold (a b : gostring) : bool := eqs (map lowerByte a) (map lowerByte b).

Definition isAlnumFold (c : ascii) : bool := isUpper c || isLower c || isDigit c.

(** A segment with the hyphen that leads it. *)
Definition hyphenated (g : gostring) : gostring := str "-" ++ g.

(** [prefix-\d+(-[a-z0-9]+)*], letters in either case: the prefix, a
    hyphen, digits, then segments of letters and digits each led by a
    hyphen. *)
Definition WorkItemFold (prefix s : gostring) : Prop :=
  exists p digits segments,
    s = p ++ str "-" ++ digits ++ concat (map hyphenated segments)
    /\ equalFold p prefix = true
    /\ digits <> [] /\ forallb isDigit digits = true
    /\ Forall (fun g => g <> [] /\ forallb isAlnumFold g = true) segments.

(** The same pattern read as it stands, lower case only. *)
Definition WorkItemExact (prefix s : gostring) : Prop :=
  exists digits segments,
    s = prefix ++ str "-" ++ digits ++ concat (map hyphenated segments)
    /\ digits <> [] /\ forallb isDigit digits = true
    /\ Forall (fun g => g <> []
                        /\ forallb (fun c => isLower c || isDigit c) g = true) segments.

(** The pattern of [main.go]: digits, or letters and a hyphen before them. *)
Definition WorkItemLoose (s : gostring) : Prop :=
  exists letters digits,
    (s = digits \/ (s = letters ++ str "-" ++ digits /\ letters <> []))
    /\ forallb (fun c => isUpper c || isLower c) letters = true
    /\ digits <> [] /\ forallb isDigit digits = true.

(** An affirmative answer: "y" or "yes", in either case of the letters. *)
Definition affirmative (answer : gostring) : bool :=
  equalFold answer (str "y") || equalFold answer (str "yes").

(** What the confirmation needs of Go's case tables.  In [unicode.ToLower]
    the only characters whose lower case is [y], [e] or [s] are these
    letters and [Y], [E], [S], and no character has an uppercase letter as
    its lower case.  A string with a byte above 127 holds a character
    outside ASCII, or an invalid byte, which [strings.Map] turns into
    U+FFFD; so what [strings.ToLower] makes of it is neither "y" nor "yes",
    in either case of the letters. *)
Definition lowerKeepsForeign `{UnicodeCase} : Prop :=
  forall s, isASCII s = false -> affirmative (MapToLower s) = false.

(** The body collector as the specification words it: the lines before the
    first empty line. *)
Fixpoint linesBeforeEmpty (stdin : list gostring) : list gostring :=
  match stdin with
  | [] => []
  | line :: rest => if eqs line [] then [] else line :: linesBeforeEmpty rest
  end.

(** The ten codes in catalog order. *)
Definition catalogCodes : list gostring :=
  map str ["feat"; "fix"; "docs"; "style"; "refactor"; "perf"; "test"; "build";
           "ci"; "chore"]%string.

(** White space around an answer: any sequence of white-space characters. *)
Inductive Blank : gostring -> Prop :=
| BlankNil : Blank []
| Blank1 c s : asciiSpace c = true -> Blank s -> Blank (c :: s)
| Blank2 c1 c2 s : space2 c1 c2 = true -> Blank s -> Blank (c1 :: c2 :: s)
| Blank3 c1 c2 c3 s : space3 c1 c2 c3 = true -> Blank s -> Blank (c1 :: c2 :: c3 :: s).

(** [strings.Split(s, "\n")]: the lines of a text. *)
Fixpoint splitLines (cur : gostring) (s : gostring) : list gostring :=
  match s with
  | [] => [rev cur]
  | c :: t => if c =? LF then rev cur :: splitLines [] t else splitLines (c :: cur) t
  end.

Definition lines (s : gostring) : list gostring := splitLines [] s.

(** A string without a line feed. *)
Definition noLF (s : gostring) : bool := forallb (fun c => negb (c =? LF)) s.

(** The characters a pattern can match at all. *)
Fixpoint mentions (r : regex) (c : ascii) : bool :=
  match r with
  | Void | Eps => false
  | Class cl => class_mem cl c
  | Cat r1 r2 | Alt r1 r2 => mentions r1 c || mentions r2 c
  | Star r1 => mentions r1 c
  end.

(** Tables for examples on ASCII input, where they are never consulted. *)
Definition asciiOnly : UnicodeCase :=
  {| MapToLower := fun s => s; MapToUpper := fun s => s |}.

(** A repository with staged changes, in which every commit succeeds:
    [git diff --cached --quiet] fails and nothing else does. *)
Definition gitStaged : gitworld := fun args =>
  ([], match args with
       | a :: _ => eqs a (str "diff")
       | [] => false
       end).

Definition isCommit (e : event) : bool :=
  match e with
  | Git (a :: _) => eqs a (str "commit")
  | _ => false
  end.

Definition isScan (e : event) : bool :=
  match e with Scan => true | _ => false end.

(** The arguments of the two git commands. *)
Definition diffArgs : list gostring := [str "diff"; str "--cached"; str "--quiet"].

Definition commitArgs (msg : gostring) : list gostring := [str "commit"; str "-m"; msg].

Definition cancelNotice000 : gostring :=
  Part000.ColorRed ++ str "提交已取消。" ++ Part000.ColorReset ++ [LF].
Definition cancelNoticeMain : gostring := str "提交已取消。" ++ [LF].

(** A run that was cancelled: exit status 0, the cancellation message is the
    last thing that happened, and [git commit] was not run. *)
Definition cancelledRun {A} (notice : gostring) (run : list event * result A) : Prop :=
  snd run = Stop (Exited 0)
  /\ last (fst run) Scan = Print notice
  /\ existsb isCommit (fst run) = false.

(** A part of the program that never runs [git commit]. *)
Definition quiet {A} (m : io A) : Prop :=
  forall stdin, existsb isCommit (fst (m stdin)) = false.

(** A byte that may start a white-space character. *)
Definition spaceLead (a : ascii) : bool :=
  asciiSpace a || (a =? "194") || (a =? "225") || (a =? "226") || (a =? "227").

(** The git commands of a trace, in order. *)
Definition gitCalls (t : list event) : list (list gostring) :=
  flat_map (fun e => match e with Git args => [args] | _ => [] end) t.

Definition isPrint (e : event) : bool :=
  match e with Print _ => true | _ => false end.

(** A part of the program that runs no git command at all. *)
Definition gitFree {A} (m : io A) : Prop :=
  forall stdin, gitCalls (fst (m stdin)) = [].

(** A message built from four inputs that passed the tests of the later
    revision, and one built from three that passed those of [main.go]. *)
Definition validated000 (msg : gostring) : Prop :=
  exists t w d body,
    msg = Part000.commitMessage t w d (Join body [LF])
    /\ In t catalogCodes
    /\ Part000.validateWorkItem w = true
    /\ Part000.validateEnglishDescription d = true
    /\ Forall (fun l => TrimSpace l <> []) body.

Definition validatedMain `{UnicodeCase} (msg : gostring) : Prop :=
  exists t w d,
    msg = MainGo.commitMessage t w d
    /\ In t catalogCodes
    /\ MainGo.validateWorkItem w = true
    /\ MainGo.validateEnglishDescription d = true.

(** A retry loop [ask] with test [accept] gets through any number of
    rejected answers: it yields the first accepted one, leaves the lines
    after it unread, and has read once and printed twice (prompt and
    complaint) for each rejected line, and once each for the accepted one. *)
Definition retriesTo {A} (ask : io A) (accept : gostring -> option A) : Prop :=
  forall bad good a rest,
    Forall (fun l => accept (TrimSpace l) = None) bad ->
    accept (TrimSpace good) = Some a ->
    snd (ask (bad ++ good :: rest)) = Value a rest
    /\ length (filter isScan (fst (ask (bad ++ good :: rest)))) = S (length bad)
    /\ length (filter isPrint (fst (ask (bad ++ good :: rest))))
       = (2 * length bad + 1)%nat.

(** A retry loop whose input ends before an answer is accepted never ends:
    the empty answer that end of input gives is rejected as well. *)
Definition hangsAtEnd {A} (ask : io A) (accept : gostring -> option A) : Prop :=
  accept (TrimSpace []) = None
  /\ forall bad,
       Forall (fun l => accept (TrimSpace l) = None) bad ->
       snd (ask bad) = Stop Hung
       /\ length (filter isScan (fst (ask bad))) = length bad.

(** ** The matcher decides the language *)

Lemma nullable_Lang r : nullable r = true <-> Lang r [].
Proof.
  split.
  - induction r; simpl; intros E; try discriminate.
    + constructor.
    + apply andb_true_iff in E as [E1 E2].
      change (@nil ascii) with (@nil ascii ++ []). constructor; auto.
    + apply orb_true_iff in E as [E|E]; [apply LAltL | apply LAltR]; auto.
    + constructor.
  - intros L. remember [] as s eqn:Es.
    induction L; simpl; auto; try discriminate.
    + apply app_eq_nil in Es as [-> ->]. rewrite IHL1, IHL2; auto.
    + rewrite IHL; auto.
    + rewrite IHL; auto using orb_true_r.
Qed.

Lemma Lang_deriv c r : forall s, Lang (deriv c r) s -> Lang r (c :: s).
Proof.
  induction r; simpl; intros s L.
  - inversion L.
  - inversion L.
  - destruct (class_mem cl c) eqn:E; inversion L; subst. now constructor.
  - destruct (nullable r1) eqn:N.
    + inversion L; subst.
      * match goal with H : Lang (Cat _ _) _ |- _ => inversion H; subst end.
        change (c :: s1 ++ s2) with ((c :: s1) ++ s2). constructor; auto.
      * change (c :: s) with ([] ++ c :: s). constructor; auto.
        now apply nullable_Lang.
    + inversion L; subst.
      change (c :: s1 ++ s2) with ((c :: s1) ++ s2). constructor; auto.
  - inversion L; subst; [apply LAltL | apply LAltR]; auto.
  - inversion L; subst.
    change (c :: s1 ++ s2) with ((c :: s1) ++ s2). constructor; auto.
Qed.

Lemma deriv_Lang c r s : Lang r (c :: s) -> Lang (deriv c r) s.
Proof.
  intros L. remember (c :: s) as cs eqn:E. revert s E.
  induction L; intros u E; try discriminate.
  - injection E as -> <-. simpl. rewrite H. constructor.
  - simpl. destruct s1 as [|x s1].
    + simpl in E. subst s2.
      assert (N : nullable r1 = true) by now apply nullable_Lang.
      rewrite N. apply LAltR. auto.
    + injection E as -> <-.
      destruct (nullable r1).
      * apply LAltL. constructor; auto.
      * constructor; auto.
  - simpl. apply LAltL; auto.
  - simpl. apply LAltR; auto.
  - destruct s1 as [|x s1].
    + simpl in E. auto.
    + injection E as -> <-. simpl. constructor; auto.
Qed.

Lemma MatchString_Lang re s : MatchString re s = true <-> Lang re s.
Proof.
  revert re. induction s as [|c s IH]; intros re; simpl.
  - apply nullable_Lang.
  - rewrite IH. split; [apply Lang_deriv | apply deriv_Lang].
Qed.

Lemma Lang_Class_inv cl s :
  Lang (Class cl) s -> exists c, s = [c] /\ class_mem cl c = true.
Proof. intros L. inversion L; subst. eauto. Qed.

Lemma Lang_Cat_inv r1 r2 s :
  Lang (Cat r1 r2) s -> exists s1 s2, s = s1 ++ s2 /\ Lang r1 s1 /\ Lang r2 s2.
Proof. intros L. inversion L; subst. eauto. Qed.

Lemma Lang_Star_Class cl s :
  Lang (Star (Class cl)) s <-> forallb (class_mem cl) s = true.
Proof.
  split.
  - intros L. remember (Star (Class cl)) as r eqn:E.
    induction L; try discriminate; auto.
    injection E as ->. apply Lang_Class_inv in L1 as (c & -> & M).
    simpl. rewrite M. simpl. auto.
  - induction s as [|c s IH]; simpl; intros E.
    + constructor.
    + apply andb_true_iff in E as [E1 E2].
      change (c :: s) with ([c] ++ s). constructor; auto. now constructor.
Qed.

Lemma Lang_Plus_Class cl s :
  Lang (Plus (Class cl)) s <-> s <> [] /\ forallb (class_mem cl) s = true.
Proof.
  unfold Plus. split.
  - intros L. apply Lang_Cat_inv in L as (s1 & s2 & -> & L1 & L2).
    apply Lang_Class_inv in L1 as (c & -> & M).
    apply Lang_Star_Class in L2. simpl. rewrite M, L2.
    split; [discriminate | reflexivity].
  - intros [N E]. destruct s as [|c s]; [congruence|].
    simpl in E. apply andb_true_iff in E as [E1 E2].
    change (c :: s) with ([c] ++ s). constructor.
    + now constructor.
    + now apply Lang_Star_Class.
Qed.

Lemma Lang_Lit l s : Lang (Lit l) s <-> s = l.
Proof.
  revert s. induction l as [|c l IH]; intros s; simpl.
  - split; [intros L; now inversion L | intros ->; constructor].
  - split.
    + intros L. apply Lang_Cat_inv in L as (s1 & s2 & -> & L1 & L2).
      apply Lang_Class_inv in L1 as (x & -> & M).
      apply IH in L2. subst. simpl in M. rewrite orb_false_r in M.
      apply Ascii.eqb_eq in M. now subst.
    + intros ->. change (c :: l) with ([c] ++ l). constructor.
      * constructor. simpl. now rewrite Ascii.eqb_refl.
      * now apply IH.
Qed.

Lemma Lang_Star_parts r s :
  Lang (Star r) s <-> exists parts, s = concat parts /\ Forall (Lang r) parts.
Proof.
  split.
  - intros L. remember (Star r) as r0 eqn:E.
    induction L; try discriminate.
    + exists []. split; [reflexivity | constructor].
    + injection E as ->. destruct (IHL2 eq_refl) as (parts & -> & F).
      exists (s1 :: parts). split; [reflexivity | constructor; auto].
  - intros (parts & -> & F). induction F; simpl; constructor; auto.
Qed.

(** ** Bytes and strings *)

Ltac bytes c := destruct c as [[|] [|] [|] [|] [|] [|] [|] [|]].

Lemma eqs_eq a b : eqs a b = true <-> a = b.
Proof.
  revert b. induction a as [|x a IH]; intros [|y b]; simpl; split;
    try discriminate; try reflexivity.
  - intros E. apply andb_true_iff in E as [E1 E2].
    apply Ascii.eqb_eq in E1. apply IH in E2. now subst.
  - intros E. injection E as -> ->. rewrite Ascii.eqb_refl. now apply IH.
Qed.

Lemma eqs_nil s : eqs s [] = true <-> s = [].
Proof. apply eqs_eq. Qed.

Lemma forallb_map_comp {A B} (f : A -> B) (p : B -> bool) l :
  forallb p (map f l) = forallb (fun x => p (f x)) l.
Proof. induction l; simpl; congruence. Qed.

Lemma forallb_ext_in {A} (p q : A -> bool) l :
  (forall x, In x l -> p x = q x) -> forallb p l = forallb q l.
Proof.
  induction l as [|x l IH]; simpl; intros E; [reflexivity|].
  rewrite E by auto. rewrite IH; auto.
Qed.

Lemma forallb_imp {A} (p q : A -> bool) l :
  (forall x, p x = true -> q x = true) -> forallb p l = true -> forallb q l = true.
Proof.
  intros I. induction l as [|x l IH]; simpl; [reflexivity|].
  intros E. apply andb_true_iff in E as [E1 E2]. rewrite I, IH; auto.
Qed.

Lemma map_id_in {A} (f : A -> A) l : (forall x, In x l -> f x = x) -> map f l = l.
Proof.
  induction l as [|x l IH]; simpl; intros E; [reflexivity|].
  rewrite E by auto. rewrite IH; auto.
Qed.

Lemma class_digit c : class_mem [Range "0" "9"] c = isDigit c.
Proof. unfold class_mem, isDigit. simpl. apply orb_false_r. Qed.

Lemma class_lower_digit c :
  class_mem [Range "a" "z"; Range "0" "9"] c = isLower c || isDigit c.
Proof. unfold class_mem, isLower, isDigit. simpl. now rewrite orb_false_r. Qed.

Lemma class_letters c :
  class_mem [Range "A" "Z"; Range "a" "z"] c = isUpper c || isLower c.
Proof. unfold class_mem, isLower, isUpper. simpl. now rewrite orb_false_r. Qed.

Lemma lowerByte_digit c : isDigit c = true -> lowerByte c = c.
Proof. bytes c; vm_compute; congruence. Qed.

Lemma lowerByte_lower_digit c : isLower c || isDigit c = true -> lowerByte c = c.
Proof. bytes c; vm_compute; congruence. Qed.

Lemma lowerByte_alnum c : isAlnumFold c = true -> isLower (lowerByte c) || isDigit (lowerByte c) = true.
Proof. bytes c; vm_compute; congruence. Qed.

Lemma lowerByte_alnum_inv c :
  isLower (lowerByte c) || isDigit (lowerByte c) = true -> isAlnumFold c = true.
Proof. bytes c; vm_compute; congruence. Qed.

Lemma lowerByte_digit_inv c : isDigit (lowerByte c) = true -> isDigit c = true.
Proof. bytes c; vm_compute; congruence. Qed.

Lemma lowerByte_hyphen_inv c : lowerByte c = "-" -> c = "-".
Proof. bytes c; vm_compute; congruence. Qed.

Lemma lowerByte_idem c : lowerByte (lowerByte c) = lowerByte c.
Proof. bytes c; reflexivity. Qed.

Lemma lowerByte_ascii c : isASCIIbyte (lowerByte c) = isASCIIbyte c.
Proof. bytes c; reflexivity. Qed.

Lemma alnum_ascii c : isAlnumFold c = true -> isASCIIbyte c = true.
Proof. bytes c; vm_compute; congruence. Qed.

Lemma digit_ascii c : isDigit c = true -> isASCIIbyte c = true.
Proof. bytes c; vm_compute; congruence. Qed.

Lemma isASCII_app a b : isASCII (a ++ b) = isASCII a && isASCII b.
Proof. apply forallb_app. Qed.

Lemma isASCII_map_lower s : isASCII (map lowerByte s) = isASCII s.
Proof.
  unfold isASCII. rewrite forallb_map_comp. apply forallb_ext_in.
  intros. apply lowerByte_ascii.
Qed.

Lemma ToLower_ascii `{UnicodeCase} s : isASCII s = true -> ToLower s = map lowerByte s.
Proof. unfold ToLower. now intros ->. Qed.

Lemma ToLower_idem_ascii `{UnicodeCase} s :
  isASCII s = true -> ToLower (ToLower s) = ToLower s.
Proof.
  intros A. rewrite (ToLower_ascii s A).
  rewrite ToLower_ascii by now rewrite isASCII_map_lower.
  rewrite map_map. apply map_ext. intros. apply lowerByte_idem.
Qed.

Lemma equalFold_ascii a b :
  equalFold a b = true -> isASCII b = true -> isASCII a = true.
Proof.
  unfold equalFold. intros E A. apply eqs_eq in E.
  rewrite <- isASCII_map_lower, E, isASCII_map_lower. exact A.
Qed.

Lemma forallb_eq {A} (p q : A -> bool) l :
  (forall x, p x = q x) -> forallb p l = forallb q l.
Proof. intros E. apply forallb_ext_in. auto. Qed.

Lemma forallb_class_digit s : forallb (class_mem [Range "0" "9"]) s = forallb isDigit s.
Proof. apply forallb_eq, class_digit. Qed.

Lemma forallb_class_lower_digit s :
  forallb (class_mem [Range "a" "z"; Range "0" "9"]) s
  = forallb (fun c => isLower c || isDigit c) s.
Proof. apply forallb_eq, class_lower_digit. Qed.

Lemma forallb_class_letters s :
  forallb (class_mem [Range "A" "Z"; Range "a" "z"]) s
  = forallb (fun c => isUpper c || isLower c) s.
Proof. apply forallb_eq, class_letters. Qed.

(** ** The work-item patterns *)

Lemma segments_cons g segs :
  concat (map hyphenated (g :: segs)) = "-" :: g ++ concat (map hyphenated segs).
Proof. reflexivity. Qed.

Lemma Lang_segments cl s :
  Lang (Star (Cat (Lit (str "-")) (Plus (Class cl)))) s
  <-> exists segments,
        s = concat (map hyphenated segments)
        /\ Forall (fun g => g <> [] /\ forallb (class_mem cl) g = true) segments.
Proof.
  rewrite Lang_Star_parts. split.
  - intros (parts & -> & F). induction F as [|p parts L F IH].
    + exists []. split; [reflexivity | constructor].
    + destruct IH as (segs & E & G).
      apply Lang_Cat_inv in L as (s1 & s2 & -> & L1 & L2).
      apply Lang_Lit in L1. apply Lang_Plus_Class in L2. subst s1.
      exists (s2 :: segs). split.
      * simpl. now rewrite E.
      * constructor; auto.
  - intros (segs & -> & F). exists (map hyphenated segs). split; [reflexivity|].
    induction F as [|g segs [N E] F IH]; cbn [map]; constructor; auto.
    unfold hyphenated. constructor.
    + now apply (Lang_Lit (str "-")).
    + now apply Lang_Plus_Class.
Qed.

Lemma Forall_segments_ext (p q : ascii -> bool) segments :
  (forall c, p c = q c) ->
  Forall (fun g : gostring => g <> [] /\ forallb p g = true) segments ->
  Forall (fun g : gostring => g <> [] /\ forallb q g = true) segments.
Proof.
  intros E. apply Forall_impl. intros g [N F]. split; auto.
  now rewrite <- (forallb_eq p q g E).
Qed.

Lemma validateWorkItem000_exact w :
  Part000.validateWorkItem w = true <-> WorkItemExact (str "bcds") w.
Proof.
  unfold Part000.validateWorkItem, Part000.workItemRe, WorkItemExact.
  rewrite MatchString_Lang. split.
  - intros L.
    apply Lang_Cat_inv in L as (s1 & s2 & -> & L1 & L2).
    apply Lang_Cat_inv in L2 as (s3 & s4 & -> & L3 & L4).
    apply Lang_Lit in L1. apply Lang_Plus_Class in L3 as [N D].
    apply Lang_segments in L4 as (segs & -> & F). subst s1.
    exists s3, segs. repeat split; auto.
    + now rewrite <- forallb_class_digit.
    + eapply Forall_segments_ext; [|exact F]. apply class_lower_digit.
  - intros (ds & segs & -> & N & D & F).
    change (str "bcds" ++ str "-" ++ ds ++ concat (map hyphenated segs))
      with (str "bcds-" ++ (ds ++ concat (map hyphenated segs))).
    constructor; [now apply Lang_Lit|]. constructor.
    + apply Lang_Plus_Class. split; auto. now rewrite forallb_class_digit.
    + apply Lang_segments. exists segs. split; auto.
      eapply Forall_segments_ext; [|exact F]. intros. symmetry. apply class_lower_digit.
Qed.

Lemma WorkItemExact_lower prefix w :
  map lowerByte prefix = prefix -> WorkItemExact prefix w -> map lowerByte w = w.
Proof.
  intros P (ds & segs & -> & N & D & F).
  rewrite !map_app, P. f_equal. f_equal. f_equal.
  - apply map_id_in. intros c I. apply lowerByte_digit.
    rewrite forallb_forall in D. auto.
  - induction F as [|g segs [G E] F IH]; [reflexivity|].
    rewrite segments_cons, map_cons, map_app, IH. f_equal. f_equal.
    apply map_id_in. intros c I. apply lowerByte_lower_digit.
    rewrite forallb_forall in E. auto.
Qed.

Lemma WorkItemExact_Fold prefix w :
  map lowerByte prefix = prefix -> WorkItemExact prefix w -> WorkItemFold prefix w.
Proof.
  intros P (ds & segs & -> & N & D & F).
  exists prefix, ds, segs. repeat split; auto.
  - unfold equalFold. now apply eqs_eq.
  - revert F. apply Forall_impl. intros g [G E]. split; auto.
    revert E. apply forallb_imp. unfold isAlnumFold. intros c.
    destruct (isUpper c), (isLower c), (isDigit c); simpl; congruence.
Qed.

Lemma WorkItemFold_ascii prefix s :
  isASCII prefix = true -> WorkItemFold prefix s -> isASCII s = true.
Proof.
  intros A (p & ds & segs & -> & P & N & D & F).
  rewrite !isASCII_app. rewrite (equalFold_ascii _ _ P A).
  assert (Ad : isASCII ds = true).
  { revert D. apply forallb_imp. apply digit_ascii. }
  rewrite Ad. cbn [andb]. change (isASCII (str "-")) with true. cbn [andb].
  induction F as [|g segs [G E] F IH]; [reflexivity|].
  rewrite segments_cons. change ("-" :: g ++ ?x) with (str "-" ++ g ++ x).
  rewrite !isASCII_app, IH, andb_true_r.
  change (isASCII (str "-")) with true. cbn [andb].
  revert E. apply forallb_imp. apply alnum_ascii.
Qed.

Lemma map_lower_segments segs :
  map lowerByte (concat (map hyphenated segs))
  = concat (map hyphenated (map (map lowerByte) segs)).
Proof.
  induction segs as [|g segs IH]; [reflexivity|].
  change (map (map lowerByte) (g :: segs))
    with (map lowerByte g :: map (map lowerByte) segs).
  rewrite !segments_cons, map_cons, map_app, IH. reflexivity.
Qed.

Lemma WorkItemFold_lower prefix s :
  map lowerByte prefix = prefix ->
  WorkItemFold prefix s -> WorkItemExact prefix (map lowerByte s).
Proof.
  intros P (p & ds & segs & -> & E & N & D & F).
  exists ds, (map (map lowerByte) segs).
  unfold equalFold in E. apply eqs_eq in E. rewrite P in E.
  rewrite !map_app, E, map_lower_segments. repeat split; auto.
  - f_equal. f_equal. f_equal.
    apply map_id_in. intros c I. apply lowerByte_digit.
    rewrite forallb_forall in D. auto.
  - apply Forall_map. revert F. apply Forall_impl. intros g [G A]. split.
    + destruct g; [congruence | discriminate].
    + rewrite forallb_map_comp. revert A. apply forallb_imp.
      intros c. apply lowerByte_alnum.
Qed.

Lemma segments_unfold rest segs :
  map lowerByte rest = concat (map hyphenated segs) ->
  Forall (fun g => g <> [] /\ forallb (fun c => isLower c || isDigit c) g = true) segs ->
  exists segs',
    rest = concat (map hyphenated segs')
    /\ Forall (fun g => g <> [] /\ forallb isAlnumFold g = true) segs'.
Proof.
  intros E F. revert rest E. induction F as [|g segs [G A] F IH]; intros rest E.
  - cbn in E. apply map_eq_nil in E. subst. exists []. split; [reflexivity | constructor].
  - rewrite segments_cons in E. destruct rest as [|h rest]; [discriminate|].
    cbn [map] in E. injection E as Eh E.
    apply map_eq_app in E as (g' & rest' & -> & Eg & Er).
    destruct (IH _ Er) as (segs' & -> & F').
    apply lowerByte_hyphen_inv in Eh. subst h.
    exists (g' :: segs'). split; [reflexivity|]. constructor; auto. split.
    + intros ->. cbn in Eg. congruence.
    + subst g. rewrite forallb_map_comp in A. revert A. apply forallb_imp.
      intros c. apply lowerByte_alnum_inv.
Qed.

Lemma WorkItemFold_unlower prefix s :
  WorkItemExact prefix (map lowerByte s) -> WorkItemFold prefix s.
Proof.
  intros (ds & segs & E & N & D & F).
  apply map_eq_app in E as (p & r1 & -> & Ep & E).
  apply map_eq_app in E as (h & r2 & -> & Eh & E).
  apply map_eq_app in E as (ds' & r3 & -> & Ed & E).
  destruct (segments_unfold _ _ E F) as (segs' & -> & F').
  destruct h as [|h [|? ?]]; try discriminate.
  injection Eh as Eh. apply lowerByte_hyphen_inv in Eh. subst h.
  exists p, ds', segs'. repeat split; auto.
  - unfold equalFold. apply eqs_eq. rewrite Ep.
    rewrite <- Ep. rewrite map_map. apply map_ext.
    intros. symmetry. apply lowerByte_idem.
  - intros ->. cbn in Ed. congruence.
  - subst ds. rewrite forallb_map_comp in D. revert D. apply forallb_imp.
    intros c. apply lowerByte_digit_inv.
Qed.

Lemma validateWorkItemMain_loose w :
  MainGo.validateWorkItem w = true <-> WorkItemLoose w.
Proof.
  unfold MainGo.validateWorkItem, MainGo.workItemRe, WorkItemLoose, Opt.
  rewrite MatchString_Lang. split.
  - intros L. apply Lang_Cat_inv in L as (s1 & s2 & -> & L1 & L2).
    apply Lang_Plus_Class in L2 as [N D].
    assert (D' : forallb isDigit s2 = true).
    { now rewrite <- forallb_class_digit. }
    inversion L1; subst.
    + match goal with L : Lang (Cat _ _) _ |- _ =>
        apply Lang_Cat_inv in L as (a & b & -> & La & Lb) end.
      apply Lang_Plus_Class in La as [Na Fa]. apply (Lang_Lit (str "-")) in Lb. subst b.
      exists a, s2. repeat split; auto.
      * right. split; auto. now rewrite <- app_assoc.
      * now rewrite <- forallb_class_letters.
    + match goal with L : Lang Eps _ |- _ => inversion L; subst end.
      exists [], s2. repeat split; auto.
  - intros (ls & ds & S & Fl & N & D).
    assert (Ld : Lang (Plus (Class [Range "0" "9"])) ds).
    { apply Lang_Plus_Class. split; auto. now rewrite forallb_class_digit. }
    destruct S as [-> | [-> Nl]].
    + change ds with ([] ++ ds). constructor; auto. apply LAltR. constructor.
    + rewrite app_assoc. constructor; auto. apply LAltL. constructor.
      * apply Lang_Plus_Class. split; auto. now rewrite forallb_class_letters.
      * now apply (Lang_Lit (str "-")).
Qed.

(** ** The description validators *)

Lemma descClassMain_mem c : class_mem MainGo.descClass c = allowedChar c.
Proof. bytes c; reflexivity. Qed.

Lemma descClass000_mem c :
  class_mem Part000.descClass c
  = (allowedChar c && negb (c =? "(") && negb (c =? ")")) || (c =? "$") || (c =? ":").
Proof. bytes c; reflexivity. Qed.

Lemma allowedChar_ascii c : allowedChar c = true -> isASCIIbyte c = true.
Proof. bytes c; vm_compute; congruence. Qed.

Lemma upperByte_fixed c : isASCIIbyte c = true -> (upperByte c =? c) = negb (isLower c).
Proof. bytes c; vm_compute; congruence. Qed.

Lemma descriptionRule_spec d :
  descriptionRule d = true
  <-> (1 <= length d <= 72)%nat /\ forallb allowedChar d = true.
Proof.
  unfold descriptionRule. rewrite !andb_true_iff, !Nat.leb_le. tauto.
Qed.

(** What the later revision's validator accepts, exactly. *)
Lemma validateEnglishDescription000_spec d :
  Part000.validateEnglishDescription d = true
  <-> (1 <= length d <= 72)%nat /\ forallb (class_mem Part000.descClass) d = true.
Proof.
  unfold Part000.validateEnglishDescription, Part000.descRe.
  destruct (length d =? 0)%nat eqn:E0; cbn [orb].
  - apply Nat.eqb_eq in E0. split; [discriminate | lia].
  - destruct (72 <? length d)%nat eqn:E1.
    + apply Nat.ltb_lt in E1. split; [discriminate | lia].
    + rewrite MatchString_Lang, Lang_Plus_Class.
      apply Nat.eqb_neq in E0. apply Nat.ltb_ge in E1.
      split; intros [A B]; split; auto; try lia.
      intros ->. now apply E0.
Qed.

(** Away from the four characters on which the two classes differ, the
    later revision's validator is the rule of the specification. *)
Lemma validateEnglishDescription000_rule d :
  forallb (fun c => negb ((c =? "(") || (c =? ")") || (c =? "$") || (c =? ":"))) d = true ->
  Part000.validateEnglishDescription d = descriptionRule d.
Proof.
  intros F. apply eq_true_iff_eq.
  rewrite validateEnglishDescription000_spec, descriptionRule_spec.
  replace (forallb (class_mem Part000.descClass) d) with (forallb allowedChar d);
    [tauto|].
  apply forallb_ext_in. intros c I. rewrite forallb_forall in F.
  specialize (F c I). rewrite descClass000_mem.
  destruct (c =? "("), (c =? ")"), (c =? "$"), (c =? ":"); try discriminate.
  cbn. now rewrite !andb_true_r, !orb_false_r.
Qed.

(** What the validator of [main.go] accepts, exactly: the rule of the
    specification and a first character that is no lower-case letter. *)
Lemma validateEnglishDescriptionMain_spec `{UnicodeCase} d :
  MainGo.validateEnglishDescription d = true
  <-> descriptionRule d = true
      /\ (forall c t, d = c :: t -> isLower c = false).
Proof.
  rewrite descriptionRule_spec. unfold MainGo.validateEnglishDescription, MainGo.descRe.
  destruct d as [|c t].
  - cbn. split; [discriminate | intros [[A _] _]; cbn in A; lia].
  - cbn [length Nat.eqb firstn].
    destruct (72 <? S (length t))%nat eqn:E1.
    + apply Nat.ltb_lt in E1. split; [discriminate | intros [[A _] _]; lia].
    + apply Nat.ltb_ge in E1. cbn [Nat.ltb Nat.leb andb].
      replace (forallb allowedChar (c :: t))
        with (forallb (class_mem MainGo.descClass) (c :: t))
        by (apply forallb_eq, descClassMain_mem).
      destruct (isASCIIbyte c) eqn:A.
      * unfold ToUpper. cbn [isASCII forallb]. rewrite A. cbn [andb map HasPrefix].
        rewrite andb_true_r, (upperByte_fixed c A), negb_involutive.
        destruct (isLower c) eqn:L.
        -- split; [discriminate|]. intros [_ C]. specialize (C c t eq_refl). congruence.
        -- rewrite MatchString_Lang, Lang_Plus_Class.
           split.
           ++ intros [_ F]. repeat split; auto; try lia.
              intros c' t' E. injection E as <- <-. exact L.
           ++ intros [[_ F] _]. split; [discriminate | exact F].
      * assert (N : forallb (class_mem MainGo.descClass) (c :: t) = false).
        { cbn [forallb]. rewrite descClassMain_mem.
          destruct (allowedChar c) eqn:M; [|reflexivity].
          apply allowedChar_ascii in M. congruence. }
        rewrite N.
        destruct (negb (HasPrefix (ToUpper [c]) [c])).
        -- split; [discriminate | intros [[_ F] _]; discriminate].
        -- rewrite MatchString_Lang, Lang_Plus_Class, N.
           split; [intros [_ F]; discriminate | intros [[_ F] _]; discriminate].
Qed.

(** ** The work-item validators (claim C3) *)

Lemma bcds_lower : map lowerByte (str "bcds") = str "bcds".
Proof. reflexivity. Qed.

(** C3, as amended.  In the later revision, whose prefix is [bcds]: the
    lowered form of every string of the shape [bcds-<digits>(-<segment>)*],
    letters in either case, is accepted, and every string that has not this
    shape is rejected, as it stands and (for ASCII input) lowered.  In
    [main.go] the validator accepts exactly the digit strings and the digit
    strings that follow letters and a hyphen; nothing is lowered there. *)
Theorem work_item_validators `{UnicodeCase} :
  (forall s, WorkItemFold (str "bcds") s ->
             Part000.validateWorkItem (ToLower s) = true
             /\ Part000.acceptWorkItem s = Some (map lowerByte s))
  /\ (forall s, ~ WorkItemFold (str "bcds") s -> Part000.validateWorkItem s = false)
  /\ (forall s, isASCII s = true -> ~ WorkItemFold (str "bcds") s ->
                Part000.acceptWorkItem s = None)
  /\ (forall w, MainGo.validateWorkItem w = true <-> WorkItemLoose w)
  /\ (forall w, MainGo.acceptWorkItem w
                = if MainGo.validateWorkItem w then Some w else None).
Proof.
  split; [|split; [|split; [|split]]].
  - intros s W.
    assert (A : isASCII s = true)
      by (apply (WorkItemFold_ascii (str "bcds")); [reflexivity | exact W]).
    unfold Part000.acceptWorkItem. rewrite (ToLower_ascii s A).
    assert (V : Part000.validateWorkItem (map lowerByte s) = true).
    { apply validateWorkItem000_exact. apply WorkItemFold_lower; auto. }
    now rewrite V.
  - intros s N. destruct (Part000.validateWorkItem s) eqn:V; [|reflexivity].
    exfalso. apply N. apply WorkItemExact_Fold; [reflexivity|].
    now apply validateWorkItem000_exact.
  - intros s A N. unfold Part000.acceptWorkItem. rewrite (ToLower_ascii s A).
    destruct (Part000.validateWorkItem (map lowerByte s)) eqn:V; [|reflexivity].
    exfalso. apply N. apply WorkItemFold_unlower.
    now apply validateWorkItem000_exact.
  - apply validateWorkItemMain_loose.
  - reflexivity.
Qed.

Lemma work_item_validators_witness :
  WorkItemFold (str "bcds") (str "BCDS-12-Ab")
  /\ Part000.validateWorkItem (@ToLower asciiOnly (str "BCDS-12-Ab")) = true
  /\ @Part000.acceptWorkItem asciiOnly (str "BCDS-12-Ab") = Some (str "bcds-12-ab").
Proof.
  assert (W : WorkItemFold (str "bcds") (str "BCDS-12-Ab")).
  { exists (str "BCDS"), (str "12"), [str "Ab"]. repeat split.
    - discriminate.
    - repeat constructor. discriminate. }
  split; [exact W|].
  exact (proj1 (@work_item_validators asciiOnly) (str "BCDS-12-Ab") W).
Defined.

(** C3 as stated fails on [main.go]: a bare number is accepted, and no
    prefix makes it match [prefix-<digits>...]. *)
Lemma work_item_main_go_counterexample :
  MainGo.validateWorkItem (str "1234") = true
  /\ (forall prefix, ~ WorkItemFold prefix (str "1234"))
  /\ WorkItemFold (str "proj") (str "proj-42-ab")
  /\ MainGo.validateWorkItem (str "proj-42-ab") = false.
Proof.
  split; [reflexivity|]. split; [|split; [|reflexivity]].
  - intros prefix (p & ds & segs & E & _).
    assert (I : In "-" (str "1234")).
    { rewrite E. apply in_or_app. right. now left. }
    cbn in I. intuition discriminate.
  - exists (str "proj"), (str "42"), [str "ab"]. repeat split.
    + discriminate.
    + repeat constructor. discriminate.
Qed.

(** ** The description validators (claims C2 and C9) *)

(** C2 at the inputs where the later revision departs from it.  A
    description with parentheses obeys the rule of the specification and is
    rejected; one with a dollar sign or a colon breaks the rule and is
    accepted.  [main.go] has the parentheses in its class and accepts the
    first. *)
Theorem description_class_mangled :
  descriptionRule (str "Fix (bug)") = true
  /\ Part000.validateEnglishDescription (str "Fix (bug)") = false
  /\ (forall U : UnicodeCase,
        @MainGo.validateEnglishDescription U (str "Fix (bug)") = true)
  /\ descriptionRule (str "Fix $HOME: now") = false
  /\ Part000.validateEnglishDescription (str "Fix $HOME: now") = true.
Proof. repeat split. Qed.

(** C9, as amended.  [main.go] accepts a description exactly when it obeys
    the rule of the specification and its first character is not a
    lower-case letter; so "hello world!" is rejected there, and accepted by
    the later revision, where the test is commented out. *)
Theorem initial_capital_rule `{UnicodeCase} :
  (forall d, MainGo.validateEnglishDescription d = true
             <-> descriptionRule d = true
                 /\ (forall c t, d = c :: t -> isLower c = false))
  /\ MainGo.validateEnglishDescription (str "hello world!") = false
  /\ Part000.validateEnglishDescription (str "hello world!") = true.
Proof.
  split; [|split; reflexivity].
  intros d. apply validateEnglishDescriptionMain_spec.
Qed.

Lemma initial_capital_rule_witness :
  @MainGo.validateEnglishDescription asciiOnly (str "Add login flow") = true
  /\ @MainGo.validateEnglishDescription asciiOnly (str "2 endpoints added") = true.
Proof.
  split; apply (proj1 (@initial_capital_rule asciiOnly)).
  - split; [reflexivity|]. intros c t E. injection E as <- _. reflexivity.
  - split; [reflexivity|]. intros c t E. injection E as <- _. reflexivity.
Defined.

(** C9 as stated fails: [main.go] accepts a description that starts with a
    digit, which is no uppercase letter. *)
Lemma initial_capital_counterexample :
  (forall U : UnicodeCase,
     @MainGo.validateEnglishDescription U (str "2 endpoints added") = true)
  /\ startsUpper (str "2 endpoints added") = false.
Proof. split; reflexivity. Qed.

(** ** White space around an answer *)

Lemma space2_first c1 c2 : space2 c1 c2 = true -> c1 = "194".
Proof.
  unfold space2. intros E. apply andb_true_iff in E as [E _].
  now apply Ascii.eqb_eq.
Qed.

Lemma space2_second c1 c2 : space2 c1 c2 = true -> c2 = "133" \/ c2 = "160".
Proof.
  unfold space2. intros E. apply andb_true_iff in E as [_ E].
  apply orb_true_iff in E as [E|E]; apply Ascii.eqb_eq in E; auto.
Qed.

Lemma space3_first c1 c2 c3 :
  space3 c1 c2 c3 = true -> c1 = "225" \/ c1 = "226" \/ c1 = "227".
Proof.
  unfold space3. intros E.
  repeat (apply orb_true_iff in E as [E|E]);
    repeat (apply andb_true_iff in E as [E ?]);
    apply Ascii.eqb_eq in E; auto.
Qed.

Lemma space3_second c1 c2 c3 :
  space3 c1 c2 c3 = true -> c2 = "154" \/ c2 = "128" \/ c2 = "129".
Proof.
  unfold space3. intros E.
  repeat (apply orb_true_iff in E as [E|E]);
    repeat (apply andb_true_iff in E as [E ?]);
    match goal with H : (c2 =? _) = true |- _ => apply Ascii.eqb_eq in H end; auto.
Qed.

Lemma space3_third c1 c2 c3 :
  space3 c1 c2 c3 = true -> (128 <= byteN c3 <= 191)%N.
Proof.
  unfold space3. intros E.
  assert (T : ((128 <=? byteN c3) && (byteN c3 <=? 138))%N = true
              \/ c3 = "168" \/ c3 = "169" \/ c3 = "175" \/ c3 = "159" \/ c3 = "128").
  { repeat (apply orb_true_iff in E as [E|E]);
      repeat (apply andb_true_iff in E as [E ?]);
      repeat match goal with H : (_ =? _) = true |- _ => apply Ascii.eqb_eq in H end;
      auto 10.
    repeat match goal with H : _ || _ = true |- _ => apply orb_true_iff in H as [H|H] end;
      repeat match goal with H : (_ =? _) = true |- _ => apply Ascii.eqb_eq in H end;
      auto 10. }
  clear E. destruct T as [T|T].
  - apply andb_true_iff in T as [T1 T2]. apply N.leb_le in T1, T2. lia.
  - destruct T as [->|[->|[->|[->| ->]]]]; vm_compute; split; discriminate.
Qed.

Lemma continuation_not_lead a : (128 <= byteN a <= 191)%N -> spaceLead a = false.
Proof. bytes a; vm_compute; intros [A B]; try reflexivity; exfalso; auto. Qed.

Lemma spaceLead_asciiSpace a : asciiSpace a = true -> spaceLead a = true.
Proof. unfold spaceLead. now intros ->. Qed.

Lemma lead_not_middle a c1 c3 : spaceLead a = true -> space3 c1 a c3 = false.
Proof.
  intros L. destruct (space3 c1 a c3) eqn:E; [|reflexivity].
  apply space3_second in E as [->|[->| ->]]; discriminate.
Qed.

Lemma lead_not_third a c1 c2 : spaceLead a = true -> space3 c1 c2 a = false.
Proof.
  intros L. destruct (space3 c1 c2 a) eqn:E; [|reflexivity].
  apply space3_third, continuation_not_lead in E. congruence.
Qed.

Lemma lead_not_space2 a c1 : spaceLead a = true -> space2 c1 a = false.
Proof.
  intros L. destruct (space2 c1 a) eqn:E; [|reflexivity].
  apply space2_second in E as [->| ->]; discriminate.
Qed.

Lemma Blank_lead a r : Blank (a :: r) -> spaceLead a = true.
Proof.
  intros B. inversion B as [|c s E|c1 c2 s E|c1 c2 c3 s E]; subst.
  - now apply spaceLead_asciiSpace.
  - apply space2_first in E. now subst.
  - apply space3_first in E as [->|[->| ->]]; reflexivity.
Qed.

Lemma Blank_app a b : Blank a -> Blank b -> Blank (a ++ b).
Proof.
  intros A B. induction A; cbn [app]; auto.
  - apply Blank1; auto.
  - apply Blank2; auto.
  - apply Blank3; auto.
Qed.

Lemma trimLeft_space1 c s : asciiSpace c = true -> trimLeft (c :: s) = trimLeft s.
Proof. intros E. cbn [trimLeft]. now rewrite E. Qed.

Lemma trimLeft_space2 c1 c2 s :
  space2 c1 c2 = true -> trimLeft (c1 :: c2 :: s) = trimLeft s.
Proof.
  intros E. cbn [trimLeft]. rewrite E.
  apply space2_first in E. now subst.
Qed.

Lemma trimLeft_space3 c1 c2 c3 s :
  space3 c1 c2 c3 = true -> trimLeft (c1 :: c2 :: c3 :: s) = trimLeft s.
Proof.
  intros E. cbn [trimLeft]. rewrite E.
  assert (A : asciiSpace c1 = false)
    by (apply space3_first in E as [->|[->| ->]]; reflexivity).
  assert (B : space2 c1 c2 = false).
  { destruct (space2 c1 c2) eqn:F; [|reflexivity].
    apply space2_first in F. apply space3_first in E. subst.
    intuition discriminate. }
  now rewrite A, B.
Qed.

Lemma trimLeft_Blank_app l s : Blank l -> trimLeft (l ++ s) = trimLeft s.
Proof.
  induction 1; cbn [app]; auto.
  - now rewrite trimLeft_space1.
  - now rewrite trimLeft_space2.
  - now rewrite trimLeft_space3.
Qed.

Lemma trimLeft_Blank l : Blank l -> trimLeft l = [].
Proof. intros B. rewrite <- (app_nil_r l). now rewrite trimLeft_Blank_app. Qed.

Lemma trimLeftRev_space1 c s : asciiSpace c = true -> trimLeftRev (c :: s) = trimLeftRev s.
Proof. intros E. cbn [trimLeftRev]. now rewrite E. Qed.

Lemma trimLeftRev_space2 c1 c2 s :
  space2 c1 c2 = true -> trimLeftRev (c2 :: c1 :: s) = trimLeftRev s.
Proof.
  intros E. cbn [trimLeftRev]. rewrite E.
  apply space2_second in E as [->| ->]; reflexivity.
Qed.

Lemma trimLeftRev_space3 c1 c2 c3 s :
  space3 c1 c2 c3 = true -> trimLeftRev (c3 :: c2 :: c1 :: s) = trimLeftRev s.
Proof.
  intros E. cbn [trimLeftRev]. rewrite E.
  assert (A : asciiSpace c3 = false).
  { destruct (asciiSpace c3) eqn:A; [|reflexivity].
    apply spaceLead_asciiSpace in A.
    apply space3_third, continuation_not_lead in E. congruence. }
  assert (B : space2 c2 c3 = false).
  { destruct (space2 c2 c3) eqn:F; [|reflexivity].
    apply space2_first in F. apply space3_second in E. subst.
    intuition discriminate. }
  now rewrite A, B.
Qed.

Lemma trimLeftRev_Blank_app r s : Blank r -> trimLeftRev (rev r ++ s) = trimLeftRev s.
Proof.
  intros B. revert s. induction B; intros u; cbn [rev app]; auto.
  - rewrite <- app_assoc, IHB. cbn [app]. now apply trimLeftRev_space1.
  - rewrite <- !app_assoc, IHB. cbn [app]. now apply trimLeftRev_space2.
  - rewrite <- !app_assoc, IHB. cbn [app]. now apply trimLeftRev_space3.
Qed.

Lemma trimRight_Blank_app s r : Blank r -> trimRight (s ++ r) = trimRight s.
Proof.
  intros B. unfold trimRight. now rewrite rev_app_distr, trimLeftRev_Blank_app.
Qed.

Lemma trimLeft_keeps c1 t r :
  Blank r -> asciiSpace c1 = false ->
  (forall c2 t2, t = c2 :: t2 -> space2 c1 c2 = false) ->
  (forall c2 c3 t3, t = c2 :: c3 :: t3 -> space3 c1 c2 c3 = false) ->
  trimLeft ((c1 :: t) ++ r) = (c1 :: t) ++ r.
Proof.
  intros B A S2 S3. cbn [app trimLeft]. rewrite A.
  destruct t as [|c2 [|c3 t3]]; cbn [app].
  - destruct r as [|a r]; [reflexivity|].
    pose proof (Blank_lead _ _ B) as L.
    rewrite (lead_not_space2 a c1 L).
    destruct r as [|b r]; [reflexivity|].
    now rewrite (lead_not_middle a c1 b L).
  - rewrite (S2 _ _ eq_refl).
    destruct r as [|a r]; [reflexivity|].
    pose proof (Blank_lead _ _ B) as L.
    now rewrite (lead_not_third a c1 c2 L).
  - now rewrite (S2 _ _ eq_refl), (S3 _ _ _ eq_refl).
Qed.

Lemma trimLeft_app_Blank r : Blank r ->
  forall n s, (length s <= n)%nat ->
  trimLeft (s ++ r) = match trimLeft s with [] => [] | _ :: _ => trimLeft s ++ r end.
Proof.
  intros B. induction n as [|n IH]; intros s Ls.
  - destruct s; [|cbn in Ls; lia]. cbn [app trimLeft]. now apply trimLeft_Blank.
  - destruct s as [|c1 t1]; [cbn [app trimLeft]; now apply trimLeft_Blank|].
    cbn [length] in Ls.
    destruct (asciiSpace c1) eqn:A.
    { cbn [app]. rewrite !trimLeft_space1 by assumption. apply IH. lia. }
    destruct t1 as [|c2 t2].
    { rewrite (trimLeft_keeps c1 [] r B A); try discriminate.
      cbn [trimLeft]. now rewrite A. }
    destruct (space2 c1 c2) eqn:S2.
    { cbn [app]. rewrite !trimLeft_space2 by assumption. apply IH. cbn in Ls. lia. }
    destruct t2 as [|c3 t3].
    { rewrite (trimLeft_keeps c1 [c2] r B A).
      - cbn [trimLeft]. now rewrite A, S2.
      - intros ? ? E. injection E as <- _. exact S2.
      - discriminate. }
    destruct (space3 c1 c2 c3) eqn:S3.
    { cbn [app]. rewrite !trimLeft_space3 by assumption. apply IH. cbn in Ls. lia. }
    rewrite (trimLeft_keeps c1 (c2 :: c3 :: t3) r B A).
    + cbn [trimLeft]. now rewrite A, S2, S3.
    + intros ? ? E. injection E as <- _. exact S2.
    + intros ? ? ? E. injection E as <- <- _. exact S3.
Qed.

(** White space before and after an answer does not change what
    [TrimSpace] returns. *)
Lemma TrimSpace_padded l s r :
  Blank l -> Blank r -> TrimSpace (l ++ s ++ r) = TrimSpace s.
Proof.
  intros Bl Br. unfold TrimSpace.
  rewrite (trimLeft_Blank_app l _ Bl).
  rewrite (trimLeft_app_Blank r Br (length s) s (le_n _)).
  destruct (trimLeft s) eqn:E; [reflexivity|].
  now apply trimRight_Blank_app.
Qed.

Lemma TrimSpace_Blank l : Blank l -> TrimSpace l = [].
Proof. intros B. unfold TrimSpace. now rewrite trimLeft_Blank. Qed.

(** ** Runs: sequencing and the retry loop *)

Lemma bind_run {A B} (m : io A) (k : A -> io B) stdin :
  bind m k stdin
  = match m stdin with
    | (t, Value a rest) => (t ++ fst (k a rest), snd (k a rest))
    | (t, Stop st) => (t, Stop st)
    end.
Proof.
  unfold bind. destruct (m stdin) as [t [a rest|st]]; [|reflexivity].
  now destruct (k a rest).
Qed.

Lemma readLine_run prompt stdin :
  readLine prompt stdin
  = ([Print prompt; Scan], Value (TrimSpace (hd [] stdin)) (tl stdin)).
Proof. destruct stdin; reflexivity. Qed.

(** One turn of the loop is the body of the [for] of the source. *)
Lemma untilValid_turn {A} prompt (accept : gostring -> option A) complaint line rest :
  untilValid prompt accept complaint (line :: rest)
  = (x <- readLine prompt ;;
     match accept x with
     | Some a => ret a
     | None => emit complaint ;; untilValid prompt accept complaint
     end) (line :: rest).
Proof.
  cbn [untilValid]. unfold bind at 1. rewrite readLine_run. cbn [hd tl].
  destruct (accept (TrimSpace line)) as [a|]; [reflexivity|].
  unfold bind, emit. now destruct (untilValid prompt accept complaint rest).
Qed.

Lemma untilValid_accept {A} prompt (accept : gostring -> option A) complaint line rest a :
  accept (TrimSpace line) = Some a ->
  untilValid prompt accept complaint (line :: rest) = ([Print prompt; Scan], Value a rest).
Proof. intros E. cbn [untilValid]. now rewrite E. Qed.

Lemma untilValid_reject {A} prompt (accept : gostring -> option A) complaint line rest :
  accept (TrimSpace line) = None ->
  untilValid prompt accept complaint (line :: rest)
  = (Print prompt :: Scan :: Print complaint
       :: fst (untilValid prompt accept complaint rest),
     snd (untilValid prompt accept complaint rest)).
Proof.
  intros E. cbn [untilValid]. rewrite E.
  now destruct (untilValid prompt accept complaint rest).
Qed.

Lemma untilValid_retries {A} prompt (accept : gostring -> option A) complaint
    bad good a rest :
  Forall (fun l => accept (TrimSpace l) = None) bad ->
  accept (TrimSpace good) = Some a ->
  untilValid prompt accept complaint (bad ++ good :: rest)
  = (concat (map (fun _ => [Print prompt; Scan; Print complaint]) bad)
       ++ [Print prompt; Scan],
     Value a rest).
Proof.
  intros F G. induction F as [|l bad N F IH]; cbn [app map concat].
  - now apply untilValid_accept.
  - rewrite untilValid_reject by exact N. rewrite IH. reflexivity.
Qed.

Lemma untilValid_padded {A} prompt (accept : gostring -> option A) complaint l s r rest :
  Blank l -> Blank r ->
  untilValid prompt accept complaint ((l ++ s ++ r) :: rest)
  = untilValid prompt accept complaint (s :: rest).
Proof. intros Bl Br. cbn [untilValid]. now rewrite TrimSpace_padded. Qed.

(** A value that leaves the loop is the accepted form of a trimmed line (of
    the empty answer at the end of the input). *)
Lemma untilValid_value {A} prompt (accept : gostring -> option A) complaint stdin t a rest :
  untilValid prompt accept complaint stdin = (t, Value a rest) ->
  exists line, accept (TrimSpace line) = Some a.
Proof.
  revert t. induction stdin as [|line more IH]; intros t; cbn [untilValid].
  - destruct (accept (TrimSpace [])) eqn:E; [|discriminate].
    intros X. injection X as _ <- _. eauto.
  - destruct (accept (TrimSpace line)) eqn:E.
    + intros X. injection X as _ <- _. eauto.
    + destruct (untilValid prompt accept complaint more) as [t' r'] eqn:U.
      intros X. injection X as _ ->. eapply IH. reflexivity.
Qed.

Lemma untilValid_quiet {A} prompt (accept : gostring -> option A) complaint stdin :
  existsb isCommit (fst (untilValid prompt accept complaint stdin)) = false.
Proof.
  induction stdin as [|line more IH]; cbn [untilValid].
  - now destruct (accept (TrimSpace [])).
  - destruct (accept (TrimSpace line)); [reflexivity|].
    destruct (untilValid prompt accept complaint more). exact IH.
Qed.

Lemma emit_bind {B} text (k : unit -> io B) stdin :
  bind (emit text) k stdin = (Print text :: fst (k tt stdin), snd (k tt stdin)).
Proof. unfold bind, emit. now destruct (k tt stdin). Qed.

Lemma readLine_bind {B} prompt (k : gostring -> io B) stdin :
  bind (readLine prompt) k stdin
  = (Print prompt :: Scan :: fst (k (TrimSpace (hd [] stdin)) (tl stdin)),
     snd (k (TrimSpace (hd [] stdin)) (tl stdin))).
Proof. rewrite bind_run, readLine_run. reflexivity. Qed.

Lemma git_bind {B} git args (k : gostring * bool -> io B) stdin :
  bind (runGitCommand git args) k stdin
  = (Git args :: fst (k (git args) stdin), snd (k (git args) stdin)).
Proof. unfold bind, runGitCommand. now destruct (k (git args) stdin). Qed.

Lemma quiet_bind {A B} (m : io A) (k : A -> io B) :
  quiet m -> (forall a, quiet (k a)) -> quiet (bind m k).
Proof.
  intros Qm Qk stdin. rewrite bind_run. specialize (Qm stdin).
  destruct (m stdin) as [t [a rest|st]]; cbn [fst] in *; auto.
  rewrite existsb_app, Qm. apply Qk.
Qed.

Lemma quiet_emit text : quiet (emit text).
Proof. intros stdin. reflexivity. Qed.

Lemma quiet_ret {A} (a : A) : quiet (ret a).
Proof. intros stdin. reflexivity. Qed.

Lemma quiet_untilValid {A} prompt (accept : gostring -> option A) complaint :
  quiet (untilValid prompt accept complaint).
Proof. intros stdin. apply untilValid_quiet. Qed.

Lemma collectLines_quiet stdin :
  existsb isCommit (fst (fst (Part000.collectLines stdin))) = false.
Proof.
  induction stdin as [|line rest IH]; cbn [Part000.collectLines]; [reflexivity|].
  destruct (eqs (TrimSpace line) []); [reflexivity|].
  destruct (Part000.collectLines rest) as [[t ls] r]. exact IH.
Qed.

Lemma quiet_readMultiline prompt : quiet (Part000.readMultiline prompt).
Proof.
  intros stdin. unfold Part000.readMultiline.
  pose proof (collectLines_quiet stdin) as Q.
  destruct (Part000.collectLines stdin) as [[t ls] r]. exact Q.
Qed.

Lemma printMenu000_quiet i cts : existsb isCommit (Part000.printMenu i cts) = false.
Proof. revert i. induction cts as [|ct cts IH]; intros i; cbn; auto. Qed.

Lemma printMenuMain_quiet it : existsb isCommit (MainGo.printMenu it) = false.
Proof. induction it as [|[i ct] it IH]; cbn; auto. Qed.

Lemma gather000_quiet `{UnicodeCase} : quiet Part000.gather.
Proof.
  unfold Part000.gather, Part000.askWorkItem, Part000.askCommitType,
    Part000.askDescription, Println.
  repeat first
    [ apply quiet_untilValid | apply quiet_emit | apply quiet_ret
    | apply quiet_readMultiline
    | apply quiet_bind; [|intros ?] ].
  intros stdin. apply printMenu000_quiet.
Qed.

Lemma gatherMain_quiet `{UnicodeCase} iteration : quiet (MainGo.gather iteration).
Proof.
  unfold MainGo.gather, MainGo.askWorkItem, MainGo.askCommitType,
    MainGo.askDescription, Println.
  repeat first
    [ apply quiet_untilValid | apply quiet_emit | apply quiet_ret
    | apply quiet_bind; [|intros ?] ].
  intros stdin. apply printMenuMain_quiet.
Qed.

(** ** No staged changes (claim C5) *)

(** C5.  When [git diff --cached --quiet] succeeds, that is when nothing is
    staged, the run is: the query, the error message, exit status 1.  No
    line is requested from the operator and nothing else is printed, for
    every input and in both versions. *)
Theorem no_staged_changes `{UnicodeCase} (git : gitworld)
    (iteration : list (Z * MainGo.CommitType)) (stdin : list gostring) :
  snd (git diffArgs) = false ->
  Part000.main git stdin
  = ([Git diffArgs;
      Print (Part000.ColorRed
             ++ str "错误：没有暂存的更改，请先使用 'git add' 添加文件。"
             ++ Part000.ColorReset ++ [LF])],
     Stop (Exited 1))
  /\ MainGo.main git iteration stdin
     = ([Git diffArgs;
         Print (str "错误：没有暂存的更改，请先使用 'git add' 添加文件。" ++ [LF])],
        Stop (Exited 1))
  /\ existsb isScan (fst (Part000.main git stdin)) = false
  /\ existsb isScan (fst (MainGo.main git iteration stdin)) = false.
Proof.
  intros E.
  assert (P : Part000.main git stdin
              = ([Git diffArgs;
                  Print (Part000.ColorRed
                         ++ str "错误：没有暂存的更改，请先使用 'git add' 添加文件。"
                         ++ Part000.ColorReset ++ [LF])],
                 Stop (Exited 1))).
  { unfold Part000.main. rewrite git_bind. fold diffArgs.
    destruct (git diffArgs) as [out err]. cbn [snd] in E. subst err. reflexivity. }
  assert (M : MainGo.main git iteration stdin
              = ([Git diffArgs;
                  Print (str "错误：没有暂存的更改，请先使用 'git add' 添加文件。" ++ [LF])],
                 Stop (Exited 1))).
  { unfold MainGo.main. rewrite git_bind. fold diffArgs.
    destruct (git diffArgs) as [out err]. cbn [snd] in E. subst err. reflexivity. }
  rewrite P, M. repeat split.
Qed.

Lemma no_staged_changes_witness :
  snd (@Part000.main asciiOnly (fun _ => ([], false)) [str "bcds-1"; str "1"])
  = Stop (Exited 1)
  /\ existsb isScan
       (fst (@Part000.main asciiOnly (fun _ => ([], false)) [str "bcds-1"; str "1"]))
     = false.
Proof.
  pose proof (@no_staged_changes asciiOnly (fun _ => ([], false)) []
                [str "bcds-1"; str "1"] eq_refl) as (P & _ & S & _).
  split; [now rewrite P | exact S].
Defined.

(** ** Confirmation (claim C6) *)

Lemma affirmative_ascii a : affirmative a = true -> isASCII a = true.
Proof.
  unfold affirmative. intros E.
  apply orb_true_iff in E as [E|E]; eapply equalFold_ascii; eauto.
Qed.

Lemma cancelledMain_ascii `{UnicodeCase} a :
  isASCII a = true -> MainGo.cancelled a = negb (affirmative a).
Proof.
  intros A. unfold MainGo.cancelled, affirmative, equalFold.
  rewrite (ToLower_ascii a A). now rewrite negb_orb.
Qed.

Lemma cancelled000_ascii `{UnicodeCase} a :
  isASCII a = true -> Part000.cancelled (ToLower a) = negb (affirmative a).
Proof.
  intros A. unfold Part000.cancelled, affirmative, equalFold.
  rewrite (ToLower_idem_ascii a A), (ToLower_ascii a A). now rewrite negb_orb.
Qed.

Lemma confirm000_cancel `{UnicodeCase} git msg stdin :
  Part000.cancelled (ToLower (TrimSpace (hd [] stdin))) = true ->
  cancelledRun cancelNotice000 (Part000.confirmAndCommit git msg stdin).
Proof.
  intros C. unfold Part000.confirmAndCommit, Println.
  repeat (rewrite emit_bind; cbv beta).
  rewrite readLine_bind. cbv beta zeta. rewrite C.
  repeat split.
Qed.

Lemma confirm000_commit `{UnicodeCase} git msg stdin :
  Part000.cancelled (ToLower (TrimSpace (hd [] stdin))) = false ->
  In (Git (commitArgs msg)) (fst (Part000.confirmAndCommit git msg stdin)).
Proof.
  intros C. unfold Part000.confirmAndCommit, Println.
  repeat (rewrite emit_bind; cbv beta).
  rewrite readLine_bind. cbv beta zeta. rewrite C.
  cbn [fst]. do 6 right.
  rewrite bind_run. cbn [ret app fst]. rewrite git_bind. cbn [fst]. now left.
Qed.

Lemma confirmMain_cancel `{UnicodeCase} git msg stdin :
  MainGo.cancelled (TrimSpace (hd [] stdin)) = true ->
  cancelledRun cancelNoticeMain (MainGo.confirmAndCommit git msg stdin).
Proof.
  intros C. unfold MainGo.confirmAndCommit, MainGo.readInput, Println.
  repeat (rewrite emit_bind; cbv beta). rewrite readLine_bind. cbv beta. rewrite C.
  repeat split.
Qed.

Lemma confirmMain_commit `{UnicodeCase} git msg stdin :
  MainGo.cancelled (TrimSpace (hd [] stdin)) = false ->
  In (Git (commitArgs msg)) (fst (MainGo.confirmAndCommit git msg stdin)).
Proof.
  intros C. unfold MainGo.confirmAndCommit, MainGo.readInput, Println.
  repeat (rewrite emit_bind; cbv beta). rewrite readLine_bind. cbv beta. rewrite C.
  cbn [fst]. do 3 right.
  rewrite bind_run. cbn [ret app fst]. rewrite git_bind. cbn [fst]. now left.
Qed.

Lemma affirmative_y : affirmative (str "y") = true /\ affirmative (str "yes") = true.
Proof. split; reflexivity. Qed.

Lemma lowered_affirmative s :
  eqs (map lowerByte s) (str "y") = true \/ eqs (map lowerByte s) (str "yes") = true ->
  affirmative s = true.
Proof.
  unfold affirmative, equalFold. intros [E|E].
  - change (map lowerByte (str "y")) with (str "y"). now rewrite E.
  - change (map lowerByte (str "yes")) with (str "yes"). rewrite E. apply orb_true_r.
Qed.

(** Once lowered, an answer with a byte above 127 is neither "y" nor
    "yes", and lowering it a second time does not make it so. *)
Lemma foreign_lowered `{UnicodeCase} a :
  lowerKeepsForeign -> isASCII a = false ->
  eqs (ToLower a) (str "y") = false /\ eqs (ToLower a) (str "yes") = false
  /\ eqs (ToLower (ToLower a)) (str "y") = false
  /\ eqs (ToLower (ToLower a)) (str "yes") = false.
Proof.
  intros K F.
  assert (N : forall s, affirmative s = false ->
                eqs s (str "y") = false /\ eqs s (str "yes") = false).
  { intros s Ns. split.
    - destruct (eqs s (str "y")) eqn:E; [|reflexivity].
      apply eqs_eq in E. subst s. discriminate.
    - destruct (eqs s (str "yes")) eqn:E; [|reflexivity].
      apply eqs_eq in E. subst s. discriminate. }
  pose proof (K a F) as Ka.
  assert (L : ToLower a = MapToLower a) by (unfold ToLower; now rewrite F).
  rewrite L. destruct (N _ Ka) as [N1 N2].
  split; [exact N1|]. split; [exact N2|].
  destruct (isASCII (MapToLower a)) eqn:A.
  - rewrite (ToLower_ascii _ A).
    split.
    + destruct (eqs (map lowerByte (MapToLower a)) (str "y")) eqn:E; [|reflexivity].
      rewrite lowered_affirmative in Ka by (left; exact E). discriminate.
    + destruct (eqs (map lowerByte (MapToLower a)) (str "yes")) eqn:E; [|reflexivity].
      rewrite lowered_affirmative in Ka by (right; exact E). discriminate.
  - assert (L' : ToLower (MapToLower a) = MapToLower (MapToLower a))
      by (unfold ToLower; now rewrite A).
    rewrite L'. apply N, K, A.
Qed.

Lemma cancelled000_other `{UnicodeCase} a :
  lowerKeepsForeign -> affirmative a = false -> Part000.cancelled (ToLower a) = true.
Proof.
  intros K N. destruct (isASCII a) eqn:A.
  - rewrite cancelled000_ascii by exact A. now rewrite N.
  - destruct (foreign_lowered a K A) as (_ & _ & E1 & E2).
    unfold Part000.cancelled. now rewrite E1, E2.
Qed.

Lemma cancelledMain_other `{UnicodeCase} a :
  lowerKeepsForeign -> affirmative a = false -> MainGo.cancelled a = true.
Proof.
  intros K N. destruct (isASCII a) eqn:A.
  - rewrite cancelledMain_ascii by exact A. now rewrite N.
  - destruct (foreign_lowered a K A) as (E1 & E2 & _).
    unfold MainGo.cancelled. now rewrite E1, E2.
Qed.

(** Tables that leave every character outside ASCII alone meet the
    condition. *)
Lemma asciiOnly_keepsForeign : @lowerKeepsForeign asciiOnly.
Proof.
  intros s F. cbn [MapToLower asciiOnly].
  destruct (affirmative s) eqn:E; [|reflexivity].
  apply affirmative_ascii in E. congruence.
Qed.

(** With staged changes, a run is the query, the banner, the four inputs
    and the confirmation. *)
Lemma main000_staged `{UnicodeCase} git stdin t msg rest :
  snd (git diffArgs) = true ->
  Part000.gather stdin = (t, Value msg rest) ->
  Part000.main git stdin
  = (Git diffArgs
       :: Print (Part000.ColorCyan ++ str "=== Git 提交助手 (Custom Commit CLI) ==="
                 ++ Part000.ColorReset ++ [LF])
       :: t ++ fst (Part000.confirmAndCommit git msg rest),
     snd (Part000.confirmAndCommit git msg rest)).
Proof.
  intros E G. unfold Part000.main. rewrite git_bind. fold diffArgs.
  destruct (git diffArgs) as [out err]. cbn [snd] in E. subst err.
  cbn [negb]. rewrite bind_run. cbn [ret app fst snd].
  unfold Println. rewrite emit_bind, bind_run, G. reflexivity.
Qed.

Lemma mainGo_staged `{UnicodeCase} git iteration stdin t msg rest :
  snd (git diffArgs) = true ->
  MainGo.gather iteration stdin = (t, Value msg rest) ->
  MainGo.main git iteration stdin
  = (Git diffArgs :: Print (str "=== 自定义提交流程 ===" ++ [LF])
       :: t ++ fst (MainGo.confirmAndCommit git msg rest),
     snd (MainGo.confirmAndCommit git msg rest)).
Proof.
  intros E G. unfold MainGo.main. rewrite git_bind. fold diffArgs.
  destruct (git diffArgs) as [out err]. cbn [snd] in E. subst err.
  cbn [negb]. rewrite bind_run. cbn [ret app fst snd].
  unfold Println. rewrite emit_bind, bind_run, G. reflexivity.
Qed.

Lemma last_after {A} (pre l : list A) d : l <> [] -> last (pre ++ l) d = last l d.
Proof.
  intros N. induction pre as [|x pre IH]; [reflexivity|].
  cbn [app]. rewrite <- IH. cbn [last].
  destruct (pre ++ l) eqn:E; [|reflexivity].
  apply app_eq_nil in E as [_ E]. congruence.
Qed.

Lemma cancelledRun_after {A} notice pre (run : list event * result A) :
  existsb isCommit pre = false -> cancelledRun notice run ->
  cancelledRun notice (pre ++ fst run, snd run).
Proof.
  intros Q (S & L & C). unfold cancelledRun. cbn [fst snd].
  split; [exact S|]. split.
  - destruct (fst run) as [|e r] eqn:E; [cbn in L; discriminate|].
    rewrite last_after by discriminate. exact L.
  - now rewrite existsb_app, Q, C.
Qed.

(** C6.  In a run that reaches the confirmation with message [msg], an
    answer that is "y" or "yes" up to the case of its letters lets
    [git commit -m msg] run; every other answer ends the run with the
    cancellation message and exit status 0, [git commit] never having run.
    For an ASCII answer this needs nothing of the case tables; for an
    answer with a byte above 127 it holds with Go's tables, of which
    [lowerKeepsForeign] states what is used.  Both versions. *)
Theorem confirmation `{UnicodeCase} (git : gitworld)
    (iteration : list (Z * MainGo.CommitType)) (stdin : list gostring) :
  snd (git diffArgs) = true ->
  (forall t msg rest,
      Part000.gather stdin = (t, Value msg rest) ->
      let answer := TrimSpace (hd [] rest) in
      let run := Part000.main git stdin in
      (affirmative answer = true -> In (Git (commitArgs msg)) (fst run))
      /\ (isASCII answer = true -> affirmative answer = false ->
          cancelledRun cancelNotice000 run)
      /\ (Part000.cancelled (ToLower answer) = true ->
          cancelledRun cancelNotice000 run)
      /\ (lowerKeepsForeign -> affirmative answer = false ->
          cancelledRun cancelNotice000 run))
  /\ (forall t msg rest,
      MainGo.gather iteration stdin = (t, Value msg rest) ->
      let answer := TrimSpace (hd [] rest) in
      let run := MainGo.main git iteration stdin in
      (affirmative answer = true -> In (Git (commitArgs msg)) (fst run))
      /\ (isASCII answer = true -> affirmative answer = false ->
          cancelledRun cancelNoticeMain run)
      /\ (MainGo.cancelled answer = true -> cancelledRun cancelNoticeMain run)
      /\ (lowerKeepsForeign -> affirmative answer = false ->
          cancelledRun cancelNoticeMain run)).
Proof.
  intros E. split.
  - intros t msg rest G answer run.
    assert (R : run = (Git diffArgs
         :: Print (Part000.ColorCyan ++ str "=== Git 提交助手 (Custom Commit CLI) ==="
                   ++ Part000.ColorReset ++ [LF])
         :: t ++ fst (Part000.confirmAndCommit git msg rest),
       snd (Part000.confirmAndCommit git msg rest)))
      by (apply main000_staged; auto).
    assert (Q : existsb isCommit t = false).
    { pose proof (gather000_quiet stdin) as Q. now rewrite G in Q. }
    assert (C : Part000.cancelled (ToLower answer) = true ->
                cancelledRun cancelNotice000 run).
    { intros C. rewrite R.
      apply (cancelledRun_after cancelNotice000 (_ :: _ :: t)); [exact Q|].
      now apply confirm000_cancel. }
    split; [|split; [|split; [exact C|]]].
    + intros F. rewrite R. cbn [fst]. do 2 right. apply in_or_app. right.
      apply confirm000_commit. fold answer.
      rewrite cancelled000_ascii by now apply affirmative_ascii.
      now rewrite F.
    + intros A F. apply C. rewrite cancelled000_ascii by exact A. now rewrite F.
    + intros K F. apply C. now apply cancelled000_other.
  - intros t msg rest G answer run.
    assert (R : run = (Git diffArgs :: Print (str "=== 自定义提交流程 ===" ++ [LF])
         :: t ++ fst (MainGo.confirmAndCommit git msg rest),
       snd (MainGo.confirmAndCommit git msg rest)))
      by (apply mainGo_staged; auto).
    assert (Q : existsb isCommit t = false).
    { pose proof (gatherMain_quiet iteration stdin) as Q. now rewrite G in Q. }
    assert (C : MainGo.cancelled answer = true -> cancelledRun cancelNoticeMain run).
    { intros C. rewrite R.
      apply (cancelledRun_after cancelNoticeMain (_ :: _ :: t)); [exact Q|].
      now apply confirmMain_cancel. }
    split; [|split; [|split; [exact C|]]].
    + intros F. rewrite R. cbn [fst]. do 2 right. apply in_or_app. right.
      apply confirmMain_commit. fold answer.
      rewrite cancelledMain_ascii by now apply affirmative_ascii.
      now rewrite F.
    + intros A F. apply C. rewrite cancelledMain_ascii by exact A. now rewrite F.
    + intros K F. apply C. now apply cancelledMain_other.
Qed.

Lemma confirmation_witness :
  cancelledRun cancelNotice000
    (@Part000.main asciiOnly gitStaged
       [str "bcds-42"; str "1"; str "Add login flow"; []; str "n"])
  /\ In (Git (commitArgs (str "feat(bcds-42): Add login flow")))
       (fst (@Part000.main asciiOnly gitStaged
               [str "bcds-42"; str "1"; str "Add login flow"; []; str "YES"]))
  /\ cancelledRun cancelNoticeMain
       (@MainGo.main asciiOnly gitStaged MainGo.getCommitTypes
          [str "PROJ-42"; str "1"; str "Add login flow"; str "no"])
  /\ cancelledRun cancelNotice000
       (@Part000.main asciiOnly gitStaged
          [str "bcds-42"; str "1"; str "Add login flow"; []; str " 是 "])
  /\ cancelledRun cancelNoticeMain
       (@MainGo.main asciiOnly gitStaged MainGo.getCommitTypes
          [str "PROJ-42"; str "1"; str "Add login flow"; str "是"]).
Proof.
  pose proof (proj1 (@confirmation asciiOnly gitStaged []
                       [str "bcds-42"; str "1"; str "Add login flow"; []; str "n"]
                       eq_refl) _ _ _ eq_refl) as (_ & N & _).
  pose proof (proj1 (@confirmation asciiOnly gitStaged []
                       [str "bcds-42"; str "1"; str "Add login flow"; []; str "YES"]
                       eq_refl) _ _ _ eq_refl) as (Y & _).
  pose proof (proj2 (@confirmation asciiOnly gitStaged MainGo.getCommitTypes
                       [str "PROJ-42"; str "1"; str "Add login flow"; str "no"]
                       eq_refl) _ _ _ eq_refl) as (_ & M & _).
  pose proof (proj1 (@confirmation asciiOnly gitStaged []
                       [str "bcds-42"; str "1"; str "Add login flow"; []; str " 是 "]
                       eq_refl) _ _ _ eq_refl) as (_ & _ & _ & U).
  pose proof (proj2 (@confirmation asciiOnly gitStaged MainGo.getCommitTypes
                       [str "PROJ-42"; str "1"; str "Add login flow"; str "是"]
                       eq_refl) _ _ _ eq_refl) as (_ & _ & _ & V).
  split; [exact (N eq_refl eq_refl)|]. split; [exact (Y eq_refl)|].
  split; [exact (M eq_refl eq_refl)|].
  split; [exact (U asciiOnly_keepsForeign eq_refl)
         | exact (V asciiOnly_keepsForeign eq_refl)].
Defined.

(** ** Trimmed answers (claim C10) *)

(** C10.  An answer entered with white space before and after it is read,
    judged and stored exactly as the answer without it: at the work-item
    prompt, the type prompt, the description prompt and the confirmation,
    in both versions; what the program keeps is the trimmed text. *)
Theorem answers_are_trimmed `{UnicodeCase} (git : gitworld)
    (l s r : gostring) (rest : list gostring) :
  Blank l -> Blank r ->
  let padded := l ++ s ++ r in
  (forall prompt,
      readLine prompt (padded :: rest)
      = ([Print prompt; Scan], Value (TrimSpace s) rest))
  /\ Part000.askWorkItem (padded :: rest) = Part000.askWorkItem (s :: rest)
  /\ (forall cts, Part000.askCommitType cts (padded :: rest)
                  = Part000.askCommitType cts (s :: rest))
  /\ Part000.askDescription (padded :: rest) = Part000.askDescription (s :: rest)
  /\ (forall msg, Part000.confirmAndCommit git msg (padded :: rest)
                  = Part000.confirmAndCommit git msg (s :: rest))
  /\ MainGo.askWorkItem (padded :: rest) = MainGo.askWorkItem (s :: rest)
  /\ (forall cts, MainGo.askCommitType cts (padded :: rest)
                  = MainGo.askCommitType cts (s :: rest))
  /\ MainGo.askDescription (padded :: rest) = MainGo.askDescription (s :: rest)
  /\ (forall msg, MainGo.confirmAndCommit git msg (padded :: rest)
                  = MainGo.confirmAndCommit git msg (s :: rest))
  /\ (Part000.validateEnglishDescription (TrimSpace s) = true ->
      snd (Part000.askDescription (padded :: rest)) = Value (TrimSpace s) rest)
  /\ (MainGo.validateEnglishDescription (TrimSpace s) = true ->
      snd (MainGo.askDescription (padded :: rest)) = Value (TrimSpace s) rest).
Proof.
  intros Bl Br padded.
  assert (T : TrimSpace padded = TrimSpace s) by now apply TrimSpace_padded.
  repeat split.
  - intros prompt. rewrite readLine_run. cbn [hd tl]. now rewrite T.
  - now apply untilValid_padded.
  - intros cts. now apply untilValid_padded.
  - now apply untilValid_padded.
  - intros msg. unfold Part000.confirmAndCommit, Println.
    repeat (rewrite emit_bind; cbv beta). rewrite !readLine_bind.
    cbn [hd tl]. now rewrite T.
  - now apply untilValid_padded.
  - intros cts. now apply untilValid_padded.
  - now apply untilValid_padded.
  - intros msg. unfold MainGo.confirmAndCommit, MainGo.readInput, Println.
    repeat (rewrite emit_bind; cbv beta). rewrite !readLine_bind.
    cbn [hd tl]. now rewrite T.
  - intros V. unfold Part000.askDescription.
    erewrite untilValid_accept; [reflexivity|].
    unfold Part000.acceptDescription. now rewrite T, V.
  - intros V. unfold MainGo.askDescription.
    erewrite untilValid_accept; [reflexivity|].
    unfold MainGo.acceptDescription. now rewrite T, V.
Qed.

Lemma answers_are_trimmed_witness :
  Blank (str "  ") /\ Blank [" "; "009"]
  /\ @Part000.confirmAndCommit asciiOnly gitStaged (str "feat(bcds-1): Fix it")
       [str "  y " ++ ["009"]]
     = @Part000.confirmAndCommit asciiOnly gitStaged (str "feat(bcds-1): Fix it")
         [str "y"]
  /\ In (Git (commitArgs (str "feat(bcds-1): Fix it")))
       (fst (@Part000.confirmAndCommit asciiOnly gitStaged
               (str "feat(bcds-1): Fix it") [str "  y " ++ ["009"]]))
  /\ snd (Part000.askDescription [str "  Add login flow " ++ ["009"]])
     = Value (str "Add login flow") [].
Proof.
  assert (Bl : Blank (str "  ")) by (repeat constructor).
  assert (Br : Blank [" "; "009"]) by (repeat constructor).
  split; [exact Bl|]. split; [exact Br|].
  pose proof (@answers_are_trimmed asciiOnly gitStaged (str "  ") (str "y")
                [" "; "009"] [] Bl Br) as (_ & _ & _ & _ & C & _).
  pose proof (@answers_are_trimmed asciiOnly gitStaged (str "  ")
                (str "Add login flow") [" "; "009"] [] Bl Br)
    as (_ & _ & _ & _ & _ & _ & _ & _ & _ & D & _).
  split; [exact (C _)|]. split.
  - vm_compute. do 6 right. now left.
  - exact (D eq_refl).
Defined.

(** ** The commit message (claim C1) *)

Lemma Lang_mentions r s : Lang r s -> forallb (mentions r) s = true.
Proof.
  induction 1; cbn [mentions forallb]; auto.
  - now rewrite H.
  - rewrite forallb_app. apply andb_true_iff. split.
    + revert IHLang1. apply forallb_imp. intros c ->. reflexivity.
    + revert IHLang2. apply forallb_imp. intros c ->. apply orb_true_r.
  - revert IHLang. apply forallb_imp. intros c ->. reflexivity.
  - revert IHLang. apply forallb_imp. intros c ->. apply orb_true_r.
  - cbn [mentions] in IHLang2. rewrite forallb_app. apply andb_true_iff.
    split; [exact IHLang1 | exact IHLang2].
Qed.

Lemma MatchString_noLF re s :
  mentions re LF = false -> MatchString re s = true -> noLF s = true.
Proof.
  intros M L. apply MatchString_Lang, Lang_mentions in L.
  revert L. apply forallb_imp. intros c E.
  destruct (Ascii.eqb_spec c LF) as [->|]; [congruence | reflexivity].
Qed.

Lemma noLF_app a b : noLF (a ++ b) = noLF a && noLF b.
Proof. apply forallb_app. Qed.

Lemma splitLines_noLF cur a : noLF a = true -> splitLines cur a = [rev cur ++ a].
Proof.
  revert cur. induction a as [|c a IH]; intros cur N; cbn [splitLines].
  - now rewrite app_nil_r.
  - cbn [noLF forallb] in N. apply andb_true_iff in N as [N1 N2].
    apply negb_true_iff in N1. rewrite N1, IH by exact N2.
    cbn [rev]. now rewrite <- app_assoc.
Qed.

Lemma splitLines_app cur a b :
  noLF a = true ->
  splitLines cur (a ++ LF :: b) = (rev cur ++ a) :: splitLines [] b.
Proof.
  revert cur. induction a as [|c a IH]; intros cur N; cbn [splitLines app].
  - rewrite Ascii.eqb_refl. now rewrite app_nil_r.
  - cbn [noLF forallb] in N. apply andb_true_iff in N as [N1 N2].
    apply negb_true_iff in N1. rewrite N1, IH by exact N2.
    cbn [rev]. now rewrite <- app_assoc.
Qed.

Lemma lines_app a b : noLF a = true -> lines (a ++ LF :: b) = a :: lines b.
Proof. intros N. unfold lines. now rewrite splitLines_app. Qed.

Lemma lines_Join body :
  body <> [] -> Forall (fun l => noLF l = true) body -> lines (Join body [LF]) = body.
Proof.
  intros N F. induction F as [|l body Nl F IH]; [congruence|].
  destruct body as [|l' body].
  - cbn [Join]. unfold lines. now rewrite splitLines_noLF.
  - change (Join (l :: l' :: body) [LF]) with (l ++ LF :: Join (l' :: body) [LF]).
    rewrite lines_app by exact Nl. f_equal. apply IH. discriminate.
Qed.

Lemma Join_nonempty l body sep : l <> [] -> Join (l :: body) sep <> [].
Proof.
  intros N. destruct body; cbn [Join]; [exact N|].
  destruct l; [congruence | discriminate].
Qed.

Lemma catalogCodes_noLF t : In t catalogCodes -> noLF t = true.
Proof. cbn. intuition (subst; reflexivity). Qed.

Lemma firstLine_noLF t w d :
  In t catalogCodes ->
  Part000.validateWorkItem w = true ->
  Part000.validateEnglishDescription d = true ->
  noLF (t ++ str "(" ++ w ++ str "): " ++ d) = true.
Proof.
  intros T W D. rewrite !noLF_app, (catalogCodes_noLF t T).
  rewrite (MatchString_noLF Part000.workItemRe w eq_refl W).
  replace (noLF d) with true; [reflexivity|]. symmetry.
  unfold Part000.validateEnglishDescription in D.
  destruct ((length d =? 0)%nat || (72 <? length d)%nat); [discriminate|].
  now apply (MatchString_noLF Part000.descRe d eq_refl).
Qed.

Lemma bind_value {A B} (m : io A) (k : A -> io B) stdin t b rest :
  bind m k stdin = (t, Value b rest) ->
  exists t1 a r1 t2,
    m stdin = (t1, Value a r1) /\ k a r1 = (t2, Value b rest) /\ t = t1 ++ t2.
Proof.
  unfold bind. destruct (m stdin) as [t1 [a r1|st]]; [|discriminate].
  destruct (k a r1) as [t2 r2] eqn:K. intros E. injection E as <- ->.
  exists t1, a, r1, t2. auto.
Qed.

Lemma catalog000_codes : map Part000.code Part000.getCommitTypes = catalogCodes.
Proof. reflexivity. Qed.

Lemma catalogMain_codes :
  map (fun e => MainGo.code (snd e)) MainGo.getCommitTypes = catalogCodes.
Proof. reflexivity. Qed.

Lemma acceptType000_catalog input ty :
  Part000.acceptType Part000.getCommitTypes input = Some ty -> In ty catalogCodes.
Proof.
  unfold Part000.acceptType. destruct (Atoi input) as [choice|]; [|discriminate].
  destruct ((1 <=? choice)%Z && _); [|discriminate].
  destruct (nth_error _ _) as [ct|] eqn:E; [|discriminate].
  intros X. injection X as <-. rewrite <- catalog000_codes.
  apply in_map. eapply nth_error_In. exact E.
Qed.

Lemma lookup_In m key ct : MainGo.lookup m key = Some ct -> In (key, ct) m.
Proof.
  induction m as [|[k v] m IH]; cbn [MainGo.lookup]; [discriminate|].
  destruct (Z.eqb_spec k key) as [->|].
  - intros X. injection X as ->. now left.
  - intros X. right. auto.
Qed.

Lemma acceptTypeMain_catalog input ty :
  MainGo.acceptType MainGo.getCommitTypes input = Some ty -> In ty catalogCodes.
Proof.
  unfold MainGo.acceptType. destruct (Atoi input) as [choice|]; [|discriminate].
  destruct (MainGo.lookup _ _) as [ct|] eqn:E; [|discriminate].
  intros X. injection X as <-. rewrite <- catalogMain_codes.
  apply lookup_In in E.
  change (MainGo.code ct) with ((fun e => MainGo.code (snd e)) (choice, ct)).
  now apply in_map.
Qed.

Lemma collectLines_kept stdin t body rest :
  Part000.collectLines stdin = (t, body, rest) ->
  Forall (fun l => TrimSpace l <> []) body.
Proof.
  revert t body rest. induction stdin as [|line more IH]; intros t body rest;
    cbn [Part000.collectLines].
  - intros X. injection X as _ <- _. constructor.
  - destruct (eqs (TrimSpace line) []) eqn:E.
    + intros X. injection X as _ <- _. constructor.
    + destruct (Part000.collectLines more) as [[t' ls] r'] eqn:C.
      intros X. injection X as _ <- _. constructor.
      * intros Z. apply eqs_nil in Z. congruence.
      * eapply IH. reflexivity.
Qed.

(** The message a run of the later revision arrives at is the message of
    four validated inputs. *)
Lemma gather000_value `{UnicodeCase} stdin t msg rest :
  Part000.gather stdin = (t, Value msg rest) ->
  exists ty w d body,
    msg = Part000.commitMessage ty w d (Join body [LF])
    /\ In ty catalogCodes
    /\ Part000.validateWorkItem w = true
    /\ Part000.validateEnglishDescription d = true
    /\ Forall (fun l => TrimSpace l <> []) body.
Proof.
  unfold Part000.gather. intros G.
  apply bind_value in G as (t1 & w & r1 & t1' & E1 & G & _).
  apply untilValid_value in E1 as [line1 A1].
  apply bind_value in G as (t2 & [] & r2 & t2' & _ & G & _).
  apply bind_value in G as (t3 & [] & r3 & t3' & _ & G & _).
  apply bind_value in G as (t4 & ty & r4 & t4' & E4 & G & _).
  apply untilValid_value in E4 as [line4 A4].
  apply bind_value in G as (t5 & [] & r5 & t5' & _ & G & _).
  apply bind_value in G as (t6 & d & r6 & t6' & E6 & G & _).
  apply untilValid_value in E6 as [line6 A6].
  apply bind_value in G as (t7 & body & r7 & t7' & E7 & G & _).
  unfold Part000.readMultiline in E7.
  destruct (Part000.collectLines r6) as [[tc ls] rc] eqn:C.
  injection E7 as _ <- _. injection G as _ <- _.
  exists ty, w, d, ls. split; [reflexivity|]. repeat split.
  - eapply acceptType000_catalog. exact A4.
  - unfold Part000.acceptWorkItem in A1.
    destruct (Part000.validateWorkItem (ToLower (TrimSpace line1))) eqn:V;
      [|discriminate].
    injection A1 as <-. exact V.
  - unfold Part000.acceptDescription in A6.
    destruct (Part000.validateEnglishDescription (TrimSpace line6)) eqn:V;
      [|discriminate].
    injection A6 as <-. exact V.
  - eapply collectLines_kept. exact C.
Qed.

Lemma gatherMain_value `{UnicodeCase} iteration stdin t msg rest :
  MainGo.gather iteration stdin = (t, Value msg rest) ->
  exists ty w d,
    msg = MainGo.commitMessage ty w d
    /\ In ty catalogCodes
    /\ MainGo.validateWorkItem w = true
    /\ MainGo.validateEnglishDescription d = true.
Proof.
  unfold MainGo.gather. intros G.
  apply bind_value in G as (t1 & w & r1 & t1' & E1 & G & _).
  apply untilValid_value in E1 as [line1 A1].
  apply bind_value in G as (t2 & [] & r2 & t2' & _ & G & _).
  apply bind_value in G as (t3 & [] & r3 & t3' & _ & G & _).
  apply bind_value in G as (t4 & ty & r4 & t4' & E4 & G & _).
  apply untilValid_value in E4 as [line4 A4].
  apply bind_value in G as (t5 & [] & r5 & t5' & _ & G & _).
  apply bind_value in G as (t6 & d & r6 & t6' & E6 & G & _).
  apply untilValid_value in E6 as [line6 A6].
  injection G as _ <- _.
  exists ty, w, d. split; [reflexivity|]. repeat split.
  - eapply acceptTypeMain_catalog. exact A4.
  - unfold MainGo.acceptWorkItem in A1.
    destruct (MainGo.validateWorkItem (TrimSpace line1)) eqn:V; [|discriminate].
    injection A1 as <-. exact V.
  - unfold MainGo.acceptDescription in A6.
    destruct (MainGo.validateEnglishDescription (TrimSpace line6)) eqn:V;
      [|discriminate].
    injection A6 as <-. exact V.
Qed.

(** C1.  The message is the first line [type(work-item): description]; a
    non-empty body follows it after exactly one blank line, verbatim, and an
    empty body adds nothing.  For validated inputs and a body of lines as
    they were read, the lines of the message are the first line alone, or
    the first line, one empty line and the lines of the body.  The message
    of every run is such a message, in both versions ([main.go] has no
    body). *)
Theorem message_format `{UnicodeCase} :
  (forall t w d,
      Part000.commitMessage t w d [] = t ++ str "(" ++ w ++ str "): " ++ d)
  /\ (forall t w d b, b <> [] ->
      Part000.commitMessage t w d b
      = (t ++ str "(" ++ w ++ str "): " ++ d) ++ [LF] ++ [LF] ++ b)
  /\ (forall t w d,
      MainGo.commitMessage t w d = t ++ str "(" ++ w ++ str "): " ++ d)
  /\ (forall t w d body,
      In t catalogCodes ->
      Part000.validateWorkItem w = true ->
      Part000.validateEnglishDescription d = true ->
      Forall (fun l => TrimSpace l <> [] /\ noLF l = true) body ->
      lines (Part000.commitMessage t w d (Join body [LF]))
      = (t ++ str "(" ++ w ++ str "): " ++ d)
          :: match body with [] => [] | _ :: _ => [] :: body end)
  /\ (forall stdin tr msg rest,
      Part000.gather stdin = (tr, Value msg rest) ->
      exists t w d body,
        msg = Part000.commitMessage t w d (Join body [LF])
        /\ In t catalogCodes
        /\ Part000.validateWorkItem w = true
        /\ Part000.validateEnglishDescription d = true
        /\ Forall (fun l => TrimSpace l <> []) body)
  /\ (forall iteration stdin tr msg rest,
      MainGo.gather iteration stdin = (tr, Value msg rest) ->
      exists t w d,
        msg = t ++ str "(" ++ w ++ str "): " ++ d
        /\ In t catalogCodes
        /\ MainGo.validateWorkItem w = true
        /\ MainGo.validateEnglishDescription d = true).
Proof.
  split; [reflexivity|]. split; [|split; [reflexivity|split; [|split]]].
  - intros t w d b N. unfold Part000.commitMessage.
    destruct (eqs b []) eqn:E; [apply eqs_nil in E; congruence | reflexivity].
  - intros t w d body T W D F.
    pose proof (firstLine_noLF t w d T W D) as N.
    destruct body as [|l body].
    + cbn [Join]. cbn [Part000.commitMessage eqs negb].
      unfold lines. now rewrite splitLines_noLF.
    + assert (B : Join (l :: body) [LF] <> []).
      { apply Join_nonempty. inversion F as [|? ? [Nl _] ?]; subst.
        intros ->. now apply Nl. }
      unfold Part000.commitMessage.
      destruct (eqs (Join (l :: body) [LF]) []) eqn:E;
        [apply eqs_nil in E; congruence|].
      cbn [negb].
      change ((t ++ str "(" ++ w ++ str "): " ++ d) ++ [LF; LF] ++ Join (l :: body) [LF])
        with ((t ++ str "(" ++ w ++ str "): " ++ d)
                ++ LF :: ([] ++ LF :: Join (l :: body) [LF])).
      rewrite lines_app by exact N. rewrite lines_app by reflexivity.
      rewrite lines_Join; [reflexivity | discriminate |].
      revert F. apply Forall_impl. now intros ? [_ ?].
  - intros. eapply gather000_value. eassumption.
  - intros iteration stdin tr msg rest G.
    destruct (gatherMain_value _ _ _ _ _ G) as (t & w & d & E & ?).
    exists t, w, d. auto.
Qed.

Lemma message_format_witness :
  lines (Part000.commitMessage (str "feat") (str "bcds-42") (str "Add login flow")
           (Join [str "First reason."; str "  second, indented"] [LF]))
  = [str "feat(bcds-42): Add login flow"; []; str "First reason.";
     str "  second, indented"]
  /\ Part000.commitMessage (str "feat") (str "bcds-42") (str "Add login flow")
       (str "b") = str "feat(bcds-42): Add login flow" ++ [LF] ++ [LF] ++ str "b".
Proof.
  pose proof (@message_format asciiOnly) as (_ & B & _ & L & _).
  split.
  - apply (L (str "feat") (str "bcds-42") (str "Add login flow")
             [str "First reason."; str "  second, indented"]).
    + cbn. auto.
    + reflexivity.
    + reflexivity.
    + repeat constructor; discriminate.
  - apply (B (str "feat") (str "bcds-42") (str "Add login flow") (str "b")).
    discriminate.
Defined.

(** ** The type selector (claim C4) *)

Lemma lookupMain_outside n :
  (n < 1 \/ 10 < n)%Z -> MainGo.lookup MainGo.getCommitTypes n = None.
Proof.
  intros O. unfold MainGo.getCommitTypes. cbn [MainGo.lookup].
  repeat match goal with
         | |- context [(?k =? n)%Z] => destruct (Z.eqb_spec k n); [lia|]
         end.
  reflexivity.
Qed.

Lemma small_cases n :
  (1 <= n <= 10)%Z ->
  (n = 1 \/ n = 2 \/ n = 3 \/ n = 4 \/ n = 5 \/ n = 6 \/ n = 7 \/ n = 8 \/ n = 9
   \/ n = 10)%Z.
Proof. lia. Qed.

(** C4.  The decimal numeral of every [n] from 1 to 10 parses to [n]; every
    input that parses to such an [n] selects the [n]-th code of the catalog;
    every input that does not parse, or parses to a number outside 1..10,
    is rejected, and a rejected line is followed by the hint and a new
    prompt on the rest of the input.  So the selector loop, after any
    number of answers that do not parse or are outside 1..10, each answered
    by the hint and a new prompt, yields for the first answer that parses
    to an [n] from 1 to 10 the [n]-th code, the later lines unread.  Both
    versions. *)
Theorem type_selector :
  (forall n, (1 <= n <= 10)%Z -> Atoi (Itoa n) = Some n)
  /\ (forall input n, Atoi input = Some n -> (1 <= n <= 10)%Z ->
      exists code,
        nth_error catalogCodes (Z.to_nat (n - 1)) = Some code
        /\ Part000.acceptType Part000.getCommitTypes input = Some code
        /\ MainGo.acceptType MainGo.getCommitTypes input = Some code)
  /\ (forall input, Atoi input = None ->
      Part000.acceptType Part000.getCommitTypes input = None
      /\ MainGo.acceptType MainGo.getCommitTypes input = None)
  /\ (forall input n, Atoi input = Some n -> (n < 1 \/ 10 < n)%Z ->
      Part000.acceptType Part000.getCommitTypes input = None
      /\ MainGo.acceptType MainGo.getCommitTypes input = None)
  /\ (forall line rest,
      Part000.acceptType Part000.getCommitTypes (TrimSpace line) = None ->
      Part000.askCommitType Part000.getCommitTypes (line :: rest)
      = (Print (str "   请输入编号 (1-10): ") :: Scan
           :: Print (Part000.ColorRed ++ str "请输入有效的数字 (1-10)" ++ [LF]
                     ++ Part000.ColorReset)
           :: fst (Part000.askCommitType Part000.getCommitTypes rest),
         snd (Part000.askCommitType Part000.getCommitTypes rest)))
  /\ (forall line rest,
      MainGo.acceptType MainGo.getCommitTypes (TrimSpace line) = None ->
      MainGo.askCommitType MainGo.getCommitTypes (line :: rest)
      = (Print (str "   请输入编号 (1-10): ") :: Scan
           :: Print (str "请输入有效的数字 (1-10)" ++ [LF])
           :: fst (MainGo.askCommitType MainGo.getCommitTypes rest),
         snd (MainGo.askCommitType MainGo.getCommitTypes rest)))
  /\ (forall bad line rest n,
      Forall (fun l => forall m, Atoi (TrimSpace l) = Some m -> (m < 1 \/ 10 < m)%Z) bad ->
      Atoi (TrimSpace line) = Some n -> (1 <= n <= 10)%Z ->
      exists code,
        nth_error catalogCodes (Z.to_nat (n - 1)) = Some code
        /\ Part000.askCommitType Part000.getCommitTypes (bad ++ line :: rest)
           = (concat (map (fun _ =>
                             [Print (str "   请输入编号 (1-10): "); Scan;
                              Print (Part000.ColorRed ++ str "请输入有效的数字 (1-10)"
                                     ++ [LF] ++ Part000.ColorReset)]) bad)
                ++ [Print (str "   请输入编号 (1-10): "); Scan],
              Value code rest)
        /\ MainGo.askCommitType MainGo.getCommitTypes (bad ++ line :: rest)
           = (concat (map (fun _ =>
                             [Print (str "   请输入编号 (1-10): "); Scan;
                              Print (str "请输入有效的数字 (1-10)" ++ [LF])]) bad)
                ++ [Print (str "   请输入编号 (1-10): "); Scan],
              Value code rest)).
Proof.
  assert (Sel : forall input n, Atoi input = Some n -> (1 <= n <= 10)%Z ->
      exists code,
        nth_error catalogCodes (Z.to_nat (n - 1)) = Some code
        /\ Part000.acceptType Part000.getCommitTypes input = Some code
        /\ MainGo.acceptType MainGo.getCommitTypes input = Some code).
  { intros input n E R. unfold Part000.acceptType, MainGo.acceptType. rewrite E.
    apply small_cases in R.
    repeat (destruct R as [->|R]; [eexists; repeat split|]).
    subst. eexists. repeat split. }
  assert (Rej : forall input,
      (forall m, Atoi input = Some m -> (m < 1 \/ 10 < m)%Z) ->
      Part000.acceptType Part000.getCommitTypes input = None
      /\ MainGo.acceptType MainGo.getCommitTypes input = None).
  { intros input O. unfold Part000.acceptType, MainGo.acceptType.
    destruct (Atoi input) as [m|]; [|now split].
    specialize (O m eq_refl).
    rewrite (lookupMain_outside m O). split; [|reflexivity].
    change (Z.of_nat (length Part000.getCommitTypes)) with 10%Z.
    destruct (Z.leb_spec 1 m), (Z.leb_spec m 10); try reflexivity; lia. }
  split; [|split; [|split; [|split; [|split; [|split]]]]].
  - intros n R. apply small_cases in R.
    repeat (destruct R as [->|R]; [reflexivity|]). subst. reflexivity.
  - intros input n E R. unfold Part000.acceptType, MainGo.acceptType. rewrite E.
    apply small_cases in R.
    repeat (destruct R as [->|R]; [eexists; repeat split|]).
    subst. eexists. repeat split.
  - intros input E. unfold Part000.acceptType, MainGo.acceptType. now rewrite E.
  - intros input n E O. unfold Part000.acceptType, MainGo.acceptType. rewrite E.
    rewrite (lookupMain_outside n O). split; [|reflexivity].
    change (Z.of_nat (length Part000.getCommitTypes)) with 10%Z.
    destruct (Z.leb_spec 1 n), (Z.leb_spec n 10); try reflexivity; lia.
  - intros line rest E. unfold Part000.askCommitType.
    rewrite untilValid_reject by exact E. reflexivity.
  - intros line rest E. unfold MainGo.askCommitType.
    rewrite untilValid_reject by exact E. reflexivity.
  - intros bad line rest n B E R.
    destruct (Sel (TrimSpace line) n E R) as (code & C & P & M).
    exists code. split; [exact C|]. split.
    + unfold Part000.askCommitType.
      rewrite (untilValid_retries _ _ _ bad line code rest); [reflexivity| |exact P].
      revert B. apply Forall_impl. intros l O. now apply Rej.
    + unfold MainGo.askCommitType.
      rewrite (untilValid_retries _ _ _ bad line code rest); [reflexivity| |exact M].
      revert B. apply Forall_impl. intros l O. now apply Rej.
Qed.

Lemma type_selector_witness :
  Atoi (Itoa 10) = Some 10%Z
  /\ Part000.acceptType Part000.getCommitTypes (str "3") = Some (str "docs")
  /\ MainGo.acceptType MainGo.getCommitTypes (str "0") = None
  /\ Part000.acceptType Part000.getCommitTypes (str "ten") = None
  /\ snd (Part000.askCommitType Part000.getCommitTypes
            [str "ten"; str "0"; str "11"; []; str " 3 "; str "x"])
     = Value (str "docs") [str "x"]
  /\ snd (MainGo.askCommitType MainGo.getCommitTypes
            [str "ten"; str "0"; str "11"; []; str " 3 "; str "x"])
     = Value (str "docs") [str "x"].
Proof.
  pose proof type_selector as (I & S & N & O & _ & _ & L).
  split; [apply I; lia|]. split; [|split; [|split]].
  - destruct (S (str "3") 3%Z eq_refl) as (code & C & P & _); [lia|].
    injection C as <-. exact P.
  - apply (O (str "0") 0%Z eq_refl). lia.
  - apply (N (str "ten") eq_refl).
  - destruct (L [str "ten"; str "0"; str "11"; []] (str " 3 ") [str "x"] 3%Z)
      as (code & C & P & M).
    + repeat (apply Forall_cons;
              [intros m E; vm_compute in E; try discriminate;
               injection E as <-; lia|]).
      apply Forall_nil.
    + reflexivity.
    + lia.
    + injection C as <-. cbn [app] in P, M. split.
      * exact (f_equal snd P).
      * exact (f_equal snd M).
Defined.

(** ** The catalog and its menu (claim C7) *)

Lemma bind_trace {A B} (m : io A) (k : A -> io B) stdin :
  exists after, fst (bind m k stdin) = fst (m stdin) ++ after.
Proof.
  rewrite bind_run. destruct (m stdin) as [t [a rest|st]]; cbn [fst].
  - eauto.
  - exists []. now rewrite app_nil_r.
Qed.

Lemma main000_menu `{UnicodeCase} git stdin t w rest :
  snd (git diffArgs) = true ->
  Part000.askWorkItem stdin = (t, Value w rest) ->
  exists after,
    fst (Part000.main git stdin)
    = [Git diffArgs;
       Print (Part000.ColorCyan ++ str "=== Git 提交助手 (Custom Commit CLI) ==="
              ++ Part000.ColorReset ++ [LF])]
      ++ t
      ++ [Print ([LF] ++ Part000.ColorYellow ++ str "2. 请选择提交类型:"
                 ++ Part000.ColorReset ++ [LF])]
      ++ Part000.printMenu 0 Part000.getCommitTypes ++ after.
Proof.
  intros E W. unfold Part000.main. rewrite git_bind. fold diffArgs.
  destruct (git diffArgs) as [out err]. cbn [snd] in E. subst err.
  cbn [negb]. rewrite bind_run. cbn [ret app fst snd].
  unfold Println at 1. rewrite emit_bind. cbn [fst].
  match goal with
  | |- context [fst (bind ?m ?k stdin)] =>
      destruct (bind_trace m k stdin) as [a1 ->]
  end.
  unfold Part000.gather at 1. rewrite bind_run, W. cbn [fst].
  unfold Println at 1. rewrite emit_bind. cbn [fst].
  match goal with
  | |- context [fst (bind ?m ?k rest)] =>
      destruct (bind_trace m k rest) as [a2 ->]
  end.
  cbn [fst]. exists (a2 ++ a1). cbn [app]. f_equal. f_equal.
  rewrite <- !app_assoc. cbn [app]. now rewrite <- !app_assoc.
Qed.

Lemma mainGo_menu `{UnicodeCase} git iteration stdin t w rest :
  snd (git diffArgs) = true ->
  MainGo.askWorkItem stdin = (t, Value w rest) ->
  exists after,
    fst (MainGo.main git iteration stdin)
    = [Git diffArgs; Print (str "=== 自定义提交流程 ===" ++ [LF])]
      ++ t
      ++ [Print ([LF] ++ str "2. 请选择提交类型:" ++ [LF])]
      ++ MainGo.printMenu iteration ++ after.
Proof.
  intros E W. unfold MainGo.main. rewrite git_bind. fold diffArgs.
  destruct (git diffArgs) as [out err]. cbn [snd] in E. subst err.
  cbn [negb]. rewrite bind_run. cbn [ret app fst snd].
  unfold Println at 1. rewrite emit_bind. cbn [fst].
  match goal with
  | |- context [fst (bind ?m ?k stdin)] =>
      destruct (bind_trace m k stdin) as [a1 ->]
  end.
  unfold MainGo.gather at 1. rewrite bind_run, W. cbn [fst].
  unfold Println at 1. rewrite emit_bind. cbn [fst].
  match goal with
  | |- context [fst (bind ?m ?k rest)] =>
      destruct (bind_trace m k rest) as [a2 ->]
  end.
  cbn [fst]. exists (a2 ++ a1). cbn [app]. f_equal. f_equal.
  rewrite <- !app_assoc. cbn [app]. now rewrite <- !app_assoc.
Qed.

(** C7 on the code.  The later revision keeps the catalog in a slice: ten
    entries, the codes in the fixed order, printed with the numbers 1 to 10
    in that order.  [main.go] keeps it in a map and prints the menu by
    ranging over the map, so the lines come in the order the runtime yields
    the entries (lemma [mainGo_menu]); with the entries yielded backwards
    the first menu line of a run is number 10. *)
Theorem catalog_menu :
  map Part000.code Part000.getCommitTypes = catalogCodes
  /\ length Part000.getCommitTypes = 10%nat
  /\ Part000.printMenu 0 Part000.getCommitTypes
     = map (fun text => Print (str text ++ [LF]))
         [ "   1. feat     新功能 (A new feature)";
           "   2. fix      Bug修复 (A bug fix)";
           "   3. docs     文档更新 (Documentation only changes)";
           "   4. style    代码格式 (Changes that do not affect code meaning)";
           "   5. refactor 代码重构 (Neither fixes bug nor adds feature)";
           "   6. perf     性能优化 (A code change that improves performance)";
           "   7. test     测试相关 (Adding or correcting tests)";
           "   8. build    构建相关 (Affect build system or dependencies)";
           "   9. ci       CI配置 (Changes to CI configuration files)";
           "   10. chore    其他杂项 (Other changes)" ]%string
  /\ map (fun e => (fst e, MainGo.code (snd e))) MainGo.getCommitTypes
     = combine [1; 2; 3; 4; 5; 6; 7; 8; 9; 10]%Z catalogCodes
  /\ Permutation (rev MainGo.getCommitTypes) MainGo.getCommitTypes
  /\ MainGo.printMenu (rev MainGo.getCommitTypes)
     = rev (MainGo.printMenu MainGo.getCommitTypes)
  /\ nth_error (fst (@MainGo.main asciiOnly gitStaged MainGo.getCommitTypes
                       [str "PROJ-1"])) 5
     = Some (Print (str "   1. feat     新功能 (A new feature)" ++ [LF]))
  /\ nth_error (fst (@MainGo.main asciiOnly gitStaged (rev MainGo.getCommitTypes)
                       [str "PROJ-1"])) 5
     = Some (Print (str "   10. chore    其他杂项 (Other changes)" ++ [LF])).
Proof.
  repeat split. apply Permutation_sym, Permutation_rev.
Qed.

(** ** The body collector (claim C8) *)

Lemma collectLines_run body term rest :
  Forall (fun l => TrimSpace l <> []) body ->
  TrimSpace term = [] ->
  Part000.collectLines (body ++ term :: rest)
  = (repeat Scan (S (length body)), body, rest).
Proof.
  intros F T. induction F as [|l body N F IH]; cbn [app Part000.collectLines].
  - rewrite T. reflexivity.
  - destruct (eqs (TrimSpace l) []) eqn:E; [apply eqs_nil in E; congruence|].
    rewrite IH. reflexivity.
Qed.

Lemma collectLines_eof body :
  Forall (fun l => TrimSpace l <> []) body ->
  Part000.collectLines body = (repeat Scan (S (length body)), body, []).
Proof.
  intros F. induction F as [|l body N F IH]; cbn [Part000.collectLines].
  - reflexivity.
  - destruct (eqs (TrimSpace l) []) eqn:E; [apply eqs_nil in E; congruence|].
    rewrite IH. reflexivity.
Qed.

Lemma collectLines_linesBeforeEmpty stdin :
  (forall l, In l stdin -> TrimSpace l = [] -> l = []) ->
  snd (fst (Part000.collectLines stdin)) = linesBeforeEmpty stdin.
Proof.
  induction stdin as [|line rest IH]; intros O;
    cbn [Part000.collectLines linesBeforeEmpty]; [reflexivity|].
  destruct (eqs (TrimSpace line) []) eqn:E.
  - apply eqs_nil in E. rewrite (O line (or_introl eq_refl) E). reflexivity.
  - destruct (eqs line []) eqn:E'.
    { apply eqs_nil in E'. subst line. discriminate. }
    specialize (IH (fun l I => O l (or_intror I))).
    destruct (Part000.collectLines rest) as [[t ls] r]. cbn [fst snd] in *.
    now rewrite IH.
Qed.

(** C8, as amended.  The collector reads lines until one that is blank,
    that is empty once white space is trimmed, or until the input ends.  It
    returns the lines read before, untrimmed and unrestricted, joined by
    line feeds; with no line before the terminator that is the empty string,
    for which the message has no body.  When no line of the input consists
    of white space only, these are the lines before the first empty line. *)
Theorem body_collector :
  (forall prompt body term rest,
      Forall (fun l => TrimSpace l <> []) body ->
      TrimSpace term = [] ->
      Part000.readMultiline prompt (body ++ term :: rest)
      = (Print (prompt ++ str " (直接回车结束):" ++ [LF])
           :: repeat Scan (S (length body)),
         Value (Join body [LF]) rest))
  /\ (forall prompt body,
      Forall (fun l => TrimSpace l <> []) body ->
      Part000.readMultiline prompt body
      = (Print (prompt ++ str " (直接回车结束):" ++ [LF])
           :: repeat Scan (S (length body)),
         Value (Join body [LF]) []))
  /\ (forall prompt stdin,
      (forall l, In l stdin -> TrimSpace l = [] -> l = []) ->
      exists rest,
        snd (Part000.readMultiline prompt stdin)
        = Value (Join (linesBeforeEmpty stdin) [LF]) rest)
  /\ (forall t w d,
      Part000.commitMessage t w d (Join [] [LF]) = t ++ str "(" ++ w ++ str "): " ++ d).
Proof.
  split; [|split; [|split]].
  - intros prompt body term rest F T. unfold Part000.readMultiline.
    now rewrite collectLines_run.
  - intros prompt body F. unfold Part000.readMultiline.
    now rewrite collectLines_eof.
  - intros prompt stdin O. unfold Part000.readMultiline.
    pose proof (collectLines_linesBeforeEmpty stdin O) as E.
    destruct (Part000.collectLines stdin) as [[t ls] r]. cbn [fst snd] in *.
    subst ls. eauto.
  - reflexivity.
Qed.

Lemma body_collector_witness :
  Part000.readMultiline (str "4.") [str "First reason."; str " - a point"; str "  "; str "y"]
  = ([Print (str "4. (直接回车结束):" ++ [LF]); Scan; Scan; Scan],
     Value (str "First reason." ++ [LF] ++ str " - a point") [str "y"]).
Proof.
  apply (proj1 body_collector (str "4.") [str "First reason."; str " - a point"]
           (str "  ") [str "y"]).
  - repeat constructor; discriminate.
  - reflexivity.
Defined.

(** C8 as stated fails: a line of two spaces is not empty, yet the
    collector stops there and the lines after it are not part of the
    body. *)
Lemma body_collector_counterexample :
  snd (Part000.readMultiline [] [str "a"; str "  "; str "b"; []])
  = Value (str "a") [str "b"; []]
  /\ Join (linesBeforeEmpty [str "a"; str "  "; str "b"; []]) [LF]
     = str "a" ++ [LF] ++ str "  " ++ [LF] ++ str "b"
  /\ snd (Part000.readMultiline [] [str "a"; str "  "; str "b"; []])
     <> Value (Join (linesBeforeEmpty [str "a"; str "  "; str "b"; []]) [LF]) [].
Proof. repeat split. discriminate. Qed.

(** ** Three runs, evaluated *)

(** [main.go]: work item, type 1, description, "y". *)
Example run_main_go_commit :
  @MainGo.main asciiOnly gitStaged MainGo.getCommitTypes
    [str "proj-42"; str "1"; str "Add login flow"; str "y"]
  = ([Git diffArgs; Print (str "=== 自定义提交流程 ===" ++ [LF]);
      Print (str "1. 请输入工单号 (例如 PROJ-1234): "); Scan;
      Print ([LF] ++ str "2. 请选择提交类型:" ++ [LF])]
     ++ MainGo.printMenu MainGo.getCommitTypes
     ++ [Print (str "   请输入编号 (1-10): "); Scan;
         Print ([LF] ++ str "3. 请输入修改内容（英文，首字母大写，不超过72个字符）:" ++ [LF]);
         Print (str "   描述: "); Scan;
         Print ([LF] ++ str "生成的提交信息:" ++ [LF]
                ++ str "feat(proj-42): Add login flow" ++ [LF]);
         Print (str "是否确认提交? (y/n): "); Scan;
         Git (commitArgs (str "feat(proj-42): Add login flow"));
         Print ([LF] ++ str "=== 提交成功 ===" ++ [LF]);
         Print (str "提交内容: feat(proj-42): Add login flow" ++ [LF]);
         Print (str "可以使用 'git push' 推送更改。" ++ [LF])],
     Value tt []).
Proof. reflexivity. Qed.

(** The later revision: the work item in capitals, a rejected type, a body
    of two lines closed by a line of spaces, "Yes". *)
Example run_part000_commit :
  snd (@Part000.main asciiOnly gitStaged
         [str " BCDS-42-Login "; str "eleven"; str "1"; str "Add login flow";
          str "First reason."; str "  indented"; str "   "; str "Yes"])
  = Value tt []
  /\ In (Git (commitArgs (str "feat(bcds-42-login): Add login flow" ++ [LF; LF]
                          ++ str "First reason." ++ [LF] ++ str "  indented")))
       (fst (@Part000.main asciiOnly gitStaged
               [str " BCDS-42-Login "; str "eleven"; str "1"; str "Add login flow";
                str "First reason."; str "  indented"; str "   "; str "Yes"])).
Proof. split; [reflexivity|]. vm_compute. intuition. Qed.

(** The input ends at the work-item prompt after a rejected answer: the
    loop never ends. *)
Example run_main_go_hung :
  @MainGo.main asciiOnly gitStaged MainGo.getCommitTypes [str "PROJ 42"]
  = ([Git diffArgs; Print (str "=== 自定义提交流程 ===" ++ [LF]);
      Print (str "1. 请输入工单号 (例如 PROJ-1234): "); Scan;
      Print (str "工单号格式无效，请重新输入。" ++ [LF])],
     Stop Hung).
Proof. reflexivity. Qed.

(** * Further properties of the two programs *)

(** ** How a run ends *)

Lemma gitCalls_app a b : gitCalls (a ++ b) = gitCalls a ++ gitCalls b.
Proof. apply flat_map_app. Qed.

Lemma gitFree_bind {A B} (m : io A) (k : A -> io B) :
  gitFree m -> (forall a, gitFree (k a)) -> gitFree (bind m k).
Proof.
  intros Qm Qk stdin. rewrite bind_run. specialize (Qm stdin).
  destruct (m stdin) as [t [a rest|st]]; cbn [fst] in *; auto.
  rewrite gitCalls_app, Qm. apply Qk.
Qed.

Lemma gitFree_emit text : gitFree (emit text).
Proof. intros stdin. reflexivity. Qed.

Lemma gitFree_ret {A} (a : A) : gitFree (ret a).
Proof. intros stdin. reflexivity. Qed.

Lemma gitFree_untilValid {A} prompt (accept : gostring -> option A) complaint :
  gitFree (untilValid prompt accept complaint).
Proof.
  intros stdin. induction stdin as [|line more IH]; cbn [untilValid].
  - now destruct (accept (TrimSpace [])).
  - destruct (accept (TrimSpace line)); [reflexivity|].
    destruct (untilValid prompt accept complaint more). exact IH.
Qed.

Lemma gitFree_readMultiline prompt : gitFree (Part000.readMultiline prompt).
Proof.
  intros stdin. unfold Part000.readMultiline.
  assert (Q : gitCalls (fst (fst (Part000.collectLines stdin))) = []).
  { induction stdin as [|line rest IH]; cbn [Part000.collectLines]; [reflexivity|].
    destruct (eqs (TrimSpace line) []); [reflexivity|].
    destruct (Part000.collectLines rest) as [[t ls] r]. exact IH. }
  destruct (Part000.collectLines stdin) as [[t ls] r]. exact Q.
Qed.

Lemma printMenu000_gitFree i cts : gitCalls (Part000.printMenu i cts) = [].
Proof. revert i. induction cts as [|ct cts IH]; intros i; cbn; auto. Qed.

Lemma printMenuMain_gitFree it : gitCalls (MainGo.printMenu it) = [].
Proof. induction it as [|[i ct] it IH]; cbn; auto. Qed.

Lemma gather000_gitFree `{UnicodeCase} : gitFree Part000.gather.
Proof.
  unfold Part000.gather, Part000.askWorkItem, Part000.askCommitType,
    Part000.askDescription, Println.
  repeat first
    [ apply gitFree_untilValid | apply gitFree_emit | apply gitFree_ret
    | apply gitFree_readMultiline
    | apply gitFree_bind; [|intros ?] ].
  intros stdin. apply printMenu000_gitFree.
Qed.

Lemma gatherMain_gitFree `{UnicodeCase} iteration : gitFree (MainGo.gather iteration).
Proof.
  unfold MainGo.gather, MainGo.askWorkItem, MainGo.askCommitType,
    MainGo.askDescription, Println.
  repeat first
    [ apply gitFree_untilValid | apply gitFree_emit | apply gitFree_ret
    | apply gitFree_bind; [|intros ?] ].
  intros stdin. apply printMenuMain_gitFree.
Qed.

(** The confirmation and what follows it, case by case. *)
Lemma confirm000_cases `{UnicodeCase} git msg stdin :
  Part000.confirmAndCommit git msg stdin
  = let shown :=
      [Print ([LF] ++ Part000.ColorGreen ++ str "生成的提交信息:"
              ++ Part000.ColorReset ++ [LF]);
       Print (str "--------------------------------------------------" ++ [LF]);
       Print (msg ++ [LF]);
       Print (str "--------------------------------------------------" ++ [LF]);
       Print (str "是否确认提交? (Y/N): "); Scan] in
    if Part000.cancelled (ToLower (TrimSpace (hd [] stdin)))
    then (shown ++ [Print cancelNotice000], Stop (Exited 0))
    else if snd (git (commitArgs msg))
    then (shown ++ [Git (commitArgs msg);
                    Print (Part000.ColorRed ++ str "提交失败: "
                           ++ fst (git (commitArgs msg)) ++ [LF]
                           ++ Part000.ColorReset)],
          Stop (Exited 1))
    else (shown ++ [Git (commitArgs msg);
                    Print ([LF] ++ Part000.ColorGreen ++ str "=== 提交成功 ==="
                           ++ Part000.ColorReset ++ [LF]);
                    Print (str "提交内容:" ++ [LF] ++ msg ++ [LF]);
                    Print (str "可以使用 'git push' 推送更改。" ++ [LF])],
          Value tt (tl stdin)).
Proof.
  unfold Part000.confirmAndCommit, Println.
  repeat (rewrite emit_bind; cbv beta). rewrite readLine_bind. cbv beta zeta.
  destruct (Part000.cancelled (ToLower (TrimSpace (hd [] stdin)))); [reflexivity|].
  rewrite bind_run. cbn [ret app fst snd]. rewrite git_bind. fold (commitArgs msg).
  destruct (git (commitArgs msg)) as [out err]. cbn [fst snd].
  destruct err; reflexivity.
Qed.

Lemma confirmMain_cases `{UnicodeCase} git msg stdin :
  MainGo.confirmAndCommit git msg stdin
  = let shown :=
      [Print ([LF] ++ str "生成的提交信息:" ++ [LF] ++ msg ++ [LF]);
       Print (str "是否确认提交? (y/n): "); Scan] in
    if MainGo.cancelled (TrimSpace (hd [] stdin))
    then (shown ++ [Print cancelNoticeMain], Stop (Exited 0))
    else if snd (git (commitArgs msg))
    then (shown ++ [Git (commitArgs msg);
                    Print (str "提交失败: " ++ fst (git (commitArgs msg)) ++ [LF])],
          Stop (Exited 1))
    else (shown ++ [Git (commitArgs msg);
                    Print ([LF] ++ str "=== 提交成功 ===" ++ [LF]);
                    Print (str "提交内容: " ++ msg ++ [LF]);
                    Print (str "可以使用 'git push' 推送更改。" ++ [LF])],
          Value tt (tl stdin)).
Proof.
  unfold MainGo.confirmAndCommit, MainGo.readInput, Println.
  repeat (rewrite emit_bind; cbv beta). rewrite readLine_bind. cbv beta zeta.
  destruct (MainGo.cancelled (TrimSpace (hd [] stdin))); [reflexivity|].
  rewrite bind_run. cbn [ret app fst snd]. rewrite git_bind. fold (commitArgs msg).
  destruct (git (commitArgs msg)) as [out err]. cbn [fst snd].
  destruct err; reflexivity.
Qed.

(** A whole run, by what the query and the inputs give. *)
Lemma main000_cases `{UnicodeCase} git stdin :
  Part000.main git stdin
  = if snd (git diffArgs)
    then match Part000.gather stdin with
         | (t, Value msg rest) =>
             (Git diffArgs
                :: Print (Part000.ColorCyan
                          ++ str "=== Git 提交助手 (Custom Commit CLI) ==="
                          ++ Part000.ColorReset ++ [LF])
                :: t ++ fst (Part000.confirmAndCommit git msg rest),
              snd (Part000.confirmAndCommit git msg rest))
         | (t, Stop st) =>
             (Git diffArgs
                :: Print (Part000.ColorCyan
                          ++ str "=== Git 提交助手 (Custom Commit CLI) ==="
                          ++ Part000.ColorReset ++ [LF])
                :: t, Stop st)
         end
    else ([Git diffArgs;
           Print (Part000.ColorRed
                  ++ str "错误：没有暂存的更改，请先使用 'git add' 添加文件。"
                  ++ Part000.ColorReset ++ [LF])],
          Stop (Exited 1)).
Proof.
  unfold Part000.main. rewrite git_bind. fold diffArgs.
  destruct (git diffArgs) as [out err]. cbn [snd].
  destruct err; [|reflexivity].
  cbn [negb]. rewrite bind_run. cbn [ret app fst snd].
  unfold Println. rewrite emit_bind, bind_run.
  destruct (Part000.gather stdin) as [t [msg rest|st]]; reflexivity.
Qed.

Lemma mainGo_cases `{UnicodeCase} git iteration stdin :
  MainGo.main git iteration stdin
  = if snd (git diffArgs)
    then match MainGo.gather iteration stdin with
         | (t, Value msg rest) =>
             (Git diffArgs :: Print (str "=== 自定义提交流程 ===" ++ [LF])
                :: t ++ fst (MainGo.confirmAndCommit git msg rest),
              snd (MainGo.confirmAndCommit git msg rest))
         | (t, Stop st) =>
             (Git diffArgs :: Print (str "=== 自定义提交流程 ===" ++ [LF]) :: t,
              Stop st)
         end
    else ([Git diffArgs;
           Print (str "错误：没有暂存的更改，请先使用 'git add' 添加文件。" ++ [LF])],
          Stop (Exited 1)).
Proof.
  unfold MainGo.main. rewrite git_bind. fold diffArgs.
  destruct (git diffArgs) as [out err]. cbn [snd].
  destruct err; [|reflexivity].
  cbn [negb]. rewrite bind_run. cbn [ret app fst snd].
  unfold Println. rewrite emit_bind, bind_run.
  destruct (MainGo.gather iteration stdin) as [t [msg rest|st]]; reflexivity.
Qed.

Lemma untilValid_stop {A} prompt (accept : gostring -> option A) complaint stdin st :
  snd (untilValid prompt accept complaint stdin) = Stop st -> st = Hung.
Proof.
  induction stdin as [|line more IH]; cbn [untilValid].
  - destruct (accept (TrimSpace [])); cbn [snd]; congruence.
  - destruct (accept (TrimSpace line)); [discriminate|].
    destruct (untilValid prompt accept complaint more). exact IH.
Qed.

Lemma bind_stop {A B} (m : io A) (k : A -> io B) stdin st :
  snd (bind m k stdin) = Stop st ->
  snd (m stdin) = Stop st
  \/ exists t a rest, m stdin = (t, Value a rest) /\ snd (k a rest) = Stop st.
Proof.
  rewrite bind_run. destruct (m stdin) as [t [a rest|st']]; cbn [snd].
  - intros E. right. exists t, a, rest. split; [reflexivity | exact E].
  - intros E. left. injection E as ->. reflexivity.
Qed.

Lemma gather000_stop `{UnicodeCase} stdin st :
  snd (Part000.gather stdin) = Stop st -> st = Hung.
Proof.
  unfold Part000.gather. intros G.
  apply bind_stop in G as [G|(? & ? & r1 & _ & G)];
    [eapply untilValid_stop; exact G|].
  apply bind_stop in G as [G|(? & ? & r2 & E2 & G)]; [discriminate|].
  apply bind_stop in G as [G|(? & ? & r3 & E3 & G)]; [discriminate|].
  apply bind_stop in G as [G|(? & ? & r4 & _ & G)];
    [eapply untilValid_stop; exact G|].
  apply bind_stop in G as [G|(? & ? & r5 & E5 & G)]; [discriminate|].
  apply bind_stop in G as [G|(? & ? & r6 & _ & G)];
    [eapply untilValid_stop; exact G|].
  apply bind_stop in G as [G|(? & ? & r7 & E7 & G)]; [|discriminate].
  unfold Part000.readMultiline in G.
  destruct (Part000.collectLines r6) as [[tc ls] rc]. discriminate.
Qed.

Lemma gatherMain_stop `{UnicodeCase} iteration stdin st :
  snd (MainGo.gather iteration stdin) = Stop st -> st = Hung.
Proof.
  unfold MainGo.gather. intros G.
  apply bind_stop in G as [G|(? & ? & r1 & _ & G)];
    [eapply untilValid_stop; exact G|].
  apply bind_stop in G as [G|(? & ? & r2 & E2 & G)]; [discriminate|].
  apply bind_stop in G as [G|(? & ? & r3 & E3 & G)]; [discriminate|].
  apply bind_stop in G as [G|(? & ? & r4 & _ & G)];
    [eapply untilValid_stop; exact G|].
  apply bind_stop in G as [G|(? & ? & r5 & E5 & G)]; [discriminate|].
  apply bind_stop in G as [G|(? & ? & r6 & _ & G)];
    [eapply untilValid_stop; exact G|discriminate].
Qed.

Lemma gather000_validated `{UnicodeCase} stdin t msg rest :
  Part000.gather stdin = (t, Value msg rest) -> validated000 msg.
Proof. intros G. eapply gather000_value. exact G. Qed.

Lemma gatherMain_validated `{UnicodeCase} iteration stdin t msg rest :
  MainGo.gather iteration stdin = (t, Value msg rest) -> validatedMain msg.
Proof. intros G. eapply gatherMain_value. exact G. Qed.

(** X1.  Every run of the later revision ends in one of five ways, whatever
    git answers and whatever is entered.  Nothing staged: exit status 1
    after the query alone.  The input ends inside a retry loop: the run
    never ends.  The four inputs are gathered and the answer at the
    confirmation is not "y" or "yes" in either case: the cancellation
    message, exit status 0, no commit.  Otherwise [git commit -m] runs
    once, directly after the answer to the confirmation has been read,
    with a message built from validated inputs, and that answer is "y" or
    "yes" in either case of the letters (for an answer with a byte above
    127, given what [lowerKeepsForeign] says of the case tables): if the
    command fails its raw output is the last thing printed and the status
    is 1, if it succeeds the run ends with the push hint and [main]
    returns.  [git diff] is the first command in every case and there is
    never a third. *)
Theorem run_outcomes000 `{UnicodeCase} (git : gitworld) (stdin : list gostring) :
  let tr := fst (Part000.main git stdin) in
  let st := snd (Part000.main git stdin) in
  (snd (git diffArgs) = false /\ st = Stop (Exited 1) /\ gitCalls tr = [diffArgs])
  \/ (snd (git diffArgs) = true /\ st = Stop Hung /\ gitCalls tr = [diffArgs])
  \/ (snd (git diffArgs) = true /\ st = Stop (Exited 0)
      /\ last tr Scan = Print cancelNotice000 /\ gitCalls tr = [diffArgs]
      /\ exists t msg rest,
           Part000.gather stdin = (t, Value msg rest)
           /\ affirmative (TrimSpace (hd [] rest)) = false)
  \/ (exists msg,
        snd (git diffArgs) = true /\ validated000 msg
        /\ gitCalls tr = [diffArgs; commitArgs msg]
        /\ (exists t rest pre post,
              Part000.gather stdin = (t, Value msg rest)
              /\ (isASCII (TrimSpace (hd [] rest)) = true \/ lowerKeepsForeign ->
                  affirmative (TrimSpace (hd [] rest)) = true)
              /\ tr = pre ++ [Print (str "是否确认提交? (Y/N): "); Scan;
                              Git (commitArgs msg)] ++ post
              /\ gitCalls pre = [diffArgs])
        /\ ((snd (git (commitArgs msg)) = true /\ st = Stop (Exited 1)
             /\ last tr Scan
                = Print (Part000.ColorRed ++ str "提交失败: "
                         ++ fst (git (commitArgs msg)) ++ [LF]
                         ++ Part000.ColorReset))
            \/ (snd (git (commitArgs msg)) = false
                /\ (exists rest, st = Value tt rest)
                /\ last tr Scan
                   = Print (str "可以使用 'git push' 推送更改。" ++ [LF])))).
Proof.
  intros tr st. subst tr st. rewrite main000_cases.
  destruct (snd (git diffArgs)) eqn:D; [|left; repeat split].
  right.
  pose proof (gather000_gitFree stdin) as Q.
  destruct (Part000.gather stdin) as [t [msg rest|s]] eqn:G; cbn [fst snd] in *.
  - pose proof (gather000_validated _ _ _ _ G) as V.
    rewrite confirm000_cases. cbv zeta.
    destruct (Part000.cancelled (ToLower (TrimSpace (hd [] rest)))) eqn:C.
    + right. left. cbn [fst snd].
      split; [reflexivity|]. split; [reflexivity|]. split; [|split].
      * rewrite !app_comm_cons, app_assoc. apply last_last.
      * change (Git diffArgs :: ?x) with ([Git diffArgs] ++ x).
        rewrite !gitCalls_app. cbn [gitCalls flat_map app].
        rewrite gitCalls_app, Q. reflexivity.
      * exists t, msg, rest. split; [reflexivity|].
        destruct (affirmative (TrimSpace (hd [] rest))) eqn:F; [|reflexivity].
        rewrite cancelled000_ascii in C by now apply affirmative_ascii.
        rewrite F in C. discriminate.
    + right. right. exists msg. split; [reflexivity|]. split; [exact V|].
      assert (Y : isASCII (TrimSpace (hd [] rest)) = true \/ lowerKeepsForeign ->
                  affirmative (TrimSpace (hd [] rest)) = true).
      { intros K. destruct (affirmative (TrimSpace (hd [] rest))) eqn:F;
          [reflexivity|].
        destruct K as [A|K].
        - rewrite cancelled000_ascii in C by exact A. rewrite F in C. discriminate.
        - rewrite cancelled000_other in C by assumption. discriminate. }
      set (pre := Git diffArgs
             :: Print (Part000.ColorCyan ++ str "=== Git 提交助手 (Custom Commit CLI) ==="
                       ++ Part000.ColorReset ++ [LF])
             :: t ++ [Print ([LF] ++ Part000.ColorGreen ++ str "生成的提交信息:"
                             ++ Part000.ColorReset ++ [LF]);
                      Print (str "--------------------------------------------------"
                             ++ [LF]);
                      Print (msg ++ [LF]);
                      Print (str "--------------------------------------------------"
                             ++ [LF])]).
      assert (P : gitCalls pre = [diffArgs]).
      { subst pre. change (Git diffArgs :: ?x) with ([Git diffArgs] ++ x).
        rewrite gitCalls_app. cbn [gitCalls flat_map app].
        rewrite gitCalls_app, Q. reflexivity. }
      destruct (snd (git (commitArgs msg))) eqn:E; cbn [fst snd].
      * split; [|split].
        -- change (Git diffArgs :: ?x) with ([Git diffArgs] ++ x).
           rewrite !gitCalls_app. cbn [gitCalls flat_map app].
           rewrite gitCalls_app, Q. reflexivity.
        -- exists t, rest, pre. eexists. split; [reflexivity|]. split; [exact Y|].
           split; [|exact P]. subst pre. cbn [app]. rewrite <- app_assoc.
           reflexivity.
        -- left. repeat split.
           rewrite !app_comm_cons. rewrite last_after by discriminate. reflexivity.
      * split; [|split].
        -- change (Git diffArgs :: ?x) with ([Git diffArgs] ++ x).
           rewrite !gitCalls_app. cbn [gitCalls flat_map app].
           rewrite gitCalls_app, Q. reflexivity.
        -- exists t, rest, pre. eexists. split; [reflexivity|]. split; [exact Y|].
           split; [|exact P]. subst pre. cbn [app]. rewrite <- app_assoc.
           reflexivity.
        -- right. repeat split; eauto.
           rewrite !app_comm_cons. rewrite last_after by discriminate. reflexivity.
  - left. assert (s = Hung) by (apply (gather000_stop stdin); now rewrite G).
    subst s. repeat split. cbn [gitCalls flat_map app]. fold (gitCalls t).
    now rewrite Q.
Qed.

Lemma run_outcomes000_witness :
  exists msg pre post,
    validated000 msg
    /\ fst (@Part000.main asciiOnly gitStaged
              [str "bcds-42"; str "1"; str "Add login flow"; []; str "Yes"])
       = pre ++ [Print (str "是否确认提交? (Y/N): "); Scan; Git (commitArgs msg)] ++ post
    /\ gitCalls pre = [diffArgs]
    /\ gitCalls (fst (@Part000.main asciiOnly gitStaged
                        [str "bcds-42"; str "1"; str "Add login flow"; []; str "Yes"]))
       = [diffArgs; commitArgs msg].
Proof.
  destruct (@run_outcomes000 asciiOnly gitStaged
              [str "bcds-42"; str "1"; str "Add login flow"; []; str "Yes"])
    as [(D & _)|[(_ & S & _)|[(_ & S & _)
        |(msg & _ & V & G & (t & rest & pre & post & _ & _ & T & P) & _)]]].
  - vm_compute in D. discriminate.
  - vm_compute in S. discriminate.
  - vm_compute in S. discriminate.
  - exists msg, pre, post. split; [exact V|]. split; [exact T|].
    split; [exact P | exact G].
Defined.

(** X2.  The same for [main.go], for every order in which the runtime
    yields the catalog: five ways to end, [git diff] first, at most one
    [git commit -m], and that one with a message built from validated
    inputs. *)
Theorem run_outcomesMain `{UnicodeCase} (git : gitworld)
    (iteration : list (Z * MainGo.CommitType)) (stdin : list gostring) :
  let tr := fst (MainGo.main git iteration stdin) in
  let st := snd (MainGo.main git iteration stdin) in
  (snd (git diffArgs) = false /\ st = Stop (Exited 1) /\ gitCalls tr = [diffArgs])
  \/ (snd (git diffArgs) = true /\ st = Stop Hung /\ gitCalls tr = [diffArgs])
  \/ (snd (git diffArgs) = true /\ st = Stop (Exited 0)
      /\ last tr Scan = Print cancelNoticeMain /\ gitCalls tr = [diffArgs])
  \/ (exists msg,
        snd (git diffArgs) = true /\ validatedMain msg
        /\ gitCalls tr = [diffArgs; commitArgs msg]
        /\ ((snd (git (commitArgs msg)) = true /\ st = Stop (Exited 1)
             /\ last tr Scan
                = Print (str "提交失败: " ++ fst (git (commitArgs msg)) ++ [LF]))
            \/ (snd (git (commitArgs msg)) = false
                /\ (exists rest, st = Value tt rest)
                /\ last tr Scan
                   = Print (str "可以使用 'git push' 推送更改。" ++ [LF])))).
Proof.
  intros tr st. subst tr st. rewrite mainGo_cases.
  destruct (snd (git diffArgs)) eqn:D; [|left; repeat split].
  right.
  pose proof (gatherMain_gitFree iteration stdin) as Q.
  destruct (MainGo.gather iteration stdin) as [t [msg rest|s]] eqn:G;
    cbn [fst snd] in *.
  - pose proof (gatherMain_validated _ _ _ _ _ G) as V.
    rewrite confirmMain_cases. cbv zeta.
    destruct (MainGo.cancelled (TrimSpace (hd [] rest))).
    + right. left. cbn [fst snd]. repeat split.
      * rewrite !app_comm_cons, app_assoc. apply last_last.
      * change (Git diffArgs :: ?x) with ([Git diffArgs] ++ x).
        rewrite !gitCalls_app. cbn [gitCalls flat_map app].
        rewrite gitCalls_app, Q. reflexivity.
    + right. right. exists msg. split; [reflexivity|]. split; [exact V|].
      destruct (snd (git (commitArgs msg))) eqn:C; cbn [fst snd].
      * split.
        -- change (Git diffArgs :: ?x) with ([Git diffArgs] ++ x).
           rewrite !gitCalls_app. cbn [gitCalls flat_map app].
           rewrite gitCalls_app, Q. reflexivity.
        -- left. repeat split.
           rewrite !app_comm_cons. rewrite last_after by discriminate. reflexivity.
      * split.
        -- change (Git diffArgs :: ?x) with ([Git diffArgs] ++ x).
           rewrite !gitCalls_app. cbn [gitCalls flat_map app].
           rewrite gitCalls_app, Q. reflexivity.
        -- right. repeat split; eauto.
           rewrite !app_comm_cons. rewrite last_after by discriminate. reflexivity.
  - left. assert (s = Hung) by (apply (gatherMain_stop iteration stdin); now rewrite G).
    subst s. repeat split. cbn [gitCalls flat_map app]. fold (gitCalls t).
    now rewrite Q.
Qed.

(** ** The retry loops *)


Lemma untilValid_exhausted {A} prompt (accept : gostring -> option A) complaint bad :
  Forall (fun l => accept (TrimSpace l) = None) bad ->
  accept (TrimSpace []) = None ->
  untilValid prompt accept complaint bad
  = (concat (map (fun _ => [Print prompt; Scan; Print complaint]) bad), Stop Hung).
Proof.
  intros F E. induction F as [|l bad N F IH]; cbn [map concat].
  - cbn [untilValid]. now rewrite E.
  - rewrite untilValid_reject by exact N. rewrite IH. reflexivity.
Qed.

Lemma filter_turns {A} (p : event -> bool) (turn : list event) (bad : list A) :
  length (filter p (concat (map (fun _ => turn) bad)))
  = (length bad * length (filter p turn))%nat.
Proof.
  induction bad as [|l bad IH]; cbn [map concat length]; [reflexivity|].
  rewrite filter_app, length_app, IH. cbn [Nat.mul]. lia.
Qed.

Lemma untilValid_retriesTo {A} prompt (accept : gostring -> option A) complaint :
  retriesTo (untilValid prompt accept complaint) accept.
Proof.
  intros bad good a rest F G.
  rewrite (untilValid_retries prompt accept complaint bad good a rest F G).
  cbn [fst snd]. split; [reflexivity|].
  rewrite !filter_app, !length_app, !filter_turns. cbn. lia.
Qed.

Lemma untilValid_hangsAtEnd {A} prompt (accept : gostring -> option A) complaint :
  accept (TrimSpace []) = None ->
  hangsAtEnd (untilValid prompt accept complaint) accept.
Proof.
  intros E. split; [exact E|]. intros bad F.
  rewrite (untilValid_exhausted prompt accept complaint bad F E).
  cbn [fst snd]. split; [reflexivity|].
  rewrite filter_turns. cbn. lia.
Qed.

(** X3.  Each of the three retry loops, in both versions, gets through any
    number of rejected answers and then yields the first accepted one: one
    prompt, one read and one complaint per rejected line, and the lines
    after the accepted one stay unread. *)
Theorem retries_unbounded `{UnicodeCase} :
  retriesTo Part000.askWorkItem Part000.acceptWorkItem
  /\ (forall cts, retriesTo (Part000.askCommitType cts) (Part000.acceptType cts))
  /\ retriesTo Part000.askDescription Part000.acceptDescription
  /\ retriesTo MainGo.askWorkItem MainGo.acceptWorkItem
  /\ (forall cts, retriesTo (MainGo.askCommitType cts) (MainGo.acceptType cts))
  /\ retriesTo MainGo.askDescription MainGo.acceptDescription.
Proof.
  unfold Part000.askWorkItem, Part000.askCommitType, Part000.askDescription,
    MainGo.askWorkItem, MainGo.askCommitType, MainGo.askDescription.
  split; [apply untilValid_retriesTo|].
  split; [intros; apply untilValid_retriesTo|].
  split; [apply untilValid_retriesTo|].
  split; [apply untilValid_retriesTo|].
  split; [intros; apply untilValid_retriesTo | apply untilValid_retriesTo].
Qed.

Lemma retries_unbounded_witness :
  snd (@Part000.askWorkItem asciiOnly
         [str "proj-1"; []; str "bcds"; str " BCDS-7 "; str "1"])
  = Value (str "bcds-7") [str "1"]
  /\ length (filter isScan
               (fst (@Part000.askWorkItem asciiOnly
                       [str "proj-1"; []; str "bcds"; str " BCDS-7 "; str "1"])))
     = 4%nat.
Proof.
  pose proof (proj1 (@retries_unbounded asciiOnly)
                [str "proj-1"; []; str "bcds"] (str " BCDS-7 ") (str "bcds-7")
                [str "1"]) as R.
  destruct R as (V & S & _).
  - repeat constructor.
  - reflexivity.
  - split; [exact V | exact S].
Defined.

Lemma gather000_hung `{UnicodeCase} stdin :
  snd (Part000.askWorkItem stdin) = Stop Hung ->
  snd (Part000.gather stdin) = Stop Hung.
Proof.
  intros E. unfold Part000.gather. rewrite bind_run.
  destruct (Part000.askWorkItem stdin) as [t [a r|st]]; cbn [snd] in *;
    [discriminate | congruence].
Qed.

Lemma gatherMain_hung `{UnicodeCase} iteration stdin :
  snd (MainGo.askWorkItem stdin) = Stop Hung ->
  snd (MainGo.gather iteration stdin) = Stop Hung.
Proof.
  intros E. unfold MainGo.gather. rewrite bind_run.
  destruct (MainGo.askWorkItem stdin) as [t [a r|st]]; cbn [snd] in *;
    [discriminate | congruence].
Qed.

(** X4.  In both versions the empty answer is rejected at all three
    prompts, so a retry loop whose input ends before an answer is accepted
    never ends; a run with staged changes whose whole input is rejected at
    the work-item prompt never exits, and in particular never commits. *)
Theorem retry_loops_hang_at_end_of_input `{UnicodeCase} (git : gitworld)
    (iteration : list (Z * MainGo.CommitType)) :
  hangsAtEnd Part000.askWorkItem Part000.acceptWorkItem
  /\ (forall cts, hangsAtEnd (Part000.askCommitType cts) (Part000.acceptType cts))
  /\ hangsAtEnd Part000.askDescription Part000.acceptDescription
  /\ hangsAtEnd MainGo.askWorkItem MainGo.acceptWorkItem
  /\ (forall cts, hangsAtEnd (MainGo.askCommitType cts) (MainGo.acceptType cts))
  /\ hangsAtEnd MainGo.askDescription MainGo.acceptDescription
  /\ (forall stdin,
        snd (git diffArgs) = true ->
        Forall (fun l => Part000.acceptWorkItem (TrimSpace l) = None) stdin ->
        snd (Part000.main git stdin) = Stop Hung
        /\ gitCalls (fst (Part000.main git stdin)) = [diffArgs])
  /\ (forall stdin,
        snd (git diffArgs) = true ->
        Forall (fun l => MainGo.acceptWorkItem (TrimSpace l) = None) stdin ->
        snd (MainGo.main git iteration stdin) = Stop Hung
        /\ gitCalls (fst (MainGo.main git iteration stdin)) = [diffArgs]).
Proof.
  assert (W0 : hangsAtEnd Part000.askWorkItem Part000.acceptWorkItem)
    by (apply untilValid_hangsAtEnd; reflexivity).
  assert (W1 : hangsAtEnd MainGo.askWorkItem MainGo.acceptWorkItem)
    by (apply untilValid_hangsAtEnd; reflexivity).
  split; [exact W0|]. split; [intros; apply untilValid_hangsAtEnd; reflexivity|].
  split; [apply untilValid_hangsAtEnd; reflexivity|].
  split; [exact W1|]. split; [intros; apply untilValid_hangsAtEnd; reflexivity|].
  split; [apply untilValid_hangsAtEnd; reflexivity|].
  split.
  - intros stdin D F. destruct W0 as [_ W0]. destruct (W0 stdin F) as [E _].
    apply gather000_hung in E. rewrite main000_cases, D.
    pose proof (gather000_gitFree stdin) as Q.
    destruct (Part000.gather stdin) as [t [a r|st]]; cbn [fst snd] in *;
      [discriminate|].
    injection E as ->.
    split; [reflexivity|]. cbn [gitCalls flat_map app]. fold (gitCalls t). now rewrite Q.
  - intros stdin D F. destruct W1 as [_ W1]. destruct (W1 stdin F) as [E _].
    apply (gatherMain_hung iteration) in E. rewrite mainGo_cases, D.
    pose proof (gatherMain_gitFree iteration stdin) as Q.
    destruct (MainGo.gather iteration stdin) as [t [a r|st]]; cbn [fst snd] in *;
      [discriminate|].
    injection E as ->.
    split; [reflexivity|]. cbn [gitCalls flat_map app]. fold (gitCalls t). now rewrite Q.
Qed.

Lemma retry_loops_hang_at_end_of_input_witness :
  snd (@Part000.main asciiOnly gitStaged [str "proj-1"; str "bcds-"; []])
  = Stop Hung.
Proof.
  pose proof (@retry_loops_hang_at_end_of_input asciiOnly gitStaged [])
    as (_ & _ & _ & _ & _ & _ & P & _).
  apply (P [str "proj-1"; str "bcds-"; []] eq_refl).
  repeat constructor.
Defined.

(** ** End of input after the retry loops *)

(** X5.  End of input does not hang the run outside the retry loops.  At
    the body prompt it closes the body, which is then empty; a run that
    reaches the confirmation with no line left is cancelled, with exit
    status 0 and without a commit.  Both versions. *)
Theorem end_of_input_cancels `{UnicodeCase} (git : gitworld)
    (iteration : list (Z * MainGo.CommitType)) (stdin : list gostring) :
  snd (git diffArgs) = true ->
  (forall t msg,
      Part000.gather stdin = (t, Value msg []) ->
      cancelledRun cancelNotice000 (Part000.main git stdin))
  /\ (forall t msg,
      MainGo.gather iteration stdin = (t, Value msg []) ->
      cancelledRun cancelNoticeMain (MainGo.main git iteration stdin))
  /\ (forall prompt,
      Part000.readMultiline prompt []
      = ([Print (prompt ++ str " (直接回车结束):" ++ [LF]); Scan], Value [] [])).
Proof.
  intros D. split; [|split; [|reflexivity]].
  - intros t msg G. rewrite (main000_staged git stdin t msg [] D G).
    apply (cancelledRun_after cancelNotice000 (_ :: _ :: t)).
    + pose proof (gather000_quiet stdin) as Q. now rewrite G in Q.
    + apply confirm000_cancel. reflexivity.
  - intros t msg G. rewrite (mainGo_staged git iteration stdin t msg [] D G).
    apply (cancelledRun_after cancelNoticeMain (_ :: _ :: t)).
    + pose proof (gatherMain_quiet iteration stdin) as Q. now rewrite G in Q.
    + apply confirmMain_cancel. reflexivity.
Qed.

Lemma end_of_input_cancels_witness :
  cancelledRun cancelNotice000
    (@Part000.main asciiOnly gitStaged [str "bcds-9"; str "2"; str "Fix typo"]).
Proof.
  apply (proj1 (@end_of_input_cancels asciiOnly gitStaged []
                  [str "bcds-9"; str "2"; str "Fix typo"] eq_refl)
           (fst (@Part000.gather asciiOnly [str "bcds-9"; str "2"; str "Fix typo"]))
           (str "fix(bcds-9): Fix typo")).
  reflexivity.
Defined.

(** ** The type selector on any catalog *)

Lemma lookup_None m key :
  MainGo.lookup m key = None <-> ~ In key (map fst m).
Proof.
  induction m as [|[k v] m IH]; cbn [MainGo.lookup map In fst].
  - tauto.
  - destruct (Z.eqb_spec k key) as [->|N].
    + split; [discriminate | intros X; exfalso; apply X; now left].
    + rewrite IH. tauto.
Qed.

(** X6.  For any catalog, the selector of the later revision rejects an
    input exactly when it does not parse or parses to a number outside
    1..len: inside that range the slice is never indexed out of bounds, and
    what is selected is the code of an entry.  The selector of [main.go]
    rejects exactly when the input does not parse or the number is no key
    of the map. *)
Theorem selector_never_out_of_range :
  (forall cts input,
      Part000.acceptType cts input = None
      <-> (forall n, Atoi input = Some n ->
                     (n < 1 \/ Z.of_nat (length cts) < n)%Z))
  /\ (forall cts input c,
      Part000.acceptType cts input = Some c -> In c (map Part000.code cts))
  /\ (forall cts input,
      MainGo.acceptType cts input = None
      <-> (forall n, Atoi input = Some n -> ~ In n (map fst cts)))
  /\ (forall cts input c,
      MainGo.acceptType cts input = Some c ->
      exists n ct, Atoi input = Some n /\ In (n, ct) cts /\ c = MainGo.code ct).
Proof.
  split; [|split; [|split]].
  - intros cts input. unfold Part000.acceptType.
    destruct (Atoi input) as [n|]; [|split; [discriminate | reflexivity]].
    destruct (Z.leb_spec 1 n) as [L1|L1]; cbn [andb].
    + destruct (Z.leb_spec n (Z.of_nat (length cts))) as [L2|L2].
      * destruct (nth_error cts (Z.to_nat (n - 1))) as [ct|] eqn:E.
        -- cbn [option_map]. split; [discriminate|].
           intros X. specialize (X n eq_refl). lia.
        -- apply nth_error_None in E. lia.
      * split; [|reflexivity]. intros _ m M. injection M as <-. lia.
    + split; [|reflexivity]. intros _ m M. injection M as <-. lia.
  - intros cts input c. unfold Part000.acceptType.
    destruct (Atoi input) as [n|]; [|discriminate].
    destruct ((1 <=? n)%Z && _); [|discriminate].
    destruct (nth_error _ _) as [ct|] eqn:E; [|discriminate].
    intros X. injection X as <-. apply in_map. eapply nth_error_In. exact E.
  - intros cts input. unfold MainGo.acceptType.
    destruct (Atoi input) as [n|]; [|split; [discriminate | reflexivity]].
    destruct (MainGo.lookup cts n) as [ct|] eqn:E; cbn [option_map].
    + split; [discriminate|]. intros X. exfalso.
      apply (X n eq_refl). apply lookup_In in E.
      change n with (fst (n, ct)). now apply in_map.
    + split; [|reflexivity]. intros _ m M. injection M as <-.
      now apply lookup_None.
  - intros cts input c. unfold MainGo.acceptType.
    destruct (Atoi input) as [n|]; [|discriminate].
    destruct (MainGo.lookup cts n) as [ct|] eqn:E; [|discriminate].
    intros X. injection X as <-. exists n, ct. repeat split. now apply lookup_In.
Qed.

Lemma selector_never_out_of_range_witness :
  In (str "fix")
    (map Part000.code
       [ {| Part000.code := str "feat"; Part000.description := [] |};
         {| Part000.code := str "fix"; Part000.description := [] |} ]).
Proof.
  apply (proj1 (proj2 selector_never_out_of_range) _ (str "+2")).
  reflexivity.
Defined.

(** X7.  On the catalog each version has, the two selectors are the same
    function of the input: the map keyed 1..10 and the slice indexed
    [choice-1] select the same code and reject the same inputs. *)
Theorem selectors_agree (input : gostring) :
  Part000.acceptType Part000.getCommitTypes input
  = MainGo.acceptType MainGo.getCommitTypes input.
Proof.
  unfold Part000.acceptType, MainGo.acceptType.
  destruct (Atoi input) as [n|]; [|reflexivity].
  destruct (Z.leb_spec 1 n) as [L1|L1];
    [destruct (Z.leb_spec n 10) as [L2|L2]|].
  - assert (R : (1 <= n <= 10)%Z) by lia. apply small_cases in R.
    repeat (destruct R as [->|R]; [reflexivity|]). subst. reflexivity.
  - rewrite lookupMain_outside by lia.
    change (Z.of_nat (length Part000.getCommitTypes)) with 10%Z.
    destruct (Z.leb_spec 1 n), (Z.leb_spec n 10); try reflexivity; lia.
  - rewrite lookupMain_outside by lia.
    destruct (Z.leb_spec 1 n); [lia | reflexivity].
Qed.

(** ** A whole session *)

Lemma snd_bind {A B} (m : io A) (k : A -> io B) stdin t a r :
  m stdin = (t, Value a r) -> snd (bind m k stdin) = snd (k a r).
Proof. intros E. rewrite bind_run, E. reflexivity. Qed.

Lemma readMultiline_run prompt body term rest :
  Forall (fun l => TrimSpace l <> []) body -> TrimSpace term = [] ->
  Part000.readMultiline prompt (body ++ term :: rest)
  = (Print (prompt ++ str " (直接回车结束):" ++ [LF]) :: repeat Scan (S (length body)),
     Value (Join body [LF]) rest).
Proof. intros F T. unfold Part000.readMultiline. now rewrite collectLines_run. Qed.

Lemma rejected_description000 bad :
  Forall (fun l => Part000.validateEnglishDescription (TrimSpace l) = false) bad ->
  Forall (fun l => Part000.acceptDescription (TrimSpace l) = None) bad.
Proof.
  apply Forall_impl. intros l E. unfold Part000.acceptDescription. now rewrite E.
Qed.

Lemma rejected_descriptionMain `{UnicodeCase} bad :
  Forall (fun l => MainGo.validateEnglishDescription (TrimSpace l) = false) bad ->
  Forall (fun l => MainGo.acceptDescription (TrimSpace l) = None) bad.
Proof.
  apply Forall_impl. intros l E. unfold MainGo.acceptDescription. now rewrite E.
Qed.

Lemma gather000_session `{UnicodeCase}
    (bad1 bad2 bad3 body rest : list gostring) (w n d term wi t : gostring) :
  Forall (fun l => Part000.acceptWorkItem (TrimSpace l) = None) bad1 ->
  Part000.acceptWorkItem (TrimSpace w) = Some wi ->
  Forall (fun l => Part000.acceptType Part000.getCommitTypes (TrimSpace l) = None) bad2 ->
  Part000.acceptType Part000.getCommitTypes (TrimSpace n) = Some t ->
  Forall (fun l => Part000.validateEnglishDescription (TrimSpace l) = false) bad3 ->
  Part000.validateEnglishDescription (TrimSpace d) = true ->
  Forall (fun l => TrimSpace l <> []) body ->
  TrimSpace term = [] ->
  snd (Part000.gather (bad1 ++ w :: bad2 ++ n :: bad3 ++ d :: body ++ term :: rest))
  = Value (Part000.commitMessage t wi (TrimSpace d) (Join body [LF])) rest.
Proof.
  intros B1 W B2 N B3 D Bd T.
  assert (D' : Part000.acceptDescription (TrimSpace d) = Some (TrimSpace d))
    by (unfold Part000.acceptDescription; now rewrite D).
  apply rejected_description000 in B3.
  unfold Part000.gather, Part000.askWorkItem, Part000.askCommitType,
    Part000.askDescription.
  erewrite snd_bind by (apply untilValid_retries; eassumption).
  erewrite snd_bind by reflexivity.
  erewrite snd_bind by reflexivity.
  erewrite snd_bind by (apply untilValid_retries; eassumption).
  erewrite snd_bind by reflexivity.
  erewrite snd_bind by (apply untilValid_retries; eassumption).
  erewrite snd_bind by (apply readMultiline_run; assumption).
  reflexivity.
Qed.

Lemma gatherMain_session `{UnicodeCase} (iteration : list (Z * MainGo.CommitType))
    (bad1 bad2 bad3 rest : list gostring) (w n d wi t : gostring) :
  Forall (fun l => MainGo.acceptWorkItem (TrimSpace l) = None) bad1 ->
  MainGo.acceptWorkItem (TrimSpace w) = Some wi ->
  Forall (fun l => MainGo.acceptType MainGo.getCommitTypes (TrimSpace l) = None) bad2 ->
  MainGo.acceptType MainGo.getCommitTypes (TrimSpace n) = Some t ->
  Forall (fun l => MainGo.validateEnglishDescription (TrimSpace l) = false) bad3 ->
  MainGo.validateEnglishDescription (TrimSpace d) = true ->
  snd (MainGo.gather iteration (bad1 ++ w :: bad2 ++ n :: bad3 ++ d :: rest))
  = Value (MainGo.commitMessage t wi (TrimSpace d)) rest.
Proof.
  intros B1 W B2 N B3 D.
  assert (D' : MainGo.acceptDescription (TrimSpace d) = Some (TrimSpace d))
    by (unfold MainGo.acceptDescription; now rewrite D).
  apply rejected_descriptionMain in B3.
  unfold MainGo.gather, MainGo.askWorkItem, MainGo.askCommitType,
    MainGo.askDescription.
  erewrite snd_bind by (apply untilValid_retries; eassumption).
  erewrite snd_bind by reflexivity.
  erewrite snd_bind by reflexivity.
  erewrite snd_bind by (apply untilValid_retries; eassumption).
  erewrite snd_bind by reflexivity.
  erewrite snd_bind by (apply untilValid_retries; eassumption).
  reflexivity.
Qed.

(** X8.  A whole session of the later revision.  With changes staged, any
    number of rejected answers before an accepted work item, an accepted
    number and an accepted description, then body lines closed by a blank
    line and an answer that confirms: git is called exactly twice, the
    second time as [git commit -m] with the type, the lowered work item,
    the trimmed description and the body lines as entered.  The run ends
    with status 1 if that command fails and otherwise returns, the lines
    after the confirmation unread. *)
Theorem commit_session000 `{UnicodeCase} (git : gitworld)
    (bad1 bad2 bad3 body rest : list gostring) (w n d term yes wi t : gostring) :
  snd (git diffArgs) = true ->
  Forall (fun l => Part000.acceptWorkItem (TrimSpace l) = None) bad1 ->
  Part000.acceptWorkItem (TrimSpace w) = Some wi ->
  Forall (fun l => Part000.acceptType Part000.getCommitTypes (TrimSpace l) = None) bad2 ->
  Part000.acceptType Part000.getCommitTypes (TrimSpace n) = Some t ->
  Forall (fun l => Part000.validateEnglishDescription (TrimSpace l) = false) bad3 ->
  Part000.validateEnglishDescription (TrimSpace d) = true ->
  Forall (fun l => TrimSpace l <> []) body ->
  TrimSpace term = [] ->
  Part000.cancelled (ToLower (TrimSpace yes)) = false ->
  let msg := Part000.commitMessage t wi (TrimSpace d) (Join body [LF]) in
  let run := Part000.main git
               (bad1 ++ w :: bad2 ++ n :: bad3 ++ d :: body ++ term :: yes :: rest) in
  gitCalls (fst run) = [diffArgs; commitArgs msg]
  /\ snd run = if snd (git (commitArgs msg)) then Stop (Exited 1) else Value tt rest.
Proof.
  intros S B1 W B2 N B3 D Bd T Y msg run. subst run.
  pose proof (gather000_session bad1 bad2 bad3 body (yes :: rest) w n d term wi t
                B1 W B2 N B3 D Bd T) as G.
  fold msg in G.
  set (stdin := bad1 ++ w :: bad2 ++ n :: bad3 ++ d :: body ++ term :: yes :: rest) in *.
  pose proof (gather000_gitFree stdin) as Q.
  rewrite main000_cases, S.
  destruct (Part000.gather stdin) as [tr res]. cbn [fst snd] in G, Q. subst res.
  rewrite confirm000_cases. cbv zeta. cbn [hd tl]. rewrite Y.
  change (Git diffArgs :: ?x) with ([Git diffArgs] ++ x).
  destruct (snd (git (commitArgs msg))); cbn [fst snd]; (split; [|reflexivity]);
    rewrite !gitCalls_app; cbn [gitCalls flat_map app];
    rewrite gitCalls_app, Q; reflexivity.
Qed.

Lemma commit_session000_witness :
  let msg := str "fix(bcds-7-ab): Fix typo" ++ [LF; LF] ++ str "Why: a" ++ [LF] ++ str " b" in
  gitCalls (fst (@Part000.main asciiOnly gitStaged
                   [str "proj-1"; str " BCDS-7-ab"; str "0"; str "x"; str "2";
                    []; str "Fix typo"; str "Why: a"; str " b"; str "  "; str "Yes";
                    str "left"]))
  = [diffArgs; commitArgs msg]
  /\ snd (@Part000.main asciiOnly gitStaged
            [str "proj-1"; str " BCDS-7-ab"; str "0"; str "x"; str "2";
             []; str "Fix typo"; str "Why: a"; str " b"; str "  "; str "Yes";
             str "left"])
     = Value tt [str "left"].
Proof.
  apply (@commit_session000 asciiOnly gitStaged
           [str "proj-1"] [str "0"; str "x"] [[]] [str "Why: a"; str " b"] [str "left"]
           (str " BCDS-7-ab") (str "2") (str "Fix typo") (str "  ") (str "Yes")
           (str "bcds-7-ab") (str "fix"));
    try reflexivity; repeat constructor; discriminate.
Defined.

(** X9.  A whole session of [main.go], for every order in which the
    runtime yields the catalog: any number of rejected answers before an
    accepted work item, number and description, then an answer that
    confirms.  Git is called exactly twice, the second time as
    [git commit -m] with the one-line message of the type, the work item
    as entered and the description, both trimmed; status 1 if it fails,
    otherwise [main] returns with the later lines unread. *)
Theorem commit_sessionMain `{UnicodeCase} (git : gitworld)
    (iteration : list (Z * MainGo.CommitType))
    (bad1 bad2 bad3 rest : list gostring) (w n d yes wi t : gostring) :
  snd (git diffArgs) = true ->
  Forall (fun l => MainGo.acceptWorkItem (TrimSpace l) = None) bad1 ->
  MainGo.acceptWorkItem (TrimSpace w) = Some wi ->
  Forall (fun l => MainGo.acceptType MainGo.getCommitTypes (TrimSpace l) = None) bad2 ->
  MainGo.acceptType MainGo.getCommitTypes (TrimSpace n) = Some t ->
  Forall (fun l => MainGo.validateEnglishDescription (TrimSpace l) = false) bad3 ->
  MainGo.validateEnglishDescription (TrimSpace d) = true ->
  MainGo.cancelled (TrimSpace yes) = false ->
  let msg := MainGo.commitMessage t wi (TrimSpace d) in
  let run := MainGo.main git iteration
               (bad1 ++ w :: bad2 ++ n :: bad3 ++ d :: yes :: rest) in
  gitCalls (fst run) = [diffArgs; commitArgs msg]
  /\ snd run = if snd (git (commitArgs msg)) then Stop (Exited 1) else Value tt rest.
Proof.
  intros S B1 W B2 N B3 D Y msg run. subst run.
  pose proof (gatherMain_session iteration bad1 bad2 bad3 (yes :: rest) w n d wi t
                B1 W B2 N B3 D) as G.
  fold msg in G.
  set (stdin := bad1 ++ w :: bad2 ++ n :: bad3 ++ d :: yes :: rest) in *.
  pose proof (gatherMain_gitFree iteration stdin) as Q.
  rewrite mainGo_cases, S.
  destruct (MainGo.gather iteration stdin) as [tr res]. cbn [fst snd] in G, Q.
  subst res.
  rewrite confirmMain_cases. cbv zeta. cbn [hd tl]. rewrite Y.
  change (Git diffArgs :: ?x) with ([Git diffArgs] ++ x).
  destruct (snd (git (commitArgs msg))); cbn [fst snd]; (split; [|reflexivity]);
    rewrite !gitCalls_app; cbn [gitCalls flat_map app];
    rewrite gitCalls_app, Q; reflexivity.
Qed.

Lemma commit_sessionMain_witness :
  gitCalls (fst (@MainGo.main asciiOnly gitStaged (rev MainGo.getCommitTypes)
                   [str "bcds-7-ab"; str "PROJ-12 "; str "11"; str "10";
                    str "fix typo"; str "Fix typo (again)"; str " y"; str "left"]))
  = [diffArgs; commitArgs (str "chore(PROJ-12): Fix typo (again)")]
  /\ snd (@MainGo.main asciiOnly gitStaged (rev MainGo.getCommitTypes)
            [str "bcds-7-ab"; str "PROJ-12 "; str "11"; str "10";
             str "fix typo"; str "Fix typo (again)"; str " y"; str "left"])
     = Value tt [str "left"].
Proof.
  apply (@commit_sessionMain asciiOnly gitStaged (rev MainGo.getCommitTypes)
           [str "bcds-7-ab"] [str "11"] [str "fix typo"] [str "left"]
           (str "PROJ-12 ") (str "10") (str "Fix typo (again)") (str " y")
           (str "PROJ-12") (str "chore"));
    try reflexivity; repeat constructor.
Defined.

(** ** The message identifies the answers *)

Lemma prefix_unique (p : ascii -> bool) a a' x x' :
  forallb p a = true -> forallb p a' = true ->
  (forall c r, x = c :: r -> p c = false) ->
  (forall c r, x' = c :: r -> p c = false) ->
  a ++ x = a' ++ x' -> a = a' /\ x = x'.
Proof.
  revert a'. induction a as [|c a IH]; intros [|c' a'] Fa Fa' X X' E;
    cbn [app forallb] in *.
  - now split.
  - exfalso. rewrite (X _ _ E) in Fa'. discriminate.
  - exfalso. symmetry in E. rewrite (X' _ _ E) in Fa. discriminate.
  - injection E as -> E.
    apply andb_true_iff in Fa as [_ Fa]. apply andb_true_iff in Fa' as [_ Fa'].
    destruct (IH a' Fa Fa' X X' E) as [-> ->]. now split.
Qed.

Lemma MatchString_avoids re c s :
  mentions re c = false -> MatchString re s = true ->
  forallb (fun x => negb (x =? c)) s = true.
Proof.
  intros M L. apply MatchString_Lang, Lang_mentions in L.
  revert L. apply forallb_imp. intros x E.
  destruct (Ascii.eqb_spec x c) as [->|]; [congruence | reflexivity].
Qed.

Lemma catalogCodes_avoid t :
  In t catalogCodes -> forallb (fun x => negb (x =? "(")) t = true.
Proof. cbn. intuition (subst; reflexivity). Qed.

Lemma first_line_unique t w rest t' w' rest' :
  forallb (fun x => negb (x =? "(")) t = true ->
  forallb (fun x => negb (x =? "(")) t' = true ->
  forallb (fun x => negb (x =? ")")) w = true ->
  forallb (fun x => negb (x =? ")")) w' = true ->
  t ++ str "(" ++ w ++ str "): " ++ rest = t' ++ str "(" ++ w' ++ str "): " ++ rest' ->
  t = t' /\ w = w' /\ rest = rest'.
Proof.
  intros T T' W W' E.
  apply (prefix_unique _ _ _ _ _ T T') in E as [-> E];
    [|intros c r X; injection X as <- _; reflexivity ..].
  injection E as E.
  apply (prefix_unique _ _ _ _ _ W W') in E as [-> E];
    [|intros c r X; injection X as <- _; reflexivity ..].
  injection E as E. auto.
Qed.

Lemma commitMessage000_shape t w d b :
  Part000.commitMessage t w d b
  = t ++ str "(" ++ w ++ str "): " ++ d
      ++ match b with [] => [] | _ :: _ => LF :: LF :: b end.
Proof.
  unfold Part000.commitMessage. destruct b as [|c b]; cbn [eqs negb].
  - now rewrite app_nil_r.
  - now rewrite <- !app_assoc.
Qed.

(** X10.  The commit message identifies the answers it was built from.  In
    the later revision two messages built from catalog types, valid work
    items and valid descriptions are equal only if type, work item,
    description and body are; in [main.go] the same holds for type, work
    item and description, whatever the descriptions are. *)
Theorem message_identifies_answers :
  (forall t w d b t' w' d' b',
      In t catalogCodes -> In t' catalogCodes ->
      Part000.validateWorkItem w = true -> Part000.validateWorkItem w' = true ->
      Part000.validateEnglishDescription d = true ->
      Part000.validateEnglishDescription d' = true ->
      Part000.commitMessage t w d b = Part000.commitMessage t' w' d' b' ->
      t = t' /\ w = w' /\ d = d' /\ b = b')
  /\ (forall t w d t' w' d',
      In t catalogCodes -> In t' catalogCodes ->
      MainGo.validateWorkItem w = true -> MainGo.validateWorkItem w' = true ->
      MainGo.commitMessage t w d = MainGo.commitMessage t' w' d' ->
      t = t' /\ w = w' /\ d = d').
Proof.
  split.
  - intros t w d b t' w' d' b' T T' W W' D D' E.
    rewrite !commitMessage000_shape in E.
    apply first_line_unique in E as (-> & -> & E);
      try (now apply catalogCodes_avoid);
      try (now apply (MatchString_avoids Part000.workItemRe)).
    apply validateEnglishDescription000_spec in D as [_ D].
    apply validateEnglishDescription000_spec in D' as [_ D'].
    assert (P : forall x, class_mem Part000.descClass x = true -> negb (x =? LF) = true).
    { intros x M. destruct (Ascii.eqb_spec x LF) as [->|]; [discriminate M | reflexivity]. }
    apply (forallb_imp _ _ _ P) in D. apply (forallb_imp _ _ _ P) in D'.
    apply (prefix_unique _ _ _ _ _ D D') in E as [-> E].
    + do 3 (split; [reflexivity|]).
      destruct b, b'; try discriminate; [reflexivity|]. injection E as -> ->. reflexivity.
    + intros c r X. destruct b; [discriminate|]. now injection X as <- _.
    + intros c r X. destruct b'; [discriminate|]. now injection X as <- _.
  - intros t w d t' w' d' T T' W W' E. unfold MainGo.commitMessage in E.
    apply first_line_unique in E as (-> & -> & ->);
      try (now apply catalogCodes_avoid);
      try (now apply (MatchString_avoids MainGo.workItemRe)).
    now repeat split.
Qed.

Lemma message_identifies_answers_witness :
  str "fix" = str "fix" /\ str "bcds-1" = str "bcds-1"
  /\ str "Fix a, b" = str "Fix a, b" /\ str "why" = str "why".
Proof.
  apply (proj1 message_identifies_answers
           (str "fix") (str "bcds-1") (str "Fix a, b") (str "why")
           (str "fix") (str "bcds-1") (str "Fix a, b") (str "why"));
    try reflexivity; cbn; tauto.
Defined.

(** ** What trimming leaves *)

Lemma trimLeft_split n : forall s, (length s <= n)%nat ->
  exists lead, Blank lead /\ s = lead ++ trimLeft s.
Proof.
  induction n as [|n IH]; intros s L.
  - destruct s; [|cbn in L; lia]. exists []. split; [constructor | reflexivity].
  - destruct s as [|c1 t1]; [exists []; split; [constructor | reflexivity]|].
    cbn [length] in L.
    destruct (asciiSpace c1) eqn:A.
    { rewrite trimLeft_space1 by exact A.
      destruct (IH t1) as (l & B & E); [lia|].
      exists (c1 :: l). split; [now apply Blank1|]. cbn [app]. f_equal. exact E. }
    destruct t1 as [|c2 t2].
    { exists []. cbn [trimLeft]. rewrite A. split; [constructor | reflexivity]. }
    cbn [length] in L.
    destruct (space2 c1 c2) eqn:S2.
    { rewrite trimLeft_space2 by exact S2.
      destruct (IH t2) as (l & B & E); [lia|].
      exists (c1 :: c2 :: l). split; [now apply Blank2|]. cbn [app]. do 2 f_equal.
      exact E. }
    destruct t2 as [|c3 t3].
    { exists []. cbn [trimLeft]. rewrite A, S2. split; [constructor | reflexivity]. }
    cbn [length] in L.
    destruct (space3 c1 c2 c3) eqn:S3.
    { rewrite trimLeft_space3 by exact S3.
      destruct (IH t3) as (l & B & E); [lia|].
      exists (c1 :: c2 :: c3 :: l). split; [now apply Blank3|]. cbn [app].
      do 3 f_equal. exact E. }
    exists []. cbn [trimLeft]. rewrite A, S2, S3. split; [constructor | reflexivity].
Qed.

Lemma trimLeftRev_split n : forall s, (length s <= n)%nat ->
  exists trail, Blank trail /\ s = rev trail ++ trimLeftRev s.
Proof.
  induction n as [|n IH]; intros s L.
  - destruct s; [|cbn in L; lia]. exists []. split; [constructor | reflexivity].
  - destruct s as [|c1 t1]; [exists []; split; [constructor | reflexivity]|].
    cbn [length] in L.
    destruct (asciiSpace c1) eqn:A.
    { rewrite trimLeftRev_space1 by exact A.
      destruct (IH t1) as (r & B & E); [lia|].
      exists (r ++ [c1]). split.
      - apply Blank_app; [exact B | apply Blank1; [exact A | constructor]].
      - rewrite rev_app_distr. cbn [rev app]. f_equal. exact E. }
    destruct t1 as [|c2 t2].
    { exists []. cbn [trimLeftRev]. rewrite A. split; [constructor | reflexivity]. }
    cbn [length] in L.
    destruct (space2 c2 c1) eqn:S2.
    { rewrite trimLeftRev_space2 by exact S2.
      destruct (IH t2) as (r & B & E); [lia|].
      exists (r ++ [c2; c1]). split.
      - apply Blank_app; [exact B | apply Blank2; [exact S2 | constructor]].
      - rewrite rev_app_distr. cbn [rev app]. do 2 f_equal. exact E. }
    destruct t2 as [|c3 t3].
    { exists []. cbn [trimLeftRev]. rewrite A, S2. split; [constructor | reflexivity]. }
    cbn [length] in L.
    destruct (space3 c3 c2 c1) eqn:S3.
    { rewrite trimLeftRev_space3 by exact S3.
      destruct (IH t3) as (r & B & E); [lia|].
      exists (r ++ [c3; c2; c1]). split.
      - apply Blank_app; [exact B | apply Blank3; [exact S3 | constructor]].
      - rewrite rev_app_distr. cbn [rev app]. do 3 f_equal. exact E. }
    exists []. cbn [trimLeftRev]. rewrite A, S2, S3.
    split; [constructor | reflexivity].
Qed.

Lemma TrimSpace_split s :
  exists lead trail, Blank lead /\ Blank trail /\ s = lead ++ TrimSpace s ++ trail.
Proof.
  destruct (trimLeft_split (length s) s (le_n _)) as (lead & Bl & El).
  destruct (trimLeftRev_split _ (rev (trimLeft s)) (le_n _)) as (trail & Br & Er).
  exists lead, trail. split; [exact Bl|]. split; [exact Br|].
  unfold TrimSpace, trimRight.
  apply (f_equal (@rev ascii)) in Er.
  rewrite rev_involutive, rev_app_distr, rev_involutive in Er.
  rewrite <- Er. exact El.
Qed.

Lemma TrimSpace_idempotent s : TrimSpace (TrimSpace s) = TrimSpace s.
Proof.
  destruct (TrimSpace_split s) as (lead & trail & Bl & Br & E).
  pose proof (TrimSpace_padded lead (TrimSpace s) trail Bl Br) as P.
  rewrite <- E in P. symmetry. exact P.
Qed.

Lemma TrimSpace_length s : (length (TrimSpace s) <= length s)%nat.
Proof.
  destruct (TrimSpace_split s) as (lead & trail & _ & _ & E).
  apply (f_equal (@length ascii)) in E. rewrite !length_app in E. lia.
Qed.

Lemma TrimSpace_no_blank_start s l x :
  TrimSpace s = l ++ x -> Blank l -> l = [].
Proof.
  intros E B.
  pose proof (TrimSpace_idempotent s) as I. rewrite E in I.
  pose proof (TrimSpace_padded l x [] B BlankNil) as P. rewrite app_nil_r in P.
  rewrite P in I. pose proof (TrimSpace_length x) as L. rewrite I in L.
  rewrite length_app in L. destruct l; [reflexivity | cbn in L; lia].
Qed.

Lemma TrimSpace_no_blank_end s x r :
  TrimSpace s = x ++ r -> Blank r -> r = [].
Proof.
  intros E B.
  pose proof (TrimSpace_idempotent s) as I. rewrite E in I.
  pose proof (TrimSpace_padded [] x r BlankNil B) as P. cbn [app] in P.
  rewrite P in I. pose proof (TrimSpace_length x) as L. rewrite I in L.
  rewrite length_app in L. destruct r; [reflexivity | cbn in L; lia].
Qed.

(** X11.  What [readLine] and [readInput] return is the line without the
    white space at its two ends and nothing else: the line is the answer
    with white space before and after it, the answer neither starts nor
    ends with white space, trimming it again changes nothing, and it is
    empty exactly when the line is all white space. *)
Theorem answer_is_line_without_its_ends (prompt line : gostring) (rest : list gostring) :
  exists lead trail answer,
    readLine prompt (line :: rest) = ([Print prompt; Scan], Value answer rest)
    /\ line = lead ++ answer ++ trail /\ Blank lead /\ Blank trail
    /\ (forall l x, answer = l ++ x -> Blank l -> l = [])
    /\ (forall x r, answer = x ++ r -> Blank r -> r = [])
    /\ TrimSpace answer = answer
    /\ (answer = [] <-> Blank line).
Proof.
  destruct (TrimSpace_split line) as (lead & trail & Bl & Br & E).
  exists lead, trail, (TrimSpace line).
  split; [apply readLine_run|]. split; [exact E|]. split; [exact Bl|].
  split; [exact Br|].
  split; [intros l x; apply TrimSpace_no_blank_start|].
  split; [intros x r; apply TrimSpace_no_blank_end|].
  split; [apply TrimSpace_idempotent|].
  split.
  - intros N. rewrite N in E. cbn [app] in E. rewrite E. now apply Blank_app.
  - apply TrimSpace_Blank.
Qed.

(** ** The stored work item and description *)

Lemma trimLeft_plain c t :
  isASCIIbyte c = true -> asciiSpace c = false -> trimLeft (c :: t) = c :: t.
Proof.
  intros I A. cbn [trimLeft]. rewrite A.
  destruct t as [|c2 t2]; [reflexivity|].
  destruct (space2 c c2) eqn:S2; [apply space2_first in S2; subst; discriminate|].
  destruct t2 as [|c3 t3]; [reflexivity|].
  destruct (space3 c c2 c3) eqn:S3; [|reflexivity].
  apply space3_first in S3 as [->|[->| ->]]; discriminate.
Qed.

Lemma trimLeftRev_plain c t :
  isASCIIbyte c = true -> asciiSpace c = false -> trimLeftRev (c :: t) = c :: t.
Proof.
  intros I A. cbn [trimLeftRev]. rewrite A.
  destruct t as [|c2 t2]; [reflexivity|].
  destruct (space2 c2 c) eqn:S2;
    [apply space2_second in S2 as [->| ->]; discriminate|].
  destruct t2 as [|c3 t3]; [reflexivity|].
  destruct (space3 c3 c2 c) eqn:S3; [|reflexivity].
  apply space3_third in S3. unfold isASCIIbyte in I. apply N.ltb_lt in I. lia.
Qed.

Lemma TrimSpace_plain s :
  forallb (fun c => isASCIIbyte c && negb (asciiSpace c)) s = true -> TrimSpace s = s.
Proof.
  intros F. rewrite forallb_forall in F.
  assert (P : forall c, In c s -> isASCIIbyte c = true /\ asciiSpace c = false).
  { intros c I. specialize (F c I). apply andb_true_iff in F as [F1 F2].
    split; [exact F1|]. now destruct (asciiSpace c). }
  destruct s as [|c t]; [reflexivity|].
  unfold TrimSpace, trimRight.
  rewrite trimLeft_plain by (apply P; now left).
  destruct (rev (c :: t)) as [|e u] eqn:R.
  - apply (f_equal (@length ascii)) in R. rewrite length_rev in R. discriminate.
  - assert (I : In e (c :: t)) by (apply in_rev; rewrite R; now left).
    rewrite trimLeftRev_plain by (apply P; exact I).
    rewrite <- R. apply rev_involutive.
Qed.

Lemma HasPrefix_app p s : HasPrefix (p ++ s) p = true.
Proof.
  induction p as [|c p IH]; cbn [app HasPrefix]; [now destruct s|].
  now rewrite Ascii.eqb_refl.
Qed.

Lemma workItem000_plain c :
  mentions Part000.workItemRe c = true ->
  isASCIIbyte c && negb (asciiSpace c) = true.
Proof. bytes c; vm_compute; congruence. Qed.

(** X12.  The work item the later revision stores is in normal form: it is
    the lowered answer, all ASCII, starts with [bcds-], has no white space
    at its ends and no uppercase letter, so that entering the stored value
    again stores the same value. *)
Theorem stored_work_item_normal_form `{UnicodeCase} (line w : gostring) :
  Part000.acceptWorkItem line = Some w ->
  w = ToLower line /\ isASCII w = true /\ HasPrefix w (str "bcds-") = true
  /\ ToLower w = w /\ TrimSpace w = w
  /\ Part000.acceptWorkItem (TrimSpace w) = Some w.
Proof.
  unfold Part000.acceptWorkItem at 1.
  destruct (Part000.validateWorkItem (ToLower line)) eqn:V; [|discriminate].
  intros E. injection E as <-. split; [reflexivity|].
  set (w := ToLower line) in *. clearbody w.
  assert (P : forallb (fun c => isASCIIbyte c && negb (asciiSpace c)) w = true).
  { unfold Part000.validateWorkItem in V.
    apply MatchString_Lang, Lang_mentions in V.
    revert V. apply forallb_imp. apply workItem000_plain. }
  assert (A : isASCII w = true).
  { revert P. apply forallb_imp. intros c X. now apply andb_true_iff in X as [X _]. }
  assert (L : ToLower w = w).
  { unfold ToLower. rewrite A.
    apply (WorkItemExact_lower (str "bcds")); [reflexivity|].
    now apply validateWorkItem000_exact. }
  assert (T : TrimSpace w = w) by now apply TrimSpace_plain.
  split; [exact A|]. split.
  { pose proof (proj1 (validateWorkItem000_exact w) V) as (ds & segs & E & _).
    rewrite E. apply (HasPrefix_app (str "bcds-")). }
  split; [exact L|]. split; [exact T|].
  unfold Part000.acceptWorkItem. rewrite T, L, V. reflexivity.
Qed.

Lemma stored_work_item_normal_form_witness :
  @Part000.acceptWorkItem asciiOnly (TrimSpace (str "bcds-12-a1")) = Some (str "bcds-12-a1").
Proof.
  apply (@stored_work_item_normal_form asciiOnly (str "BCDS-12-A1") (str "bcds-12-a1")).
  reflexivity.
Defined.

Lemma descClass000_ascii c :
  class_mem Part000.descClass c = true -> isASCIIbyte c = true.
Proof. bytes c; vm_compute; congruence. Qed.

Lemma descClass000_noLF c :
  class_mem Part000.descClass c = true -> negb (c =? LF) = true.
Proof. bytes c; vm_compute; congruence. Qed.

Lemma allowedChar_noLF c : allowedChar c = true -> negb (c =? LF) = true.
Proof. bytes c; vm_compute; congruence. Qed.

Lemma trimmed_ends line d :
  d = TrimSpace line ->
  (forall x, d <> " "%char :: x) /\ (forall x, d <> x ++ [" "%char]).
Proof.
  intros ->. split; intros x E.
  - change (" "%char :: x) with ([" "%char] ++ x) in E.
    apply TrimSpace_no_blank_start in E; [discriminate|].
    apply Blank1; [reflexivity | constructor].
  - apply TrimSpace_no_blank_end in E; [discriminate|].
    apply Blank1; [reflexivity | constructor].
Qed.

(** X13.  The description either version stores.  It is the trimmed
    answer; it is all ASCII, so that its length in bytes, between 1 and 72,
    is its length in characters; it has no line feed; and although the
    pattern allows a space anywhere, it neither starts nor ends with
    one. *)
Theorem stored_description_shape `{UnicodeCase} (line d : gostring) :
  Part000.acceptDescription (TrimSpace line) = Some d
  \/ MainGo.acceptDescription (TrimSpace line) = Some d ->
  d = TrimSpace line
  /\ isASCII d = true /\ noLF d = true /\ (1 <= length d <= 72)%nat
  /\ (forall x, d <> " "%char :: x) /\ (forall x, d <> x ++ [" "%char]).
Proof.
  intros [E|E].
  - unfold Part000.acceptDescription in E.
    destruct (Part000.validateEnglishDescription (TrimSpace line)) eqn:V;
      [|discriminate].
    injection E as E. symmetry in E. split; [exact E|]. rewrite <- E in V.
    apply validateEnglishDescription000_spec in V as [L F].
    split; [revert F; apply forallb_imp, descClass000_ascii|].
    split; [revert F; apply forallb_imp, descClass000_noLF|].
    split; [exact L|]. now apply (trimmed_ends line).
  - unfold MainGo.acceptDescription in E.
    destruct (MainGo.validateEnglishDescription (TrimSpace line)) eqn:V;
      [|discriminate].
    injection E as E. symmetry in E. split; [exact E|]. rewrite <- E in V.
    apply validateEnglishDescriptionMain_spec in V as [R _].
    apply descriptionRule_spec in R as [L F].
    split; [revert F; apply forallb_imp, allowedChar_ascii|].
    split; [revert F; apply forallb_imp, allowedChar_noLF|].
    split; [exact L|]. now apply (trimmed_ends line).
Qed.

Lemma stored_description_shape_witness :
  str "Fix a, b" = TrimSpace (str "  Fix a, b ")
  /\ isASCII (str "Fix a, b") = true /\ noLF (str "Fix a, b") = true
  /\ (1 <= length (str "Fix a, b") <= 72)%nat
  /\ (forall x, str "Fix a, b" <> " "%char :: x)
  /\ (forall x, str "Fix a, b" <> x ++ [" "%char]).
Proof.
  apply (@stored_description_shape asciiOnly (str "  Fix a, b ") (str "Fix a, b")).
  left. reflexivity.
Defined.

(** ** Forms of a number the selector takes *)

(** X14.  The type selector of either version, on any catalog, reads a
    number the way [strconv.Atoi] does: a plus sign before the digits and
    zeros before them change nothing, so [+2] and [002] select what [2]
    selects; a minus sign before a digit is always rejected by the later
    revision, whose range starts at 1. *)
Theorem selector_number_forms (c : ascii) (s : gostring) :
  isDigit c = true ->
  (forall cts,
      Part000.acceptType cts ("+"%char :: c :: s) = Part000.acceptType cts (c :: s)
      /\ Part000.acceptType cts ("0"%char :: c :: s) = Part000.acceptType cts (c :: s)
      /\ Part000.acceptType cts ("-"%char :: c :: s) = None)
  /\ (forall cts,
      MainGo.acceptType cts ("+"%char :: c :: s) = MainGo.acceptType cts (c :: s)
      /\ MainGo.acceptType cts ("0"%char :: c :: s) = MainGo.acceptType cts (c :: s)).
Proof.
  intros D.
  assert (P : Atoi ("+"%char :: c :: s) = Atoi (c :: s)).
  { unfold Atoi. cbn [Ascii.eqb Bool.eqb].
    replace (c =? "-")%char with false by (revert D; bytes c; vm_compute; congruence).
    replace (c =? "+")%char with false by (revert D; bytes c; vm_compute; congruence).
    reflexivity. }
  assert (Z0 : Atoi ("0"%char :: c :: s) = Atoi (c :: s)).
  { unfold Atoi. cbn [Ascii.eqb Bool.eqb].
    replace (c =? "-")%char with false by (revert D; bytes c; vm_compute; congruence).
    replace (c =? "+")%char with false by (revert D; bytes c; vm_compute; congruence).
    reflexivity. }
  assert (G : forall acc t, (0 <= acc)%Z ->
              forall n, parseDigits acc t = Some n -> (0 <= n)%Z).
  { intros acc t. revert acc. induction t as [|e t IH]; intros acc A n E;
      cbn [parseDigits] in E.
    - injection E as <-. exact A.
    - destruct (isDigit e) eqn:De; [|discriminate].
      apply (IH (acc * 10 + digitVal e)%Z); [|exact E].
      assert (0 <= digitVal e)%Z by (revert De; bytes e; vm_compute; congruence).
      lia. }
  split; intros cts.
  - unfold Part000.acceptType. rewrite P, Z0. repeat split.
    unfold Atoi. cbn [Ascii.eqb Bool.eqb].
    destruct (parseDigits 0 (c :: s)) as [n|] eqn:E; [|reflexivity].
    apply G in E; [|lia].
    destruct ((minInt <=? - n) && (- n <=? maxInt))%Z; [|reflexivity].
    destruct (Z.leb_spec 1 (- n)); [lia | reflexivity].
  - unfold MainGo.acceptType. rewrite P, Z0. now split.
Qed.

Lemma selector_number_forms_witness :
  Part000.acceptType Part000.getCommitTypes (str "+2")
  = Part000.acceptType Part000.getCommitTypes (str "2")
  /\ Part000.acceptType Part000.getCommitTypes (str "02")
     = Part000.acceptType Part000.getCommitTypes (str "2")
  /\ Part000.acceptType Part000.getCommitTypes (str "-2") = None.
Proof.
  apply (proj1 (selector_number_forms "2"%char [] eq_refl) Part000.getCommitTypes).
Defined.

(** ** The menu and the selector together *)

(** X15.  The number printed beside a catalog entry selects that entry.
    In the later revision the entry at index [k] is printed on the
    [k]-th menu line with the number [k+1], and that numeral, entered,
    yields its code.  In [main.go] this holds for every entry the runtime
    yields from the map, in whatever order it yields them. *)
Theorem menu_number_selects_its_entry :
  (forall k ct,
      nth_error Part000.getCommitTypes k = Some ct ->
      nth_error (Part000.printMenu 0 Part000.getCommitTypes) k
      = Some (Print (Part000.menuLine (Z.of_nat k + 1) ct))
      /\ Part000.acceptType Part000.getCommitTypes (Itoa (Z.of_nat k + 1))
         = Some (Part000.code ct))
  /\ (forall iteration i ct,
      In (i, ct) iteration -> In (i, ct) MainGo.getCommitTypes ->
      In (Print (MainGo.menuLine i ct)) (MainGo.printMenu iteration)
      /\ MainGo.acceptType MainGo.getCommitTypes (Itoa i) = Some (MainGo.code ct)).
Proof.
  split.
  - intros k ct E.
    do 10 (destruct k as [|k];
           [cbn [nth_error Part000.getCommitTypes] in E; injection E as <-;
            split; reflexivity|]).
    destruct k; discriminate.
  - intros iteration i ct I M. split.
    + unfold MainGo.printMenu.
      apply (in_map (fun '(i, ct) => Print (MainGo.menuLine i ct)) _ _ I).
    + cbn [MainGo.getCommitTypes In] in M.
      repeat (destruct M as [M|M]; [injection M as <- <-; reflexivity|]).
      destruct M.
Qed.

Lemma menu_number_selects_its_entry_witness :
  In (Print (MainGo.menuLine 10
               {| MainGo.code := str "chore";
                  MainGo.description := str "其他杂项 (Other changes)" |}))
    (MainGo.printMenu (rev MainGo.getCommitTypes))
  /\ MainGo.acceptType MainGo.getCommitTypes (Itoa 10) = Some (str "chore").
Proof.
  apply (proj2 menu_number_selects_its_entry (rev MainGo.getCommitTypes) 10%Z
           {| MainGo.code := str "chore";
              MainGo.description := str "其他杂项 (Other changes)" |}).
  - left. reflexivity.
  - cbn. tauto.
Defined.
